(** * 5ire: the streaming chat orchestrator, the chat store, the page and
      the document loader

    A shallow embedding of
    - [NextCharService] (the abstract chat service: [isReady], [abort], [chat]
      and the default completion callback),
    - [MoonshotChatService.makeRequest] (the request is bound to the abort signal),
    - [useChatStore]: [processMessage], [createMessage], [appendReply],
      [updateMessage], [deleteMessage], [fetchMessages] with its query, and the
      per-chat slots ([updateStates], [getCurState], [getKeyword], [setKeyword]),
    - the tool calls of a message on the page ([Message] as part_000 holds it,
      and [ToolCallDisplay]),
    - [loadDocument],
    together with the properties of the written specification that concern
    them, and further properties read off the code. *)

From Stdlib Require Import ZArith Lia Bool Ascii String DecimalString List.
From stdpp Require Import base option list strings gmap.
Import ListNotations.

Local Open Scope string_scope.
Local Open Scope list_scope.
Local Open Scope Z_scope.

(* ===================================================================== *)
(** * JavaScript values *)
(* ===================================================================== *)

Module Js.

(** The values the modelled code inspects.  Numbers are the integers the
    code counts with (token counts, depths, status codes). *)
#[warnings="-register-all"]
Inductive JsValue : Type :=
| JUndefined
| JNull
| JBool (b : bool)
| JNum (n : Z)
| JStr (s : string)
| JArr (items : list JsValue)
| JObj (fields : list (string * JsValue)).

(** [!!v] *)
Definition truthy (v : JsValue) : bool :=
  match v with
  | JUndefined | JNull => false
  | JBool b => b
  | JNum n => negb (n =? 0)
  | JStr s => negb (String.eqb s "")
  | JArr _ | JObj _ => true
  end.

(** [Array.isArray(v)] *)
Definition isArray (v : JsValue) : bool :=
  match v with JArr _ => true | _ => false end.

(** lodash [isNil] *)
Definition isNil (v : JsValue) : bool :=
  match v with JUndefined | JNull => true | _ => false end.

(** A thrown value, as far as [chat]'s handler looks at it:
    [error.code], [error.message] and [error.toString()].  The values
    modelled are objects, which is what the platform, the Tool Host and
    [raiseError] reject with.  A rejection with null or undefined, at which
    the handler itself would throw when it reads [error.code], is outside
    the runs described here. *)
Record JsError : Type := {
  err_code : option Z;
  err_message : option string;
  err_toString : string
}.

(** [new Error(msg)] *)
Definition Error (msg : string) : JsError :=
  {| err_code := None; err_message := Some msg; err_toString := "Error: " +:+ msg |}.

(** [s.includes(needle)] *)
Fixpoint includes (needle s : string) : bool :=
  String.prefix needle s ||
  match s with
  | EmptyString => false
  | String _ rest => includes needle rest
  end.

(** [s.slice(n)] *)
Fixpoint drop_chars (n : nat) (s : string) : string :=
  match n, s with
  | S k, String _ rest => drop_chars k rest
  | _, _ => s
  end.

(** [s.split(sep)] for a non-empty separator: cut at every occurrence of
    [sep], scanning from the left; [skip] counts the characters of a
    separator still to be passed over, [cur] is the piece being read. *)
Fixpoint split_from (sep : string) (skip : nat) (cur s : string) : list string :=
  match s with
  | EmptyString => [cur]
  | String c rest =>
      match skip with
      | S k => split_from sep k cur rest
      | O =>
          if String.prefix sep s
          then cur :: split_from sep (String.length sep - 1)%nat "" rest
          else split_from sep 0%nat (cur +:+ String c "") rest
      end
  end.

Definition split (sep s : string) : list string := split_from sep 0%nat "" s.

End Js.
Import Js.

(* ===================================================================== *)
(** * Qualified tool names *)
(* ===================================================================== *)

Module ToolName.

(** [const [client, name] = readResult.tool.name.split('--')]: the first two
    pieces of the split; a missing piece is [undefined]. *)
Definition destructure (qualified : string) : option string * option string :=
  let parts := split "--" qualified in
  (parts !! 0%nat, parts !! 1%nat).

(** The specification's reading: cut at the first occurrence of the
    separator only.  [None] when the separator does not occur. *)
Fixpoint split_first (sep s : string) : option (string * string) :=
  if String.prefix sep s then Some ("", drop_chars (String.length sep) s)
  else match s with
       | EmptyString => None
       | String c rest =>
           match split_first sep rest with
           | Some (before, after) => Some (String c before, after)
           | None => None
           end
       end.

(** [client--toolname] *)
Definition qualify (client toolname : string) : string :=
  client +:+ "--" +:+ toolname.

End ToolName.

(* ===================================================================== *)
(** * The chat service: data *)
(* ===================================================================== *)

Module Chat.

(** [IChatRequestMessage] *)
Record RequestMessage : Type := {
  role : string;
  content : JsValue
}.

(** [ITool]: the pending tool call of a read result. *)
Record ITool : Type := {
  tool_name : string;
  tool_args : JsValue
}.

(** [IToolCall] *)
Record IToolCall : Type := {
  name : string;
  args : JsValue;
  response : JsValue
}.

(** The [error] field of a completion payload. *)
Record ErrorInfo : Type := {
  code : Z;
  message : string
}.

(** [IChatResponseMessage], the payload of the completion callback. *)
Record ChatResponseMessage : Type := {
  reply_content : string;
  toolCalls : list IToolCall;
  inputTokens : Z;
  outputTokens : Z;
  error : option ErrorInfo
}.

(** What [chatReader.read] returns.  An absent field is [None]. *)
Record ReadResult : Type := {
  rr_tool : option ITool;
  rr_toolCalls : option (list IToolCall);
  rr_inputTokens : option Z;
  rr_outputTokens : option Z;
  rr_error : option ErrorInfo
}.

(** ** The environment

    An awaited operation that was handed the abort signal either resolves,
    rejects, or is cut short because [abort()] is called while it is
    pending; it then rejects with the platform's abort error. *)
Inductive Await (A : Type) : Type :=
| Resolves (a : A)
| Rejects (e : JsError)
| Aborted.
Arguments Resolves {A} a.
Arguments Rejects {A} e.
Arguments Aborted {A}.

(** The sub-callbacks the reader invokes while it drains the stream. *)
Inductive ReaderEvent : Type :=
| OnError (err : JsError)
| OnProgress (chunk : string)
| OnToolCalls (toolName : string).

(** One streamed body: the callbacks in stream order, then the outcome of
    [await chatReader.read(...)]. *)
Record Stream : Type := {
  events : list ReaderEvent;
  finish : Await ReadResult
}.

(** The [Response] of [makeRequest], as far as [chat] reads it. *)
Record Response : Type := {
  status : Z;
  contentType : option string;          (* headers.get('content-type') *)
  json : Await JsValue;                 (* await response.json() *)
  text : Await string;                  (* await response.text() *)
  body : option Stream                  (* response.body?.getReader() *)
}.

(** [window.electron.mcp.callTool({client, name, args})] is handed no
    signal: [abort()] may be called while it is pending, and the call
    settles all the same. *)
Record ToolAwait : Type := {
  abortDuringTool : bool;
  toolSettles : JsValue + JsError      (* resolves with a value | rejects *)
}.

(** What the outside world does during one round-trip. *)
Record Round : Type := {
  request : Await Response;
  toolHost : ToolAwait
}.

(** ** Observable effects

    The trace records, oldest first, every call [chat] makes to the outside:
    the network request, the four callbacks, the Tool Host.  The callbacks
    are observers: they return normally.  A callback that throws, or a
    completion callback whose promise rejects (it is awaited inside the
    [try] block, and outside it at the ceiling), is outside the runs
    described here. *)
Inductive Event : Type :=
| EvRequest (messages : list RequestMessage)            (* makeRequest *)
| EvReading (chunk : string)                            (* onReadingCallback *)
| EvToolCalls (toolName : string)                       (* onToolCallsCallback *)
| EvError (err : JsError) (aborted : bool)              (* onErrorCallback *)
| EvCallTool (client name : option string) (args : JsValue)   (* mcp.callTool *)
| EvComplete (result : ChatResponseMessage).            (* onCompleteCallback *)

(** What happens to [currentRecursionDepth], per entry of [chat]: a log kept
    beside the counter, so that its writes can be counted. *)
Inductive DepthOp : Type := Entered | Incremented | Decremented.

(** [apiSettings]; an unset field is [None]. *)
Record ApiSettings : Type := {
  base : option string;
  key : option string;
  model : option string
}.

(** The service object and the world it acts on.  The counters
    [inputTokens] and [outputTokens] of the service are [svc_inputTokens]
    and [svc_outputTokens] here; the plain names are the fields of the
    completion payload. *)
Record State : Type := {
  (* configuration *)
  apiSchema : list string;                 (* provider.chat.apiSchema *)
  apiSettings : ApiSettings;
  (* fields of the service *)
  abortController : nat;                   (* a reference into [controllers] *)
  svc_inputTokens : Z;
  svc_outputTokens : Z;
  toolCallsWithResponses : list IToolCall;
  currentRecursionDepth : Z;
  (* the world *)
  controllers : list bool;                 (* every AbortController made: its [aborted] flag *)
  requests : nat;                          (* network requests issued so far *)
  trace : list Event;                      (* callbacks and calls, oldest first *)
  depthLog : list DepthOp
}.

Definition MAX_RECURSION_DEPTH : Z := 10.

(** ** Field updates *)
Definition set_tokens (i o : Z) (s : State) : State :=
  {| apiSchema := apiSchema s; apiSettings := apiSettings s;
     abortController := abortController s;
     svc_inputTokens := i; svc_outputTokens := o;
     toolCallsWithResponses := toolCallsWithResponses s;
     currentRecursionDepth := currentRecursionDepth s;
     controllers := controllers s; requests := requests s;
     trace := trace s; depthLog := depthLog s |}.

Definition set_toolCalls (l : list IToolCall) (s : State) : State :=
  {| apiSchema := apiSchema s; apiSettings := apiSettings s;
     abortController := abortController s;
     svc_inputTokens := svc_inputTokens s; svc_outputTokens := svc_outputTokens s;
     toolCallsWithResponses := l;
     currentRecursionDepth := currentRecursionDepth s;
     controllers := controllers s; requests := requests s;
     trace := trace s; depthLog := depthLog s |}.

Definition set_depth (op : DepthOp) (d : Z) (s : State) : State :=
  {| apiSchema := apiSchema s; apiSettings := apiSettings s;
     abortController := abortController s;
     svc_inputTokens := svc_inputTokens s; svc_outputTokens := svc_outputTokens s;
     toolCallsWithResponses := toolCallsWithResponses s;
     currentRecursionDepth := d;
     controllers := controllers s; requests := requests s;
     trace := trace s; depthLog := depthLog s ++ [op] |}.

Definition set_controllers (ref : nat) (l : list bool) (s : State) : State :=
  {| apiSchema := apiSchema s; apiSettings := apiSettings s;
     abortController := ref;
     svc_inputTokens := svc_inputTokens s; svc_outputTokens := svc_outputTokens s;
     toolCallsWithResponses := toolCallsWithResponses s;
     currentRecursionDepth := currentRecursionDepth s;
     controllers := l; requests := requests s;
     trace := trace s; depthLog := depthLog s |}.

Definition emits (es : list Event) (s : State) : State :=
  {| apiSchema := apiSchema s; apiSettings := apiSettings s;
     abortController := abortController s;
     svc_inputTokens := svc_inputTokens s; svc_outputTokens := svc_outputTokens s;
     toolCallsWithResponses := toolCallsWithResponses s;
     currentRecursionDepth := currentRecursionDepth s;
     controllers := controllers s;
     requests := requests s;
     trace := trace s ++ es; depthLog := depthLog s |}.

(** One callback or call is observed. *)
Definition emit (e : Event) (s : State) : State := emits [e] s.

(** A network request leaves: it is counted and traced. *)
Definition issue (messages : list RequestMessage) (s : State) : State :=
  {| apiSchema := apiSchema s; apiSettings := apiSettings s;
     abortController := abortController s;
     svc_inputTokens := svc_inputTokens s; svc_outputTokens := svc_outputTokens s;
     toolCallsWithResponses := toolCallsWithResponses s;
     currentRecursionDepth := currentRecursionDepth s;
     controllers := controllers s;
     requests := S (requests s);
     trace := trace s ++ [EvRequest messages]; depthLog := depthLog s |}.

(** The service as its constructor leaves it. *)
Definition fresh (schema : list string) (settings : ApiSettings) : State :=
  {| apiSchema := schema; apiSettings := settings;
     abortController := 0;
     svc_inputTokens := 0; svc_outputTokens := 0;
     toolCallsWithResponses := [];
     currentRecursionDepth := 0;
     controllers := [false]; requests := 0;
     trace := []; depthLog := [] |}.

(* =================================================================== *)
(** * The chat service: operations *)
(* =================================================================== *)

(** [!this.apiSettings.x]: unset or the empty string. *)
Definition missing (x : option string) : bool :=
  match x with
  | None => true
  | Some v => String.eqb v ""
  end.

(** [apiSchema.includes(field)] *)
Definition schema_includes (field : string) (schema : list string) : bool :=
  existsb (String.eqb field) schema.

(** [isReady()] *)
Definition isReady (s : State) : bool :=
  if schema_includes "model" (apiSchema s) && missing (model (apiSettings s)) then false
  else if schema_includes "base" (apiSchema s) && missing (base (apiSettings s)) then false
  else if schema_includes "key" (apiSchema s) && missing (key (apiSettings s)) then false
  else true.

(** [abort()]: [this.abortController?.abort()] marks the controller the
    service currently holds. *)
Definition abort (s : State) : State :=
  set_controllers (abortController s) (<[abortController s := true]> (controllers s)) s.

(** Derived notion: the controller [ref], which need not be the one the
    service holds, has been aborted.  [abort s] is [marked (abortController s) s]. *)
Definition marked (ref : nat) (s : State) : State :=
  set_controllers (abortController s) (<[ref := true]> (controllers s)) s.

(** [this.abortController = new AbortController()] *)
Definition newAbortController (s : State) : State :=
  set_controllers (length (controllers s)) (controllers s ++ [false]) s.

(** [!!signal?.aborted] for the signal of controller [ref]. *)
Definition signal_aborted (ref : nat) (s : State) : bool :=
  default false (controllers s !! ref).

(** How control leaves the [try] block. *)
Inductive Exit : Type :=
| Fallthrough
| Returned
| Thrown (e : JsError).

(** [`${n}`] for an integer. *)
Definition show (n : Z) : string := NilZero.string_of_int (Z.to_int n).

(** The payload of the depth-ceiling branch. *)
Definition ceilingOutcome (s : State) : ChatResponseMessage :=
  {| reply_content := "Maximum recursion depth reached for tool calls.";
     toolCalls := toolCallsWithResponses s;
     inputTokens := svc_inputTokens s;
     outputTokens := svc_outputTokens s;
     error := Some {| code := 500;
                      message := "Maximum recursion depth (" +:+ show MAX_RECURSION_DEPTH
                                 +:+ ") reached for tool calls." |} |}.

(** The payload of the [catch] handler: [error.code || 500] and
    [error.message || error.toString()]. *)
Definition errorInfo (e : JsError) : ErrorInfo :=
  {| code := match err_code e with
             | Some c => if c =? 0 then 500 else c
             | None => 500
             end;
     message := match err_message e with
                | Some m => if String.eqb m "" then err_toString e else m
                | None => err_toString e
                end |}.

Definition catchOutcome (reply : string) (e : JsError) (s : State) : ChatResponseMessage :=
  {| reply_content := reply;
     toolCalls := toolCallsWithResponses s;
     inputTokens := svc_inputTokens s;
     outputTokens := svc_outputTokens s;
     error := Some (errorInfo e) |}.

(** [if (readResult?.inputTokens) this.inputTokens += ...], and likewise
    for the output tokens: an absent or zero count adds nothing. *)
Definition addTokens (r : ReadResult) (s : State) : State :=
  let i := match rr_inputTokens r with
           | Some n => if n =? 0 then svc_inputTokens s else svc_inputTokens s + n
           | None => svc_inputTokens s
           end in
  let o := match rr_outputTokens r with
           | Some n => if n =? 0 then svc_outputTokens s else svc_outputTokens s + n
           | None => svc_outputTokens s
           end in
  set_tokens i o s.

(** The callbacks [chat] hands to the reader. *)
Definition feed (acc : State * string) (ev : ReaderEvent) : State * string :=
  let '(s, reply) := acc in
  match ev with
  | OnError err => (emit (EvError err false) s, reply)
  | OnProgress chunk => (emit (EvReading chunk) s, reply +:+ chunk)
  | OnToolCalls toolName => (emit (EvToolCalls toolName) s, reply)
  end.

Definition drain (evs : list ReaderEvent) (s : State) (reply : string) : State * string :=
  fold_left feed evs (s, reply).

(** What the observers see of the reader's callbacks, and the text the
    progress callback adds to [reply]. *)
Definition callbackEvent (ev : ReaderEvent) : Event :=
  match ev with
  | OnError err => EvError err false
  | OnProgress chunk => EvReading chunk
  | OnToolCalls toolName => EvToolCalls toolName
  end.

Definition progress (evs : list ReaderEvent) : string :=
  fold_right (fun ev acc => match ev with
                            | OnProgress chunk => chunk +:+ acc
                            | _ => acc
                            end) "" evs.

(** ** Counting in traces and logs *)
Fixpoint count {A : Type} (p : A -> bool) (l : list A) : nat :=
  match l with
  | [] => 0%nat
  | x :: l' => ((if p x then 1 else 0) + count p l')%nat
  end.

Definition isRequest (e : Event) : bool :=
  match e with EvRequest _ => true | _ => false end.
Definition isComplete (e : Event) : bool :=
  match e with EvComplete _ => true | _ => false end.
Definition isCallTool (e : Event) : bool :=
  match e with EvCallTool _ _ _ => true | _ => false end.
Definition isOp (op : DepthOp) (x : DepthOp) : bool :=
  match op, x with
  | Entered, Entered | Incremented, Incremented | Decremented, Decremented => true
  | _, _ => false
  end.

(** The completion payloads of a trace, oldest first. *)
Definition completions (l : list Event) : list ChatResponseMessage :=
  omap (fun e => match e with EvComplete r => Some r | _ => None end) l.

Section Orchestrator.

(** The abstract [makeToolMessages] of the concrete service. *)
Variable makeToolMessages : ITool -> JsValue -> list RequestMessage.

(** Modelled from the spec: [raiseError] of [utils/util] is missing; it
    "raises a classified network/HTTP error" from the status and the
    decoded body.  The value is the error it throws. *)
Variable raiseError : Z -> option JsValue -> option string -> JsError.

(** The error with which the platform rejects an aborted operation. *)
Variable AbortError : JsError.

(** The [n]-th network request of the service meets round [script n]. *)
Variable script : nat -> Round.

(** An operation bound to the abort signal of the round. *)
Definition await {A : Type} (op : Await A) (s : State) : State * (A + JsError) :=
  match op with
  | Resolves a => (s, inl a)
  | Rejects e => (s, inr e)
  | Aborted => (abort s, inr AbortError)
  end.

(** [MoonshotChatService.makeRequest]: the payload made of [messages] is
    posted with [fetch], which is handed [signal: this.abortController.signal]. *)
Definition makeRequest (messages : list RequestMessage) (s : State)
    : State * (Response + JsError) :=
  let round := script (requests s) in
  await (request round) (issue messages s).

(** [window.electron.mcp.callTool({client, name, args})]: the Tool Host of
    the round is handed these three values and no signal. *)
Definition callTool (client name : option string) (args : JsValue) (host : ToolAwait)
    (s : State) : State * (JsValue + JsError) :=
  let s := emit (EvCallTool client name args) s in
  let s := if abortDuringTool host then abort s else s in
  (s, toolSettles host).

(** The [try] block of [chat]; [self] is the recursive [this.chat].
    The result carries the local [reply] as the handler will see it. *)
Definition tryBlock (self : list RequestMessage -> State -> option State)
    (messages : list RequestMessage) (s : State) : option (State * string * Exit) :=
  let reply := "" in
  let round := script (requests s) in
  match makeRequest messages s with
  | (s, inr e) => Some (s, reply, Thrown e)
  | (s, inl response) =>
    if negb (status response =? 200) then
      if match contentType response with
         | Some ct => includes "application/json" ct
         | None => false
         end
      then match await (json response) s with
           | (s, inr e) => Some (s, reply, Thrown e)
           | (s, inl j) => Some (s, reply, Thrown (raiseError (status response) (Some j) None))
           end
      else match await (text response) s with
           | (s, inr e) => Some (s, reply, Thrown e)
           | (s, inl msg) => Some (s, reply, Thrown (raiseError (status response) None (Some msg)))
           end
    else
    match body response with
    | None => Some (emit (EvError (Error "No reader") false) s, reply, Returned)
    | Some stream =>
      let '(s, reply) := drain (events stream) s reply in
      match await (finish stream) s with
      | (s, inr e) => Some (s, reply, Thrown e)
      | (s, inl readResult) =>
        let s := addTokens readResult s in
        match rr_tool readResult with
        | Some tool =>
          let '(client, name) := ToolName.destructure (tool_name tool) in
          match callTool client name (tool_args tool) (toolHost round) s with
          | (s, inr e) => Some (s, reply, Thrown e)
          | (s, inl toolCallsResult) =>
            let newToolCall := {| name := tool_name tool;
                                  args := tool_args tool;
                                  response := toolCallsResult |} in
            let s := set_toolCalls (toolCallsWithResponses s ++ [newToolCall]) s in
            let _messages := messages ++ makeToolMessages tool toolCallsResult in
            match self _messages s with
            | None => None
            | Some s => Some (s, reply, Fallthrough)
            end
          end
        | None =>
          let allToolCalls := toolCallsWithResponses s ++ default [] (rr_toolCalls readResult) in
          let s := emit (EvComplete {| reply_content := reply;
                                       toolCalls := allToolCalls;
                                       inputTokens := svc_inputTokens s;
                                       outputTokens := svc_outputTokens s;
                                       error := rr_error readResult |}) s in
          Some (set_tokens 0 0 s, reply, Fallthrough)
        end
      end
    end
  end.

(** The body of [chat]. *)
Definition chatBody (self : list RequestMessage -> State -> option State)
    (messages : list RequestMessage) (s : State) : option State :=
  let s := set_depth Entered (currentRecursionDepth s) s in
  let s := if currentRecursionDepth s =? 0 then set_toolCalls [] s else s in
  if MAX_RECURSION_DEPTH <=? currentRecursionDepth s then
    Some (emit (EvComplete (ceilingOutcome s)) s)
  else
    let s := set_depth Incremented (currentRecursionDepth s + 1) s in
    let s := newAbortController s in
    let signal := abortController s in
    match tryBlock self messages s with
    | None => None
    | Some (s, reply, exit) =>
      let s := match exit with
               | Thrown e =>
                 let s := emit (EvError e (signal_aborted signal s)) s in
                 let s := emit (EvComplete (catchOutcome reply e s)) s in
                 set_tokens 0 0 s
               | Fallthrough | Returned => s
               end in
      Some (set_depth Decremented (currentRecursionDepth s - 1) s)
    end.

(** [chat], by the number of nested entries still allowed; [None] when
    that number is used up. *)
Fixpoint chat_fuel (fuel : nat) (messages : list RequestMessage) (s : State)
    : option State :=
  match fuel with
  | O => None
  | S fuel' => chatBody (chat_fuel fuel') messages s
  end.

(** Every entry below the ceiling raises the depth by one, so this many
    entries always suffice ([chat_returns]). *)
Definition enough (s : State) : nat :=
  S (Z.to_nat (MAX_RECURSION_DEPTH - currentRecursionDepth s)).

Definition chat (messages : list RequestMessage) (s : State) : option State :=
  chat_fuel (enough s) messages s.

(** The text [chat] holds when a stream has been drained. *)
Definition textOf (stream : Stream) : string := "" +:+ progress (events stream).

(** The accumulated list as an entry sees it after the top-level reset. *)
Definition carried (s : State) : list IToolCall :=
  if currentRecursionDepth s =? 0 then [] else toolCallsWithResponses s.

(** ** Derived notions: the shapes of a round *)

(** A round that yields a pending tool call whose execution returns a
    value (whatever the value says): the response is a 200 with a body,
    the reader returns, the result names a tool, the Tool Host resolves. *)
Definition toolRound (r : Round) : option (Stream * ReadResult * ITool * JsValue) :=
  match request r with
  | Resolves resp =>
      if status resp =? 200 then
        match body resp with
        | Some stream =>
            match finish stream with
            | Resolves rr =>
                match rr_tool rr, toolSettles (toolHost r) with
                | Some t, inl v => Some (stream, rr, t, v)
                | _, _ => None
                end
            | _ => None
            end
        | None => None
        end
      else None
  | _ => None
  end.

(** A round whose result has no pending tool call. *)
Definition finalRound (r : Round) : option (Stream * ReadResult) :=
  match request r with
  | Resolves resp =>
      if status resp =? 200 then
        match body resp with
        | Some stream =>
            match finish stream with
            | Resolves rr =>
                match rr_tool rr with
                | None => Some (stream, rr)
                | Some _ => None
                end
            | _ => None
            end
        | None => None
        end
      else None
  | _ => None
  end.

(** A round answered by a 200 without a body. *)
Definition readerlessRound (r : Round) : bool :=
  match request r with
  | Resolves resp =>
      (status resp =? 200) && match body resp with None => true | Some _ => false end
  | _ => false
  end.

(** [abort()] is called while the request or the stream of the round is
    awaited; the value is the text read until then. *)
Definition abortedRound (r : Round) : option string :=
  match request r with
  | Aborted => Some ""
  | Resolves resp =>
      if status resp =? 200 then
        match body resp with
        | Some stream =>
            match finish stream with
            | Aborted => Some (textOf stream)
            | _ => None
            end
        | None => None
        end
      else None
  | Rejects _ => None
  end.

(** What [chat] decodes of a response that is not a 200: the JSON body when
    the content type names [application/json], the text otherwise.  The pair
    is what [raiseError] is given as [json] and [msg]. *)
Definition errorBody (resp : Response) : Await (option JsValue * option string) :=
  if match contentType resp with
     | Some ct => includes "application/json" ct
     | None => false
     end
  then match json resp with
       | Resolves j => Resolves (Some j, None)
       | Rejects e => Rejects e
       | Aborted => Aborted
       end
  else match text resp with
       | Resolves msg => Resolves (None, Some msg)
       | Rejects e => Rejects e
       | Aborted => Aborted
       end.

(** The record [chat] appends for a tool call. *)
Definition newToolCall (t : ITool) (v : JsValue) : IToolCall :=
  {| name := tool_name t; args := tool_args t; response := v |}.

(** The state in which a tool round re-enters [chat]. *)
Definition afterTool (messages : list RequestMessage) (stream : Stream)
    (rr : ReadResult) (t : ITool) (v : JsValue) (abortCalled : bool) (s : State) : State :=
  let s := set_depth Entered (currentRecursionDepth s) s in
  let s := if currentRecursionDepth s =? 0 then set_toolCalls [] s else s in
  let s := set_depth Incremented (currentRecursionDepth s + 1) s in
  let s := newAbortController s in
  let s := issue messages s in
  let s := emits (map callbackEvent (events stream)) s in
  let s := addTokens rr s in
  let s := emit (EvCallTool (fst (ToolName.destructure (tool_name t)))
                            (snd (ToolName.destructure (tool_name t)))
                            (tool_args t)) s in
  let s := if abortCalled then abort s else s in
  set_toolCalls (toolCallsWithResponses s ++ [newToolCall t v]) s.

(** The [finally] block. *)
Definition unwind (s : State) : State :=
  set_depth Decremented (currentRecursionDepth s - 1) s.

(** The exits of [n] nested entries. *)
Definition unwinds (n : nat) (s : State) : State := Nat.iter n unwind s.

(** [n] tool rounds in a row: the messages and the state of the entry
    that follows them. *)
Fixpoint chain (n : nat) (messages : list RequestMessage) (s : State)
    : list RequestMessage * State :=
  match n with
  | O => (messages, s)
  | S n' =>
      match toolRound (script (requests s)) with
      | Some (stream, rr, t, v) =>
          chain n' (messages ++ makeToolMessages t v)
                (afterTool messages stream rr t v
                           (abortDuringTool (toolHost (script (requests s)))) s)
      | None => (messages, s)
      end
  end.

(** The input and output tokens that [n] tool rounds report, from the
    [k]-th request on. *)
Fixpoint reportedBy (n k : nat) : Z * Z :=
  match n with
  | O => (0, 0)
  | S n' =>
      let here := match toolRound (script k) with
                  | Some (_, rr, _, _) =>
                      (default 0 (rr_inputTokens rr), default 0 (rr_outputTokens rr))
                  | None => (0, 0)
                  end in
      (fst here + fst (reportedBy n' (S k)), snd here + snd (reportedBy n' (S k)))
  end.

End Orchestrator.

(** ** The properties as the specification words them *)

(** "decremented exactly once per entry": in what an invocation adds to
    the log there are as many decrements as entries. *)
Definition decremented_once_per_entry (before after : State) : Prop :=
  (count (isOp Decremented) (depthLog after) - count (isOp Decremented) (depthLog before)
   = count (isOp Entered) (depthLog after) - count (isOp Entered) (depthLog before))%nat.

(** "one completion per top-level call": the invocation adds exactly one
    completion callback to the trace. *)
Definition completes_once (before after : State) : Prop :=
  (count isComplete (trace after) = count isComplete (trace before) + 1)%nat.

(** "counters reset after the outcome is emitted". *)
Definition counters_reset (after : State) : Prop :=
  svc_inputTokens after = 0 /\ svc_outputTokens after = 0.

(** "readiness is checked before the request": a service that is not ready
    issues no network request. *)
Definition fails_fast (before after : State) : Prop :=
  isReady before = false -> requests after = requests before.

(** "once the token is cancelled no awaited operation continues": when the
    controller of the invocation's first round-trip ends up aborted, that
    round-trip was the last one and the error callback saw the abort. *)
Definition cancellation_honoured (before after : State) : Prop :=
  controllers after !! length (controllers before) = Some true ->
  requests after = S (requests before)
  /\ exists e, In (EvError e true) (trace after).

End Chat.

(* ===================================================================== *)
(** * The chat store *)
(* ===================================================================== *)

Module Store.

(** A message object: its own properties.  [get k m] is [m.k]. *)
Abbreviation Row := (gmap string JsValue).

Definition get (k : string) (m : Row) : JsValue := default JUndefined (m !! k).

(** [a === b] on the primitive values the store compares (identifiers,
    flags); arrays and objects compare by reference and never meet here. *)
Definition strictEq (a b : JsValue) : bool :=
  match a, b with
  | JUndefined, JUndefined | JNull, JNull => true
  | JBool x, JBool y => Bool.eqb x y
  | JNum x, JNum y => x =? y
  | JStr x, JStr y => String.eqb x y
  | _, _ => false
  end.

(** lodash [isNumber] *)
Definition isNumber (v : JsValue) : bool :=
  match v with JNum _ => true | _ => false end.

(** [a || b] *)
Definition or_else (a b : JsValue) : JsValue := if truthy a then a else b.

(** [l.findIndex(p)]; [None] is [-1]. *)
Fixpoint findIndex {A : Type} (p : A -> bool) (l : list A) : option nat :=
  match l with
  | [] => None
  | x :: l' => if p x then Some 0%nat else S <$> findIndex p l'
  end.

(** The slice of the store the messages live in. *)
Record StoreState : Type := { messages : list Row }.

Section WithPlatform.

(** [JSON.parse]; [None] when it throws. *)
Variable JSON_parse : string -> option JsValue.
(** [JSON.stringify] *)
Variable JSON_stringify : JsValue -> string.
(** [tempChatId] of [consts], [isBlank] and [isNotBlank] of
    [utils/validators]: declared outside the files at hand. *)
Variable tempChatId : string.
Variable isBlank : JsValue -> bool.
Variable isNotBlank : JsValue -> bool.

(** [processMessage]; the argument is [None] for a null or undefined
    message. *)
Definition processMessage (message : option Row) : Row :=
  match message with
  | None =>
      {[ "id" := JStr ""; "chatId" := JStr ""; "toolCalls" := JArr [];
         "severity" := JStr "info" ]}
  | Some message =>
      let toolCalls :=
        if negb (isNil (get "toolCalls" message)) then
          match get "toolCalls" message with
          | JStr str =>
              match JSON_parse str with
              | Some parsed => if isArray parsed then parsed else JArr []
              | None => JArr []
              end
          | v => if isArray v then v else JArr []
          end
        else JArr [] in
      <["toolCalls" := toolCalls]> message
  end.

(** [createMessage]; [msgId] and [createdAt] are what [typeid] and the
    clock give, [inserted] tells whether the INSERT settles (otherwise
    the call throws and exposes nothing). *)
Definition createMessage (msgId : string) (createdAt : Z) (inserted : bool)
    (message : Row) (st : StoreState) : StoreState * option Row :=
  let dbMessage :=
    <["createdAt" := JNum createdAt]>
      (<["toolCalls" := JStr (if truthy (get "toolCalls" message)
                              then JSON_stringify (get "toolCalls" message)
                              else "[]")]>
         (<["id" := JStr msgId]> message)) in
  if inserted then
    let processedMsg := processMessage (Some dbMessage) in
    ({| messages := messages st ++ [processedMsg] |}, Some processedMsg)
  else (st, None).

(** One [if (cond) { stats.push(col); msg[k] = v; }] of [updateMessage]. *)
Definition assign (cond : bool) (k : string) (v : JsValue)
    (acc : Row * list string) : Row * list string :=
  if cond then (<[k := v]> (fst acc), snd acc ++ [k +:+ " = ?"]) else acc.

(** [updateMessage]; [result] is what the UPDATE resolves to. *)
Definition updateMessage (message : Row) (result : bool) (st : StoreState)
    : StoreState * bool :=
  let currentMessage :=
    List.find (fun m => strictEq (get "id" m) (get "id" message)) (messages st) in
  let current (k : string) : JsValue :=
    match currentMessage with Some m => get k m | None => JUndefined end in
  let acc : Row * list string := ({[ "id" := get "id" message ]}, []) in
  let acc := assign (negb (isNil (get "reply" message))) "reply"
                    (or_else (current "reply") (get "reply" message)) acc in
  let acc := assign (isNotBlank (get "prompt" message)) "prompt" (get "prompt" message) acc in
  let acc := assign (isNotBlank (get "model" message)) "model" (get "model" message) acc in
  let acc := assign (isNumber (get "temperature" message)) "temperature"
                    (get "temperature" message) acc in
  let acc := assign (isNumber (get "inputTokens" message)) "inputTokens"
                    (get "inputTokens" message) acc in
  let acc := assign (isNumber (get "outputTokens" message)) "outputTokens"
                    (get "outputTokens" message) acc in
  let acc := assign (negb (isNil (get "memo" message))) "memo" (get "memo" message) acc in
  let acc := assign (negb (isNil (get "toolCalls" message))) "toolCalls"
                    (if isArray (get "toolCalls" message)
                     then JStr (JSON_stringify (get "toolCalls" message))
                     else get "toolCalls" message) acc in
  let acc :=
    let toolCalls := or_else (get "toolCalls" message)
                             (or_else (current "toolCalls") (JArr [])) in
    let hasToolCalls := match toolCalls with
                        | JArr (_ :: _) => true
                        | _ => false
                        end in
    let shouldBeActive := hasToolCalls || strictEq (get "isActive" message) (JNum 1) in
    assign (negb (isNil (get "isActive" message))) "isActive"
           (JNum (if shouldBeActive then 1 else 0)) acc in
  let acc := assign (negb (isBlank (get "citedFiles" message))) "citedFiles"
                    (get "citedFiles" message) acc in
  let acc := assign (negb (isBlank (get "citedChunks" message))) "citedChunks"
                    (get "citedChunks" message) acc in
  let '(msg, stats) := acc in
  if truthy (get "id" message) && negb (Nat.eqb (length stats) 0) then
    if result then
      match findIndex (fun m => strictEq (get "id" m) (get "id" msg)) (messages st) with
      | Some index =>
          match messages st !! index with
          | Some currentMessage =>
              let updatedMessage := processMessage (Some (msg ∪ currentMessage)) in
              ({| messages := <[index := updatedMessage]> (messages st) |}, result)
          | None => (st, result)
          end
      | None => (st, result)
      end
    else (st, result)
  else (st, false).

(** [fetchMessages]; [rows] is what [db.all] resolves to, [None] when it
    rejects. *)
Definition fetchMessages (chatId : string) (rows : option (list Row))
    (st : StoreState) : StoreState * list Row :=
  if String.eqb chatId tempChatId then ({| messages := [] |}, [])
  else
    match rows with
    | Some messages =>
        let processedMessages :=
          map (fun msg => if truthy (get "toolCalls" msg)
                          then processMessage (Some msg)
                          else <["toolCalls" := JArr []]> msg) messages in
        ({| messages := processedMessages |}, processedMessages)
    | None => (st, [])
    end.

(** The specification's wording of what a consumer finds in [toolCalls]:
    a JSON string is parsed; null, undefined, unparseable and non-array
    values become the empty array. *)
Definition normalized (v : JsValue) : JsValue :=
  match v with
  | JArr items => JArr items
  | JStr str =>
      match JSON_parse str with
      | Some (JArr items) => JArr items
      | _ => JArr []
      end
  | _ => JArr []
  end.

End WithPlatform.

(** ** The other operations on the messages *)

(** [msg.id === id] *)
Definition hasId (id : string) (msg : Row) : bool := strictEq (get "id" msg) (JStr id).

Section Replies.

(** The text a value that is not a string turns into, in a template
    literal or as a property key. *)
Variable toText : JsValue -> string.

(** [`${v}`] *)
Definition template (v : JsValue) : string :=
  match v with
  | JStr s => s
  | _ => toText v
  end.

(** [appendReply]: the first message with the id gets the chunk appended to
    its reply; the result is the reply as it stands, [''] when there is no
    such message. *)
Definition appendReply (msgId reply : string) (st : StoreState) : StoreState * string :=
  match findIndex (hasId msgId) (messages st) with
  | Some index =>
      match messages st !! index with
      | Some message =>
          let _reply := if truthy (get "reply" message)
                        then template (get "reply" message) +:+ reply
                        else reply in
          ({| messages := <[index := <["reply" := JStr _reply]> message]> (messages st) |},
           _reply)
      | None => (st, "")
      end
  | None => (st, "")
  end.

End Replies.

(** [deleteMessage]; [ok] is what the DELETE resolves to; [None] when the
    call throws. *)
Definition deleteMessage (id : string) (ok : bool) (st : StoreState)
    : option (StoreState * bool) :=
  if negb ok then None
  else
    match findIndex (hasId id) (messages st) with
    | Some index => Some ({| messages := delete index (messages st) |}, true)
    | None => Some (st, true)
    end.

(** ** The query of [fetchMessages] *)

Definition newline : string := String (ascii_of_nat 10) "".

(** [Math.max(1, Math.min(Number(limit) || 100, 1000))] *)
Definition sanitizedLimit (limit : Z) : Z :=
  Z.max 1 (Z.min (if limit =? 0 then 100 else limit) 1000).

(** [Math.max(0, Number(offset) || 0)] *)
Definition sanitizedOffset (offset : Z) : Z :=
  Z.max 0 (if offset =? 0 then 0 else offset).

Definition selectMessages : string :=
  "SELECT messages.*, bookmarks.id bookmarkId" +:+ newline +:+
  "    FROM messages" +:+ newline +:+
  "    LEFT JOIN bookmarks ON bookmarks.msgId = messages.id" +:+ newline +:+
  "    WHERE messages.chatId = ?".

Definition keywordClause : string :=
  " AND (messages.prompt LIKE ? COLLATE NOCASE OR messages.reply LIKE ? COLLATE NOCASE)".

Definition orderClause : string := " ORDER BY messages.createdAt ASC LIMIT ? OFFSET ?".

Section Query.

(** [String.prototype.trim] *)
Variable trim : string -> string.

(** The statement and the parameters [fetchMessages] hands to [db.all]. *)
Definition fetchQuery (chatId : string) (limit offset : Z) (keyword : string)
    : string * list JsValue :=
  let sql := selectMessages in
  let params := [JStr chatId] in
  let '(sql, params) :=
    if negb (String.eqb keyword "") && negb (String.eqb (trim keyword) "") then
      let trimmedKeyword := trim keyword in
      (sql +:+ keywordClause,
       params ++ [JStr ("%" +:+ trimmedKeyword +:+ "%"); JStr ("%" +:+ trimmedKeyword +:+ "%")])
    else (sql, params) in
  (sql +:+ orderClause,
   params ++ [JNum (sanitizedLimit limit); JNum (sanitizedOffset offset)]).

End Query.

(** The placeholders of a statement. *)
Fixpoint placeholders (sql : string) : nat :=
  match sql with
  | EmptyString => 0%nat
  | String c rest => ((if Ascii.eqb c "?" then 1 else 0) + placeholders rest)%nat
  end.

(** ** The chat in hand and the per-chat slots *)

Record Session : Type := {
  chat : Row;
  keywords : gmap string string;
  states : gmap string Row
}.

Section Slots.

Variable toText : JsValue -> string.

(** [chat.id] as a property key. *)
Definition chatKey (c : Row) : string := template toText (get "id" c).

(** [updateStates]: [Object.assign(state.states[chatId] || {}, states)] *)
Definition updateStates (chatId : string) (update : Row) (s : Session) : Session :=
  {| chat := chat s; keywords := keywords s;
     states := <[chatId := update ∪ default ∅ (states s !! chatId)]> (states s) |}.

(** [getCurState]: [states[chat.id] || {}] *)
Definition getCurState (s : Session) : Row :=
  default ∅ (states s !! chatKey (chat s)).

(** [getKeyword]: [keywords[chatId] || ''] *)
Definition getKeyword (chatId : string) (s : Session) : string :=
  match keywords s !! chatId with
  | Some k => if String.eqb k "" then "" else k
  | None => ""
  end.

(** [setKeyword] *)
Definition setKeyword (chatId keyword : string) (s : Session) : Session :=
  {| chat := chat s; keywords := <[chatId := keyword]> (keywords s); states := states s |}.

End Slots.

Section UpdateFields.

Variable JSON_stringify : JsValue -> string.
Variable isBlank : JsValue -> bool.
Variable isNotBlank : JsValue -> bool.

(** The row and the columns [updateMessage] collects for the UPDATE, from
    the given message and the message of that id in the state. *)
Definition updateFields (message : Row) (currentMessage : option Row) : Row * list string :=
  let current (k : string) : JsValue :=
    match currentMessage with Some m => get k m | None => JUndefined end in
  let acc : Row * list string := ({[ "id" := get "id" message ]}, []) in
  let acc := assign (negb (isNil (get "reply" message))) "reply"
                    (or_else (current "reply") (get "reply" message)) acc in
  let acc := assign (isNotBlank (get "prompt" message)) "prompt" (get "prompt" message) acc in
  let acc := assign (isNotBlank (get "model" message)) "model" (get "model" message) acc in
  let acc := assign (isNumber (get "temperature" message)) "temperature"
                    (get "temperature" message) acc in
  let acc := assign (isNumber (get "inputTokens" message)) "inputTokens"
                    (get "inputTokens" message) acc in
  let acc := assign (isNumber (get "outputTokens" message)) "outputTokens"
                    (get "outputTokens" message) acc in
  let acc := assign (negb (isNil (get "memo" message))) "memo" (get "memo" message) acc in
  let acc := assign (negb (isNil (get "toolCalls" message))) "toolCalls"
                    (if isArray (get "toolCalls" message)
                     then JStr (JSON_stringify (get "toolCalls" message))
                     else get "toolCalls" message) acc in
  let acc :=
    let toolCalls := or_else (get "toolCalls" message)
                             (or_else (current "toolCalls") (JArr [])) in
    let hasToolCalls := match toolCalls with
                        | JArr (_ :: _) => true
                        | _ => false
                        end in
    let shouldBeActive := hasToolCalls || strictEq (get "isActive" message) (JNum 1) in
    assign (negb (isNil (get "isActive" message))) "isActive"
           (JNum (if shouldBeActive then 1 else 0)) acc in
  let acc := assign (negb (isBlank (get "citedFiles" message))) "citedFiles"
                    (get "citedFiles" message) acc in
  let acc := assign (negb (isBlank (get "citedChunks" message))) "citedChunks"
                    (get "citedChunks" message) acc in
  acc.

End UpdateFields.

End Store.

(* ===================================================================== *)
(** * The default completion callback (NextCharService.ts, constructor) *)
(* ===================================================================== *)

Module Completion.
Import Chat.

(** An [IToolCall] as the object it is. *)
Definition toolCallObject (tc : IToolCall) : JsValue :=
  JObj [("name", JStr (name tc)); ("args", args tc); ("response", response tc)].

(** The message the default [onCompleteCallback] hands to
    [context.updateMessage]; [None] when [context.getMessageId()] gives
    nothing and the callback returns without an update. *)
Definition completedMessage (messageId : string) (result : ChatResponseMessage)
    : option Store.Row :=
  if String.eqb messageId "" then None
  else Some {[ "id" := JStr messageId;
               "reply" := JStr (reply_content result);
               "toolCalls" := JArr (map toolCallObject (toolCalls result));
               "inputTokens" := JNum (inputTokens result);
               "outputTokens" := JNum (outputTokens result);
               "isActive" := JNum (if (0 <? length (toolCalls result))%nat then 1 else 0) ]}.

End Completion.

(* ===================================================================== *)
(** * The tool calls of a message on the page (the [Message] component
      that part_000 holds, and ToolCallDisplay.tsx) *)
(* ===================================================================== *)

Module Display.

Section Rendering.

Variable JSON_parse : string -> option JsValue.
(** [String.prototype.trim] *)
Variable trim : string -> string.

(** [v.k] for an own property of an object; arrays and primitives have
    none of the names asked for here. *)
Definition prop (k : string) (v : JsValue) : JsValue :=
  match v with
  | JObj fields =>
      match List.find (fun kv => String.eqb (fst kv) k) fields with
      | Some kv => snd kv
      | None => JUndefined
      end
  | _ => JUndefined
  end.

(** The [toolCalls] memo of [Message]: what [JSON.parse] gives is passed
    on as it is. *)
Definition memoToolCalls (message : Store.Row) : JsValue :=
  if negb (truthy (Store.get "toolCalls" message)) then JArr []
  else
    match Store.get "toolCalls" message with
    | JStr str =>
        match JSON_parse str with
        | Some parsed => parsed
        | None => JArr []
        end
    | JArr items => JArr items
    | _ => JArr []
    end.

(** One accordion item: the name in the header, the arguments, and the
    response when it is truthy. *)
Record Item : Type := {
  title : string;
  query : JsValue;
  answer : option JsValue
}.

(** [tc && typeof tc === 'object' && typeof tc.name === 'string' &&
    tc.name.trim() !== ''] *)
Definition isValidCall (tc : JsValue) : bool :=
  truthy tc
  && match tc with JObj _ | JArr _ | JNull => true | _ => false end
  && match prop "name" tc with
     | JStr n => negb (String.eqb (trim n) "")
     | _ => false
     end.

Definition accordionItem (tc : JsValue) : Item :=
  {| title := match prop "name" tc with JStr n => n | _ => "" end;
     query := prop "args" tc;
     answer := if truthy (prop "response" tc) then Some (prop "response" tc) else None |}.

(** [ToolCallDisplay]; [None] is [null]. *)
Definition ToolCallDisplay (toolCalls : JsValue) : option (list Item) :=
  match toolCalls with
  | JArr (tc :: tcs) =>
      match List.filter isValidCall (tc :: tcs) with
      | [] => None
      | validToolCalls => Some (map accordionItem validToolCalls)
      end
  | _ => None
  end.

(** What [Message] makes of the tool calls. *)
Inductive Rendered : Type :=
| Throws
| Renders (panel : option (list Item)).

(** [toolCalls.length > 0 && <ToolCallDisplay toolCalls={toolCalls} />]:
    reading [length] of null or undefined throws; a value without a
    length compares false. *)
Definition toolCallPanel (message : Store.Row) : Rendered :=
  match memoToolCalls message with
  | JUndefined | JNull => Throws
  | JArr items =>
      Renders (if (0 <? length items)%nat then ToolCallDisplay (JArr items) else None)
  | JStr str =>
      Renders (if (0 <? String.length str)%nat then ToolCallDisplay (JStr str) else None)
  | JObj fields =>
      Renders (match prop "length" (JObj fields) with
               | JNum n => if 0 <? n then ToolCallDisplay (JObj fields) else None
               | _ => None
               end)
  | JBool _ | JNum _ => Renders None
  end.

End Rendering.

End Display.

(* ===================================================================== *)
(** * Loading a document (part_001: [loadDocument]) *)
(* ===================================================================== *)

Module Loader.

(** A string is its UTF-16 code units: the regular expressions of
    [loadDocument] have no [u] flag. *)
Abbreviation Text := (list N).

Definition LF : N := 10.
Definition CR : N := 13.
Definition SP : N := 32.

(** [\s], which is also what [trim] removes: WhiteSpace and
    LineTerminator of ECMAScript. *)
Definition isWhiteSpace (c : N) : bool :=
  ((c =? 9) || (c =? 10) || (c =? 11) || (c =? 12) || (c =? 13) || (c =? 32)
   || (c =? 160) || (c =? 5760) || ((8192 <=? c) && (c <=? 8202))
   || (c =? 8232) || (c =? 8233) || (c =? 8239) || (c =? 8287)
   || (c =? 12288) || (c =? 65279))%N.

Definition isSpace (c : N) : bool := (c =? SP)%N.

(** [s.replace(/X+/g, ' ')] where [X] matches one code unit: every
    maximal run of matching units becomes one space.  [inRun] tells that the
    unit before belonged to a run. *)
Fixpoint squeeze (p : N -> bool) (inRun : bool) (s : Text) : Text :=
  match s with
  | [] => []
  | c :: s' =>
      if p c then (if inRun then squeeze p true s' else SP :: squeeze p true s')
      else c :: squeeze p false s'
  end.

Fixpoint starts (pattern s : Text) : bool :=
  match pattern, s with
  | [], _ => true
  | _ :: _, [] => false
  | a :: pattern', c :: s' => (a =? c)%N && starts pattern' s'
  end.

(** The length of the match of [/\r?\n\r?\n/] at the start of [s]; both
    [\r?] are greedy and no shorter alternative can succeed where the
    longer fails. *)
Definition separator (s : Text) : option nat :=
  if starts [CR; LF; CR; LF] s then Some 4%nat
  else if starts [CR; LF; LF] s then Some 3%nat
  else if starts [LF; CR; LF] s then Some 3%nat
  else if starts [LF; LF] s then Some 2%nat
  else None.

(** [s.split(/\r?\n\r?\n/)]; [skip] units of a separator are still to be
    passed over.  The result is never empty. *)
Fixpoint split_at (skip : nat) (s : Text) : list Text :=
  match s with
  | [] => [[]]
  | c :: s' =>
      match skip with
      | S k => split_at k s'
      | O =>
          match separator s with
          | Some n => [] :: split_at (n - 1) s'
          | None =>
              match split_at 0 s' with
              | p :: ps => (c :: p) :: ps
              | [] => [[c]]
              end
          end
      end
  end.

Fixpoint trimStart (s : Text) : Text :=
  match s with
  | [] => []
  | c :: s' => if isWhiteSpace c then trimStart s' else s
  end.

(** [s.trim()] *)
Definition trim (s : Text) : Text := rev (trimStart (rev (trimStart s))).

(** [parts.join(sep)] *)
Fixpoint join (sep : Text) (parts : list Text) : Text :=
  match parts with
  | [] => []
  | p :: rest =>
      match rest with
      | [] => p
      | _ :: _ => p ++ sep ++ join sep rest
      end
  end.

(** What [loadDocument] makes of the text a loader has read. *)
Definition paragraphs (result : Text) : list Text :=
  List.filter (fun i => match trim i with [] => false | _ :: _ => true end)
              (map (squeeze isWhiteSpace false) (split_at 0 (squeeze isSpace false result))).

Definition normalize (result : Text) : Text := join [CR; LF; CR; LF] (paragraphs result).

(** Nothing is left to squeeze: every unit matching [p] is a space that
    does not follow another matching unit ([prev] tells whether the unit
    before matched). *)
Fixpoint tidy (p : N -> bool) (prev : bool) (s : Text) : bool :=
  match s with
  | [] => true
  | c :: s' =>
      if p c then negb prev && (c =? SP)%N && tidy p true s'
      else tidy p false s'
  end.

(** What is left of a text when the white space is taken out. *)
Definition visible (s : Text) : Text := List.filter (fun c => negb (isWhiteSpace c)) s.

Inductive LoaderKind : Type := TextDocumentLoader | PdfLoader | OfficeLoader.

(** The [switch] over the file type. *)
Definition loaderFor (fileType : string) : option LoaderKind :=
  if String.eqb fileType "txt" then Some TextDocumentLoader
  else if String.eqb fileType "md" then Some TextDocumentLoader
  else if String.eqb fileType "csv" then Some TextDocumentLoader
  else if String.eqb fileType "pdf" then Some PdfLoader
  else if String.eqb fileType "docx" then Some OfficeLoader
  else if String.eqb fileType "pptx" then Some OfficeLoader
  else if String.eqb fileType "xlsx" then Some OfficeLoader
  else None.

Section Loading.

(** [loader.load(filePath)] of the three loaders: the text of the file,
    or the error the promise rejects with. *)
Variable load : LoaderKind -> string -> Text + JsError.

(** [loadDocument]; [inr] is the error thrown. *)
Definition loadDocument (filePath fileType : string) : Text + JsError :=
  match loaderFor fileType with
  | None => inr (Error ("Miss Loader for: " +:+ fileType))
  | Some Loader =>
      match load Loader filePath with
      | inl result => inl (normalize result)
      | inr e => inr e
      end
  end.

End Loading.

End Loader.

(* ===================================================================== *)
(** * Sample inputs *)
(* ===================================================================== *)

Module Sample.
Import Chat.

Definition toolMessages (t : ITool) (v : JsValue) : list RequestMessage :=
  [ {| role := "tool"; content := v |} ].

Definition httpError (status : Z) (json : option JsValue) (msg : option string) : JsError :=
  {| err_code := Some status; err_message := msg; err_toString := "Error" |}.

Definition abortError : JsError :=
  {| err_code := Some 20;
     err_message := Some "The user aborted a request.";
     err_toString := "AbortError: The user aborted a request." |}.

Definition settings : ApiSettings :=
  {| base := Some "https://api.moonshot.cn"; key := Some "sk-1"; model := Some "moonshot-v1-8k" |}.

(** The credential is not set. *)
Definition keyless : ApiSettings :=
  {| base := Some "https://api.moonshot.cn"; key := None; model := Some "moonshot-v1-8k" |}.

Definition schema : list string := ["base"; "key"; "model"].

Definition service : State := fresh schema settings.

Definition hello : list RequestMessage := [ {| role := "user"; content := JStr "hello" |} ].

(** A value with which the Tool Host reports a failed execution. *)
Definition failure : JsValue :=
  JObj [("isError", JBool true); ("content", JStr "no such file")].

Definition T1 : ITool := {| tool_name := "fs--read"; tool_args := JStr "a.txt" |}.
Definition T2 : ITool := {| tool_name := "web--fetch"; tool_args := JStr "http://x" |}.
Definition T3 : IToolCall := {| name := "db--query"; args := JNull; response := JNum 7 |}.

(** A 200 response whose stream carries [chunk] and ends in [result]. *)
Definition ok (chunk : string) (result : Await ReadResult) : Await Response :=
  Resolves {| status := 200; contentType := Some "text/event-stream";
              json := Rejects (Error "not json"); text := Resolves "";
              body := Some {| events := [OnProgress chunk]; finish := result |} |}.

Definition result (tool : option ITool) (finalized : option (list IToolCall))
    (tokensIn tokensOut : Z) : Await ReadResult :=
  Resolves {| rr_tool := tool; rr_toolCalls := finalized;
              rr_inputTokens := Some tokensIn; rr_outputTokens := Some tokensOut;
              rr_error := None |}.

Definition idleHost : ToolAwait := {| abortDuringTool := false; toolSettles := inl JNull |}.

(** A round that asks for [t]; the Tool Host returns [v]. *)
Definition asks (t : ITool) (v : JsValue) (tokensIn : Z) : Round :=
  {| request := ok "calling " (result (Some t) None tokensIn 2);
     toolHost := {| abortDuringTool := false; toolSettles := inl v |} |}.

(** A round that answers. *)
Definition answers (finalized : option (list IToolCall)) (tokensIn : Z) : Round :=
  {| request := ok "done" (result None finalized tokensIn 3); toolHost := idleHost |}.

(** The model asks for a tool on every round, and every execution fails. *)
Definition loop : nat -> Round := fun _ => asks T1 failure 1.

(** Ten tool rounds, then plain answers reporting five input tokens. *)
Definition loopThenAnswer : nat -> Round :=
  fun n => if (n <? 10)%nat then asks T1 failure 1 else answers None 5.

(** [T1], then [T2], then an answer that carries the finalized [T3]. *)
Definition twoTools : nat -> Round :=
  fun n => match n with
           | O => asks T1 (JStr "contents") 4
           | S O => asks T2 failure 6
           | _ => answers (Some [T3]) 1
           end.

(** The first response is a 200 without a body. *)
Definition bodiless : nat -> Round :=
  fun _ => {| request := Resolves {| status := 200; contentType := None;
                                     json := Rejects (Error "not json");
                                     text := Resolves ""; body := None |};
              toolHost := idleHost |}.

(** [abort()] is called while the first request is pending. *)
Definition abortedFetch : nat -> Round :=
  fun _ => {| request := Aborted; toolHost := idleHost |}.

(** [abort()] is called while the Tool Host runs the first round's call. *)
Definition abortedTool : nat -> Round :=
  fun n => match n with
           | O => {| request := ok "calling " (result (Some T1) None 1 2);
                     toolHost := {| abortDuringTool := true;
                                    toolSettles := inl (JStr "contents") |} |}
           | _ => answers None 1
           end.

(** A tool whose own name contains the separator. *)
Definition T4 : ITool := {| tool_name := "fs--read--file"; tool_args := JStr "a.txt" |}.

(** [T4], then an answer. *)
Definition dashed : nat -> Round :=
  fun n => match n with
           | O => asks T4 (JStr "contents") 1
           | _ => answers None 1
           end.

(** Plain answers. *)
Definition plain : nat -> Round := fun _ => answers None 1.

(** The provider refuses the credential. *)
Definition refused : nat -> Round :=
  fun _ => {| request := Resolves {| status := 401;
                                     contentType := Some "application/json; charset=utf-8";
                                     json := Resolves (JObj [("error", JStr "invalid key")]);
                                     text := Resolves ""; body := None |};
              toolHost := idleHost |}.

(** The Tool Host rejects the first round's call. *)
Definition hostDown : nat -> Round :=
  fun _ => {| request := ok "calling " (result (Some T1) None 1 2);
              toolHost := {| abortDuringTool := false;
                             toolSettles := inr (Error "host down") |} |}.

(** The stream breaks after the first chunk. *)
Definition brokenStream : nat -> Round :=
  fun _ => {| request := ok "par" (Rejects (Error "network error"));
              toolHost := idleHost |}.

(** [abort()] is called while the stream of the first response is read,
    after one chunk. *)
Definition abortedStream : nat -> Round :=
  fun _ => {| request := ok "par" Aborted; toolHost := idleHost |}.

(** The service with the credential missing. *)
Definition unready : State := fresh schema keyless.

(** A stored row whose [toolCalls] column holds text. *)
Definition row : Store.Row :=
  {[ "id" := JStr "msg_1"; "chatId" := JStr "chat_1"; "toolCalls" := JStr "[]" ]}.

(** A parser that knows the empty array only. *)
Definition parse (text : string) : option JsValue :=
  if String.eqb text "[]" then Some (JArr []) else None.

(** Text with a doubled space, a blank paragraph and two kinds of blank
    line: "Hi  " CR LF CR LF TAB CR LF LF "ok". *)
Definition reader (Loader : Loader.LoaderKind) (filePath : string) : Loader.Text + JsError :=
  inl [72; 105; 32; 32; 13; 10; 13; 10; 9; 13; 10; 10; 111; 107]%N.

(** A serialiser that knows the empty array only. *)
Definition stringify (v : JsValue) : string :=
  match v with
  | JArr [] => "[]"
  | _ => "null"
  end.

(** [isBlank] and [isNotBlank] on the values at hand. *)
Definition blank (v : JsValue) : bool :=
  match v with
  | JUndefined | JNull | JStr "" => true
  | _ => false
  end.
Definition notBlank (v : JsValue) : bool := negb (blank v).

(** A message whose reply is being streamed, and the store that holds it. *)
Definition streaming : Store.Row :=
  {[ "id" := JStr "msg_1"; "chatId" := JStr "chat_1"; "reply" := JStr "Hel";
     "toolCalls" := JArr [JObj [("name", JStr "fs--read")]] ]}.

Definition stored : Store.StoreState := {| Store.messages := [streaming] |}.

(** An update that closes the streamed message: the full reply, and the
    request to deactivate it. *)
Definition closing : Store.Row :=
  {[ "id" := JStr "msg_1"; "reply" := JStr "Hello"; "isActive" := JNum 0 ]}.

(** A message that comes with the call [T3] already made. *)
Definition called : Store.Row :=
  {[ "chatId" := JStr "chat_1"; "prompt" := JStr "count the rows";
     "toolCalls" := JArr [JObj [("name", JStr "db--query"); ("args", JNull);
                                ("response", JNum 7)]] ]}.

(** The message the chat page creates before the reply arrives. *)
Definition draft : Store.Row :=
  {[ "chatId" := JStr "chat_1"; "prompt" := JStr "hello"; "toolCalls" := JArr [] ]}.

(** The completion of a chain that ran [T3]. *)
Definition completion : ChatResponseMessage :=
  {| reply_content := "Hello"; toolCalls := [T3]; inputTokens := 5; outputTokens := 3;
     error := None |}.

(** A serialiser and a parser that agree on the two arrays at hand and on
    null. *)
Definition encode (v : JsValue) : string :=
  match v with
  | JArr [] => "[]"
  | JArr (_ :: _) => "[db--query]"
  | _ => "null"
  end.

Definition decode (text : string) : option JsValue :=
  if String.eqb text "[]" then Some (JArr [])
  else if String.eqb text "[db--query]" then Some (JArr [Completion.toolCallObject T3])
  else if String.eqb text "null" then Some JNull
  else None.

(** A [trim] that knows one blank string. *)
Definition strip (text : string) : string :=
  if String.eqb text " " then "" else text.

(** Two recorded calls; the second has a blank name and no response. *)
Definition recorded : list IToolCall :=
  [newToolCall T1 (JStr "contents"); {| name := " "; args := JNull; response := JNull |}].

Definition shown : Store.Row :=
  {[ "id" := JStr "msg_1"; "toolCalls" := JArr (map Completion.toolCallObject recorded) ]}.

(** A row whose [toolCalls] column holds the text of null. *)
Definition nullRow : Store.Row :=
  {[ "id" := JStr "msg_3"; "toolCalls" := JStr "null" ]}.

End Sample.
(* ===================================================================== *)
(** * Facts about strings and [split] *)
(* ===================================================================== *)

Section StringFacts.

Lemma append_assoc (a b c : string) : (a +:+ b) +:+ c = a +:+ (b +:+ c).
Proof.
  induction a as [|x a IH]; [reflexivity|].
  change (String x ((a +:+ b) +:+ c) = String x (a +:+ (b +:+ c))).
  by rewrite IH.
Qed.

Lemma append_empty_r (a : string) : a +:+ "" = a.
Proof.
  induction a as [|x a IH]; [reflexivity|].
  change (String x (a +:+ "") = String x a).
  by rewrite IH.
Qed.

Lemma split_from_skip (sep : string) (k : nat) :
  forall (cur s : string),
    split_from sep k cur s = split_from sep 0 cur (drop_chars k s).
Proof.
  induction k as [|k IH]; intros cur s.
  - by destruct s.
  - destruct s as [|c rest]; [reflexivity|]. simpl. apply IH.
Qed.

(** [split] cuts at the first separator and goes on splitting the rest. *)
Lemma split_from_first (sep : string) :
  sep <> "" ->
  forall (s cur : string),
    split_from sep 0 cur s =
    match ToolName.split_first sep s with
    | None => [cur +:+ s]
    | Some (a, b) => (cur +:+ a) :: split_from sep 0 "" b
    end.
Proof.
  intros Hsep. destruct sep as [|c0 sep']; [done|].
  induction s as [|c rest IH]; intros cur.
  - simpl. by rewrite append_empty_r.
  - cbn [split_from ToolName.split_first].
    destruct (String.prefix (String c0 sep') (String c rest)) eqn:Hp.
    + rewrite append_empty_r, split_from_skip. simpl. by rewrite Nat.sub_0_r.
    + rewrite IH. destruct (ToolName.split_first (String c0 sep') rest) as [[a b]|].
      * by rewrite append_assoc.
      * by rewrite append_assoc.
Qed.

Lemma split_first_step (s : string) :
  split "--" s =
  match ToolName.split_first "--" s with
  | None => [s]
  | Some (a, b) => a :: split "--" b
  end.
Proof. unfold split. by rewrite split_from_first. Qed.

(** What the destructuring yields, in terms of first occurrences: the
    client is the text before the first separator; the name is the text
    between the first separator and the next one, if there is one. *)
Lemma destructure_first (qualified : string) :
  ToolName.destructure qualified =
  match ToolName.split_first "--" qualified with
  | None => (Some qualified, None)
  | Some (client, rest) =>
      (Some client,
       Some match ToolName.split_first "--" rest with
            | None => rest
            | Some (name, _) => name
            end)
  end.
Proof.
  unfold ToolName.destructure. rewrite split_first_step.
  destruct (ToolName.split_first "--" qualified) as [[client rest]|]; [|done].
  simpl. rewrite split_first_step.
  by destruct (ToolName.split_first "--" rest) as [[name ?]|].
Qed.

(** With a single separator the destructuring is the cut at the first one. *)
Lemma destructure_single_separator (qualified client name : string) :
  ToolName.split_first "--" qualified = Some (client, name) ->
  ToolName.split_first "--" name = None ->
  ToolName.destructure qualified = (Some client, Some name).
Proof. intros H1 H2. by rewrite destructure_first, H1, H2. Qed.

End StringFacts.

(* ===================================================================== *)
(** * Facts about traces and the reader's callbacks *)
(* ===================================================================== *)

Import Chat.

Create Rewrite HintDb counts.

Section TraceFacts.

Lemma count_app {A : Type} (p : A -> bool) (l1 l2 : list A) :
  count p (l1 ++ l2) = (count p l1 + count p l2)%nat.
Proof. induction l1 as [|x l1 IH]; simpl; [done|]. rewrite IH. lia. Qed.

Lemma count_callbacks_request (evs : list ReaderEvent) :
  count isRequest (map callbackEvent evs) = 0%nat.
Proof. induction evs as [|[] evs IH]; simpl; done. Qed.

Lemma count_callbacks_complete (evs : list ReaderEvent) :
  count isComplete (map callbackEvent evs) = 0%nat.
Proof. induction evs as [|[] evs IH]; simpl; done. Qed.

Lemma count_callbacks_callTool (evs : list ReaderEvent) :
  count isCallTool (map callbackEvent evs) = 0%nat.
Proof. induction evs as [|[] evs IH]; simpl; done. Qed.

Lemma completions_app (l1 l2 : list Event) :
  completions (l1 ++ l2) = completions l1 ++ completions l2.
Proof. unfold completions. apply omap_app. Qed.

Lemma completions_callbacks (evs : list ReaderEvent) :
  completions (map callbackEvent evs) = [].
Proof. induction evs as [|[] evs IH]; simpl; done. Qed.

Lemma completions_none (l : list Event) :
  count isComplete l = 0%nat -> completions l = [].
Proof. induction l as [|[] l IH]; simpl; intros H; try done; by apply IH. Qed.

Lemma emits_emits (l1 l2 : list Event) (s : State) :
  emits l2 (emits l1 s) = emits (l1 ++ l2) s.
Proof. unfold emits; simpl. by rewrite app_assoc. Qed.

Lemma emits_nil (s : State) : emits [] s = s.
Proof. destruct s; unfold emits; simpl. by rewrite app_nil_r. Qed.

(** Draining a stream: the callbacks are traced in order, the progress
    chunks are appended to [reply], nothing else changes. *)
Lemma drain_eq (evs : list ReaderEvent) :
  forall (s : State) (reply : string),
    drain evs s reply = (emits (map callbackEvent evs) s, reply +:+ progress evs).
Proof.
  unfold drain. induction evs as [|ev evs IH]; intros s reply; simpl.
  - by rewrite emits_nil, append_empty_r.
  - destruct ev; simpl; rewrite IH; unfold emit; rewrite emits_emits; simpl; try done.
    by rewrite append_assoc.
Qed.

End TraceFacts.

#[local] Hint Rewrite @count_app count_callbacks_request count_callbacks_complete
  count_callbacks_callTool completions_app completions_callbacks : counts.

(** Open one entry of [chat] and split on every branch it can take;
    [addTokens] stays folded. *)
Ltac chat_cases :=
  unfold chatBody, tryBlock, makeRequest, callTool, await, emit, issue, abort,
    newAbortController in *;
  repeat (first [ rewrite drain_eq in * | case_match ]; simplify_eq/=; try done).

Ltac counts :=
  simpl; autorewrite with counts in *; simpl in *;
  autorewrite with counts in *; simpl in *.

(* ===================================================================== *)
(** * What every entry of [chat] guarantees *)
(* ===================================================================== *)

Section ChatInvariants.

Variable makeToolMessages : ITool -> JsValue -> list RequestMessage.
Variable raiseError : Z -> option JsValue -> option string -> JsError.
Variable AbortError : JsError.
Variable script : nat -> Round.

Local Abbreviation chat_fuel := (chat_fuel makeToolMessages raiseError AbortError script).
Local Abbreviation chat := (chat makeToolMessages raiseError AbortError script).
Local Abbreviation chain := (chain makeToolMessages script).

Local Ltac use_IH IH :=
  try match goal with
      | H : chat_fuel _ _ _ = Some _ |- _ => apply IH in H; simpl in H
      end.

(** [chat] returns: the entries nest at most as deep as the ceiling allows. *)
Lemma chat_fuel_returns (fuel : nat) :
  forall (m : list RequestMessage) (s : State),
    (Z.to_nat (MAX_RECURSION_DEPTH - currentRecursionDepth s) < fuel)%nat ->
    is_Some (chat_fuel fuel m s).
Proof.
  induction fuel as [|fuel IH]; intros m s H; [lia|].
  simpl. chat_cases.
  all: try match goal with
    | H : chat_fuel _ ?m ?s = None |- _ =>
        destruct (IH m s) as [? ?];
          [simpl; unfold MAX_RECURSION_DEPTH in *; lia | congruence]
    end.
Qed.

Lemma chat_returns (m : list RequestMessage) (s : State) : is_Some (chat m s).
Proof. apply chat_fuel_returns. unfold enough. lia. Qed.

Lemma chat_fuel_depth (fuel : nat) :
  forall (m : list RequestMessage) (s s' : State),
    chat_fuel fuel m s = Some s' ->
    currentRecursionDepth s' = currentRecursionDepth s.
Proof.
  induction fuel as [|fuel IH]; intros m s s' H; [done|].
  simpl in H. chat_cases; use_IH IH; lia.
Qed.

Lemma chat_fuel_config (fuel : nat) :
  forall (m : list RequestMessage) (s s' : State),
    chat_fuel fuel m s = Some s' ->
    apiSchema s' = apiSchema s /\ apiSettings s' = apiSettings s.
Proof.
  induction fuel as [|fuel IH]; intros m s s' H; [done|].
  simpl in H. chat_cases; use_IH IH; done.
Qed.

(** The requests of an invocation: counted, traced, and no more than the
    room left below the ceiling. *)
Lemma chat_fuel_requests (fuel : nat) :
  forall (m : list RequestMessage) (s s' : State),
    chat_fuel fuel m s = Some s' ->
    (requests s <= requests s'
       <= requests s + Z.to_nat (MAX_RECURSION_DEPTH - currentRecursionDepth s))%nat
    /\ (count isRequest (trace s') = count isRequest (trace s) + (requests s' - requests s))%nat.
Proof.
  induction fuel as [|fuel IH]; intros m s s' H; [done|].
  simpl in H.
  chat_cases; use_IH IH; counts; unfold MAX_RECURSION_DEPTH in *; try lia.
Qed.

(** The depth log of an invocation: its own entry first; below the ceiling
    one increment, the nested entries, one decrement. *)
Lemma chat_fuel_depthLog (fuel : nat) :
  forall (m : list RequestMessage) (s s' : State),
    chat_fuel fuel m s = Some s' ->
    exists ops : list DepthOp,
      depthLog s' = depthLog s ++ ops
      /\ count (isOp Incremented) ops = count (isOp Decremented) ops
      /\ if MAX_RECURSION_DEPTH <=? currentRecursionDepth s
         then ops = [Entered]
         else exists inner : list DepthOp,
             ops = [Entered; Incremented] ++ inner ++ [Decremented]
             /\ count (isOp Incremented) inner = count (isOp Decremented) inner.
Proof.
  induction fuel as [|fuel IH]; intros m s s' H; [done|].
  simpl in H.
  chat_cases; use_IH IH.
  all: try (by exists [Entered]).
  all: try (exists [Entered; Incremented; Decremented];
            split; [by rewrite <- !app_assoc|]; split; [done|]; by exists []).
  all: match goal with
       | H : exists _, _ |- _ => destruct H as (ops & Hlog & Hbal & _)
       end;
       exists ([Entered; Incremented] ++ ops ++ [Decremented]);
       (split; [rewrite Hlog; by rewrite <- !app_assoc|]);
       (split; [counts; lia|]);
       exists ops; done.
Qed.

Lemma chat_fuel_trace (fuel : nat) :
  forall (m : list RequestMessage) (s s' : State),
    chat_fuel fuel m s = Some s' ->
    exists tl : list Event, trace s' = trace s ++ tl.
Proof.
  induction fuel as [|fuel IH]; intros m s s' H; [done|].
  simpl in H.
  chat_cases; use_IH IH.
  all: try match goal with
           | H : exists _, _ |- _ => destruct H as (tl & ->)
           end.
  all: rewrite <- ?app_assoc; eauto.
Qed.

(** At most one completion per invocation; exactly one unless a response
    comes without a body. *)
Lemma chat_fuel_completions (fuel : nat) :
  forall (m : list RequestMessage) (s s' : State),
    chat_fuel fuel m s = Some s' ->
    (count isComplete (trace s) <= count isComplete (trace s')
       <= count isComplete (trace s) + 1)%nat
    /\ ((forall n, readerlessRound (script n) = false) ->
        count isComplete (trace s') = count isComplete (trace s) + 1)%nat.
Proof.
  induction fuel as [|fuel IH]; intros m s s' H; [done|].
  simpl in H.
  chat_cases; use_IH IH; counts.
  all: try (split; [lia|]; intros Hbody; try lia).
  all: try match goal with
           | Hin : _ /\ ((forall n, _) -> _) |- _ =>
               destruct Hin as [_ Hone]; specialize (Hone Hbody); lia
           end.
  all: exfalso;
    match goal with
    | Hr : request (script ?n) = _ |- _ =>
        specialize (Hbody n); unfold readerlessRound in Hbody; rewrite Hr in Hbody
    end.
  all: repeat match goal with
              | Hb : body _ = None |- _ => rewrite Hb in *; clear Hb
              end;
       destruct (status _ =? 200); simplify_eq/=.
Qed.

(** The accumulated list only grows, once the top-level reset is past. *)
Lemma chat_fuel_toolCalls (fuel : nat) :
  forall (m : list RequestMessage) (s s' : State),
    0 <= currentRecursionDepth s ->
    chat_fuel fuel m s = Some s' ->
    exists more : list IToolCall, toolCallsWithResponses s' = carried s ++ more.
Proof.
  induction fuel as [|fuel IH]; intros m s s' H0 H; [done|].
  simpl in H. unfold carried.
  chat_cases.
  all: try match goal with
           | H : chat_fuel _ _ _ = Some _ |- _ =>
               apply IH in H; [|simpl; lia];
               destruct H as (more & ->); unfold carried; simpl
           end.
  all: try match goal with
           | |- context [?d + 1 =? 0] =>
               assert ((d + 1 =? 0) = false) as -> by lia
           end.
  all: rewrite <- ?app_assoc; simpl; eauto using app_nil_r.
  all: exists []; by rewrite app_nil_r.
Qed.

End ChatInvariants.

(* ===================================================================== *)
(** * One round at a time *)
(* ===================================================================== *)

Section Rounds.

Variable makeToolMessages : ITool -> JsValue -> list RequestMessage.
Variable raiseError : Z -> option JsValue -> option string -> JsError.
Variable AbortError : JsError.
Variable script : nat -> Round.

Local Abbreviation chat_fuel := (chat_fuel makeToolMessages raiseError AbortError script).
Local Abbreviation chat := (chat makeToolMessages raiseError AbortError script).
Local Abbreviation chain := (chain makeToolMessages script).

Lemma tokens_added (x : Z) (o : option Z) :
  match o with
  | Some n => if n =? 0 then x else x + n
  | None => x
  end = x + default 0 o.
Proof. destruct o as [n|]; simpl; [|lia]. destruct (Z.eqb_spec n 0); lia. Qed.

Lemma addTokens_input (rr : ReadResult) (s : State) :
  svc_inputTokens (addTokens rr s) = svc_inputTokens s + default 0 (rr_inputTokens rr).
Proof.
  unfold addTokens; simpl. destruct (rr_inputTokens rr) as [n|]; simpl; [|lia].
  destruct (n =? 0) eqn:E; lia.
Qed.

Lemma addTokens_output (rr : ReadResult) (s : State) :
  svc_outputTokens (addTokens rr s) = svc_outputTokens s + default 0 (rr_outputTokens rr).
Proof.
  unfold addTokens; simpl. destruct (rr_outputTokens rr) as [n|]; simpl; [|lia].
  destruct (n =? 0) eqn:E; lia.
Qed.

(** An entry at the ceiling: one completion, nothing else. *)
Lemma chat_fuel_ceiling (fuel : nat) (m : list RequestMessage) (s : State) :
  MAX_RECURSION_DEPTH <= currentRecursionDepth s ->
  chat_fuel (S fuel) m s =
  Some (emit (EvComplete (ceilingOutcome s)) (set_depth Entered (currentRecursionDepth s) s)).
Proof.
  intros H. unfold MAX_RECURSION_DEPTH in H.
  simpl. unfold chatBody, MAX_RECURSION_DEPTH. simpl.
  assert ((currentRecursionDepth s =? 0) = false) as -> by lia.
  simpl.
  by assert ((10 <=? currentRecursionDepth s) = true) as -> by lia.
Qed.

(** A tool round re-enters [chat] with the extended conversation, and
    unwinds when that entry returns. *)
Lemma chat_fuel_tool_round (fuel : nat) (m : list RequestMessage) (s : State)
    (stream : Stream) (rr : ReadResult) (t : ITool) (v : JsValue) :
  currentRecursionDepth s < MAX_RECURSION_DEPTH ->
  toolRound (script (requests s)) = Some (stream, rr, t, v) ->
  chat_fuel (S fuel) m s =
  unwind <$> chat_fuel fuel (m ++ makeToolMessages t v)
               (afterTool m stream rr t v (abortDuringTool (toolHost (script (requests s)))) s).
Proof.
  intros Hd Hr. unfold toolRound in Hr. repeat case_match; simplify_eq.
  unfold MAX_RECURSION_DEPTH in Hd.
  simpl. unfold chatBody, afterTool, MAX_RECURSION_DEPTH. simpl.
  assert ((10 <=? currentRecursionDepth s) = false) as Hc by lia.
  destruct (currentRecursionDepth s =? 0) eqn:Hz; simpl; rewrite Hc;
    unfold tryBlock, makeRequest, callTool, await; simpl;
    repeat match goal with
           | H : _ = _ |- _ => rewrite H; simpl
           end;
    rewrite drain_eq; simpl;
    repeat match goal with
           | H : _ = _ |- _ => rewrite H; simpl
           end;
    try match goal with
        | |- context [chat_fuel fuel ?a ?b] =>
            match goal with
            | |- _ = unwind <$> chat_fuel fuel ?a' ?b' => progress change b with b'
            end
        end;
    match goal with
    | |- context [chat_fuel fuel ?a ?b] => destruct (chat_fuel fuel a b)
    end;
    reflexivity.
Qed.

(** Run the entry of [chat] along the equations at hand. *)
Local Ltac along_hyps :=
  repeat match goal with
         | H : _ = _ |- _ => rewrite H; simpl
         end.

Local Ltac enter :=
  simpl; unfold chatBody, MAX_RECURSION_DEPTH in *; simpl;
  match goal with
  | H : currentRecursionDepth ?s < 10 |- _ =>
      let Hc := fresh "Hc" in
      assert ((10 <=? currentRecursionDepth s) = false) as Hc by lia;
      destruct (currentRecursionDepth s =? 0) eqn:?; simpl; rewrite Hc
  end;
  unfold tryBlock, makeRequest, callTool, await; simpl; along_hyps;
  try (rewrite drain_eq; simpl; along_hyps).

Lemma lookup_new_controller (cs : list bool) (b : bool) :
  (<[length cs := b]> (cs ++ [false])) !! length cs = Some b.
Proof. apply list_lookup_insert_eq. rewrite length_app. simpl. lia. Qed.

(** A round without a pending tool call ends the chain with one
    completion and resets the counters. *)
Lemma chat_fuel_final_round (fuel : nat) (m : list RequestMessage) (s : State)
    (stream : Stream) (rr : ReadResult) :
  currentRecursionDepth s < MAX_RECURSION_DEPTH ->
  finalRound (script (requests s)) = Some (stream, rr) ->
  exists s' : State,
    chat_fuel (S fuel) m s = Some s'
    /\ trace s' = trace s ++ EvRequest m :: map callbackEvent (events stream) ++
          [EvComplete {| reply_content := textOf stream;
                         toolCalls := carried s ++ default [] (rr_toolCalls rr);
                         inputTokens := svc_inputTokens s + default 0 (rr_inputTokens rr);
                         outputTokens := svc_outputTokens s + default 0 (rr_outputTokens rr);
                         error := rr_error rr |}]
    /\ svc_inputTokens s' = 0 /\ svc_outputTokens s' = 0
    /\ requests s' = S (requests s)
    /\ toolCallsWithResponses s' = carried s.
Proof.
  intros Hd Hr. unfold finalRound in Hr. repeat case_match; simplify_eq.
  unfold carried, textOf.
  enter; (eexists; split; [reflexivity|]); simpl;
    rewrite !tokens_added; rewrite <- !app_assoc; done.
Qed.

(** A 200 without a body: the error callback, and no completion. *)
Lemma chat_fuel_readerless (fuel : nat) (m : list RequestMessage) (s : State) :
  currentRecursionDepth s < MAX_RECURSION_DEPTH ->
  readerlessRound (script (requests s)) = true ->
  exists s' : State,
    chat_fuel (S fuel) m s = Some s'
    /\ trace s' = trace s ++ [EvRequest m; EvError (Error "No reader") false]
    /\ svc_inputTokens s' = svc_inputTokens s
    /\ svc_outputTokens s' = svc_outputTokens s.
Proof.
  intros Hd Hr. unfold readerlessRound in Hr.
  destruct (request (script (requests s))) as [resp| |] eqn:Hreq; try done.
  apply andb_prop in Hr as [Hst Hb].
  destruct (body resp) eqn:Hbody; [done|].
  enter; (eexists; split; [reflexivity|]); simpl; rewrite <- !app_assoc; done.
Qed.

(** [abort()] during the request or the stream: the round ends in the
    handler, which reports the abort and completes with the text so far. *)
Lemma chat_fuel_aborted (fuel : nat) (m : list RequestMessage) (s : State)
    (text : string) :
  currentRecursionDepth s < MAX_RECURSION_DEPTH ->
  abortedRound (script (requests s)) = Some text ->
  exists (s' : State) (read : list ReaderEvent),
    chat_fuel (S fuel) m s = Some s'
    /\ trace s' = trace s ++ EvRequest m :: map callbackEvent read ++
          [EvError AbortError true;
           EvComplete {| reply_content := text;
                         toolCalls := carried s;
                         inputTokens := svc_inputTokens s;
                         outputTokens := svc_outputTokens s;
                         error := Some (errorInfo AbortError) |}]
    /\ requests s' = S (requests s)
    /\ svc_inputTokens s' = 0 /\ svc_outputTokens s' = 0.
Proof.
  intros Hd Hr. unfold abortedRound in Hr. repeat case_match; simplify_eq.
  - unfold carried.
    enter; (eexists; exists (events s0); split; [reflexivity|]); simpl;
      unfold signal_aborted; simpl; rewrite lookup_new_controller; simpl;
      rewrite <- !app_assoc; done.
  - unfold carried.
    enter; (eexists; exists []; split; [reflexivity|]); simpl;
      unfold signal_aborted; simpl; rewrite lookup_new_controller; simpl;
      rewrite <- !app_assoc; done.
Qed.

(** Below the ceiling an entry starts with its network request. *)
Lemma chat_fuel_first_request (fuel : nat) (m : list RequestMessage) (s s' : State) :
  currentRecursionDepth s < MAX_RECURSION_DEPTH ->
  chat_fuel fuel m s = Some s' ->
  exists tl : list Event, trace s' = trace s ++ EvRequest m :: tl.
Proof.
  intros Hd H. destruct fuel as [|fuel]; [done|].
  unfold MAX_RECURSION_DEPTH in Hd. simpl in H.
  chat_cases; unfold MAX_RECURSION_DEPTH in *; try lia.
  all: try match goal with
           | H : chat_fuel _ _ _ = Some _ |- _ =>
               apply chat_fuel_trace in H as (tl & ->); simpl
           end.
  all: rewrite <- ?app_assoc; simpl; eauto.
Qed.

End Rounds.

(* ===================================================================== *)
(** * Chains of tool rounds *)
(* ===================================================================== *)

Section Chains.

Variable makeToolMessages : ITool -> JsValue -> list RequestMessage.
Variable raiseError : Z -> option JsValue -> option string -> JsError.
Variable AbortError : JsError.
Variable script : nat -> Round.

Local Abbreviation chat_fuel := (chat_fuel makeToolMessages raiseError AbortError script).
Local Abbreviation chat := (chat makeToolMessages raiseError AbortError script).
Local Abbreviation chain := (chain makeToolMessages script).

(** What a tool round hands to the next entry. *)
Lemma afterTool_fields (m : list RequestMessage) (stream : Stream) (rr : ReadResult)
    (t : ITool) (v : JsValue) (b : bool) (s s1 : State) :
  s1 = afterTool m stream rr t v b s ->
  currentRecursionDepth s1 = currentRecursionDepth s + 1
  /\ requests s1 = S (requests s)
  /\ toolCallsWithResponses s1 = carried s ++ [newToolCall t v]
  /\ svc_inputTokens s1 = svc_inputTokens s + default 0 (rr_inputTokens rr)
  /\ svc_outputTokens s1 = svc_outputTokens s + default 0 (rr_outputTokens rr)
  /\ trace s1 = trace s ++ EvRequest m :: map callbackEvent (events stream) ++
                  [EvCallTool (fst (ToolName.destructure (tool_name t)))
                              (snd (ToolName.destructure (tool_name t)))
                              (tool_args t)].
Proof.
  intros ->. unfold afterTool, carried. simpl.
  destruct b, (currentRecursionDepth s =? 0); simpl;
    rewrite !tokens_added, <- !app_assoc; done.
Qed.

Lemma chain_fields (n : nat) :
  forall (m : list RequestMessage) (s : State),
    0 <= currentRecursionDepth s ->
    (forall i, (i < n)%nat -> is_Some (toolRound (script (requests s + i)))) ->
    let s' := snd (chain n m s) in
    currentRecursionDepth s' = currentRecursionDepth s + Z.of_nat n
    /\ requests s' = (requests s + n)%nat
    /\ count isRequest (trace s') = (count isRequest (trace s) + n)%nat
    /\ count isComplete (trace s') = count isComplete (trace s)
    /\ (n = 0%nat \/ length (toolCallsWithResponses s') = (length (carried s) + n)%nat).
Proof.
  induction n as [|n IH]; intros m s H0 Hr; simpl.
  - repeat split; lia.
  - destruct (Hr 0%nat) as [[[[stream rr] t] v] Ht]; [lia|].
    rewrite Nat.add_0_r in Ht. rewrite Ht.
    set (s1 := afterTool _ _ _ _ _ _ _) in *.
    destruct (afterTool_fields m stream rr t v _ s s1 eq_refl) as (Fd & Fr & Fc & _ & _ & Ft).
    clearbody s1.
    destruct (IH (m ++ makeToolMessages t v) s1) as (Id & Ir & Iq & Ic & Il).
    { lia. }
    { intros i Hi. rewrite Fr.
      replace (S (requests s) + i)%nat with (requests s + S i)%nat by lia.
      apply Hr. lia. }
    simpl in *. rewrite Id, Ir, Iq, Ic, Fd, Fr, Ft. counts.
    do 4 (split; [lia|]). right.
    destruct Il as [-> | Hl].
    + simpl. rewrite Fc, length_app. simpl. lia.
    + rewrite Hl. unfold carried at 1. rewrite Fd.
      assert ((currentRecursionDepth s + 1 =? 0) = false) as -> by lia.
      rewrite Fc, length_app. simpl. lia.
Qed.

Lemma chain_tokens (n : nat) :
  forall (m : list RequestMessage) (s : State),
    (forall i, (i < n)%nat -> is_Some (toolRound (script (requests s + i)))) ->
    svc_inputTokens (snd (chain n m s))
      = svc_inputTokens s + fst (reportedBy script n (requests s))
    /\ svc_outputTokens (snd (chain n m s))
      = svc_outputTokens s + snd (reportedBy script n (requests s)).
Proof.
  induction n as [|n IH]; intros m s Hr; simpl.
  - lia.
  - destruct (Hr 0%nat) as [[[[stream rr] t] v] Ht]; [lia|].
    rewrite Nat.add_0_r in Ht. rewrite Ht.
    set (s1 := afterTool _ _ _ _ _ _ _) in *.
    destruct (afterTool_fields m stream rr t v _ s s1 eq_refl) as (_ & Fr & _ & Fi & Fo & _).
    clearbody s1.
    destruct (IH (m ++ makeToolMessages t v) s1) as (Ii & Io).
    { intros i Hi. rewrite Fr.
      replace (S (requests s) + i)%nat with (requests s + S i)%nat by lia.
      apply Hr. lia. }
    rewrite Ii, Io, Fi, Fo, Fr. simpl. lia.
Qed.

Lemma chain_trace (n : nat) :
  forall (m : list RequestMessage) (s : State),
    exists tl : list Event, trace (snd (chain n m s)) = trace s ++ tl.
Proof.
  induction n as [|n IH]; intros m s; simpl.
  - exists []. by rewrite app_nil_r.
  - destruct (toolRound (script (requests s))) as [[[[stream rr] t] v]|]; simpl.
    + edestruct IH as (tl & ->).
      destruct (afterTool_fields m stream rr t v
                  (abortDuringTool (toolHost (script (requests s)))) s _ eq_refl)
        as (_ & _ & _ & _ & _ & ->).
      rewrite <- app_assoc. eauto.
    + exists []. by rewrite app_nil_r.
Qed.

Lemma unwinds_fields (n : nat) (s : State) :
  trace (unwinds n s) = trace s
  /\ requests (unwinds n s) = requests s
  /\ svc_inputTokens (unwinds n s) = svc_inputTokens s
  /\ svc_outputTokens (unwinds n s) = svc_outputTokens s
  /\ toolCallsWithResponses (unwinds n s) = toolCallsWithResponses s
  /\ controllers (unwinds n s) = controllers s.
Proof. induction n as [|n IH]; simpl; [done|]. apply IH. Qed.

(** [n] tool rounds below the ceiling: [chat] runs the entry that follows
    them and unwinds [n] times. *)
Lemma chain_run (n : nat) :
  forall (fuel : nat) (m : list RequestMessage) (s : State),
    currentRecursionDepth s + Z.of_nat n <= MAX_RECURSION_DEPTH ->
    (forall i, (i < n)%nat -> is_Some (toolRound (script (requests s + i)))) ->
    chat_fuel (n + fuel) m s =
    unwinds n <$> chat_fuel fuel (fst (chain n m s)) (snd (chain n m s)).
Proof.
  induction n as [|n IH]; intros fuel m s Hd Hr.
  - simpl. by destruct (chat_fuel fuel m s).
  - destruct (Hr 0%nat) as [[[[stream rr] t] v] Ht]; [lia|].
    rewrite Nat.add_0_r in Ht.
    change (S n + fuel)%nat with (S (n + fuel)).
    rewrite (chat_fuel_tool_round makeToolMessages raiseError AbortError script
               (n + fuel) m s stream rr t v) by (done || lia).
    cbn [Chat.chain]. rewrite Ht.
    destruct (afterTool_fields m stream rr t v
                (abortDuringTool (toolHost (script (requests s)))) s _ eq_refl)
      as (Fd & Fr & _).
    rewrite IH.
    + by destruct (chat_fuel fuel _ _).
    + lia.
    + intros i Hi. rewrite Fr.
      replace (S (requests s) + i)%nat with (requests s + S i)%nat by lia.
      apply Hr. lia.
Qed.

End Chains.

(* ===================================================================== *)
(** * After a tool call *)
(* ===================================================================== *)

Section AfterToolCall.

Variable makeToolMessages : ITool -> JsValue -> list RequestMessage.
Variable raiseError : Z -> option JsValue -> option string -> JsError.
Variable AbortError : JsError.
Variable script : nat -> Round.

Local Abbreviation chat_fuel := (chat_fuel makeToolMessages raiseError AbortError script).
Local Abbreviation chat := (chat makeToolMessages raiseError AbortError script).

Lemma ceiling_error (s : State) :
  error (ceilingOutcome s) =
  Some {| code := 500;
          message := "Maximum recursion depth (10) reached for tool calls." |}.
Proof. reflexivity. Qed.

Lemma enough_below (s : State) :
  currentRecursionDepth s < MAX_RECURSION_DEPTH ->
  enough s = S (S (Z.to_nat (MAX_RECURSION_DEPTH - (currentRecursionDepth s + 1)))).
Proof. unfold enough, MAX_RECURSION_DEPTH. lia. Qed.

(** Below the ceiling the value the Tool Host returned is recorded and the
    next round-trip starts with the extended conversation. *)
Lemma tool_round_continues (m : list RequestMessage) (s : State)
    (stream : Stream) (rr : ReadResult) (t : ITool) (v : JsValue) :
  0 <= currentRecursionDepth s ->
  currentRecursionDepth s + 1 < MAX_RECURSION_DEPTH ->
  toolRound (script (requests s)) = Some (stream, rr, t, v) ->
  exists (s' : State) (tl : list Event),
    chat m s = Some s'
    /\ trace s' = trace s ++ EvRequest m :: map callbackEvent (events stream) ++
                    [EvCallTool (fst (ToolName.destructure (tool_name t)))
                                (snd (ToolName.destructure (tool_name t)))
                                (tool_args t);
                     EvRequest (m ++ makeToolMessages t v)] ++ tl
    /\ toolCallsWithResponses s' !! length (carried s) = Some (newToolCall t v).
Proof.
  intros H0 Hd Hr. unfold Chat.chat.
  rewrite enough_below by lia.
  rewrite (chat_fuel_tool_round makeToolMessages raiseError AbortError script
             _ m s stream rr t v) by (done || lia).
  set (s1 := afterTool _ _ _ _ _ _ _).
  destruct (afterTool_fields m stream rr t v _ s s1 eq_refl)
    as (Fd & Fr & Fc & _ & _ & Ft).
  clearbody s1.
  destruct (chat_fuel_returns makeToolMessages raiseError AbortError script
              (S (Z.to_nat (MAX_RECURSION_DEPTH - (currentRecursionDepth s + 1))))
              (m ++ makeToolMessages t v) s1) as [s2 Hs2].
  { rewrite Fd. lia. }
  rewrite Hs2. simpl.
  destruct (chat_fuel_first_request _ _ _ _ _ _ s1 s2 ltac:(lia) Hs2) as (tl & Htl).
  destruct (chat_fuel_toolCalls _ _ _ _ _ _ s1 s2 ltac:(lia) Hs2) as (more & Hmore).
  assert (carried s1 = carried s ++ [newToolCall t v]) as Hc1.
  { unfold carried at 1. rewrite Fd.
    by assert ((currentRecursionDepth s + 1 =? 0) = false) as -> by lia. }
  rewrite Hc1 in Hmore.
  exists (unwind s2), tl. split; [done|]. split.
  - change (trace (unwind s2)) with (trace s2).
    rewrite Htl, Ft, <- !app_assoc. simpl. by rewrite <- !app_assoc.
  - change (toolCallsWithResponses (unwind s2)) with (toolCallsWithResponses s2).
    rewrite Hmore, <- app_assoc. simpl. by apply list_lookup_middle.
Qed.

(** At the ceiling the value is recorded all the same, and the chain ends
    with the depth-exceeded outcome instead of another round-trip. *)
Lemma tool_round_at_ceiling (m : list RequestMessage) (s : State)
    (stream : Stream) (rr : ReadResult) (t : ITool) (v : JsValue) :
  currentRecursionDepth s + 1 = MAX_RECURSION_DEPTH ->
  toolRound (script (requests s)) = Some (stream, rr, t, v) ->
  exists (s' : State) (r : ChatResponseMessage),
    chat m s = Some s'
    /\ trace s' = trace s ++ EvRequest m :: map callbackEvent (events stream) ++
                    [EvCallTool (fst (ToolName.destructure (tool_name t)))
                                (snd (ToolName.destructure (tool_name t)))
                                (tool_args t);
                     EvComplete r]
    /\ error r = Some {| code := 500;
                         message := "Maximum recursion depth (10) reached for tool calls." |}
    /\ toolCalls r = carried s ++ [newToolCall t v]
    /\ requests s' = S (requests s).
Proof.
  intros Hd Hr. unfold Chat.chat.
  rewrite enough_below by lia.
  rewrite (chat_fuel_tool_round makeToolMessages raiseError AbortError script
             _ m s stream rr t v) by (done || lia).
  set (s1 := afterTool _ _ _ _ _ _ _).
  destruct (afterTool_fields m stream rr t v _ s s1 eq_refl)
    as (Fd & Fr & Fc & _ & _ & Ft).
  clearbody s1.
  rewrite chat_fuel_ceiling by lia. simpl.
  eexists _, (ceilingOutcome s1). split; [reflexivity|]. simpl.
  rewrite Ft, Fc, Fr, <- !app_assoc. simpl. by rewrite <- !app_assoc.
Qed.

End AfterToolCall.

(* ===================================================================== *)
(** * The specification's properties of [chat] *)
(* ===================================================================== *)

Section ChatProperties.

Variable makeToolMessages : ITool -> JsValue -> list RequestMessage.
Variable raiseError : Z -> option JsValue -> option string -> JsError.
Variable AbortError : JsError.
Variable script : nat -> Round.

Local Abbreviation chat_fuel := (chat_fuel makeToolMessages raiseError AbortError script).
Local Abbreviation chat := (chat makeToolMessages raiseError AbortError script).
Local Abbreviation chain := (chain makeToolMessages script).

(** Where no response comes without a body, a call completes exactly
    once, whichever way its rounds end: an answer, a response that is not
    a 200, a rejection of the request, the stream or the Tool Host, an
    abort, the depth ceiling.  This is a statement about the runs the
    model describes: what is rejected with is an error object, and the
    callbacks return normally. *)
Lemma chat_completes_once (m : list RequestMessage) (s : State) :
  (forall n, readerlessRound (script n) = false) ->
  exists s' : State, chat m s = Some s' /\ completes_once s s'.
Proof.
  intros Hb. destruct (chat_returns makeToolMessages raiseError AbortError script m s)
    as [s' Hs'].
  exists s'. split; [done|].
  by apply (chat_fuel_completions _ _ _ _ _ _ _ _ Hs').
Qed.

(** C2: a top-level call never issues more than ten network requests; when
    every round-trip yields a pending tool call, it ends, after exactly ten
    requests and ten tool calls, with a single completion whose error has
    code 500 and the depth message, and the entry that hits the ceiling
    issues no request: the completion is the last event. *)
Theorem chat_depth_ceiling (m : list RequestMessage) (s : State) :
  currentRecursionDepth s = 0 ->
  exists s' : State,
    chat m s = Some s'
    /\ (count isRequest (trace s')
        <= count isRequest (trace s) + Z.to_nat MAX_RECURSION_DEPTH)%nat
    /\ ((forall i, (i < Z.to_nat MAX_RECURSION_DEPTH)%nat ->
                   is_Some (toolRound (script (requests s + i)))) ->
        exists (pre : list Event) (r : ChatResponseMessage),
          trace s' = pre ++ [EvComplete r]
          /\ error r = Some {| code := 500;
                               message := "Maximum recursion depth (10) reached for tool calls." |}
          /\ count isRequest pre
             = (count isRequest (trace s) + Z.to_nat MAX_RECURSION_DEPTH)%nat
          /\ count isComplete pre = count isComplete (trace s)
          /\ length (toolCalls r) = Z.to_nat MAX_RECURSION_DEPTH).
Proof.
  intros Hd.
  destruct (chat_returns makeToolMessages raiseError AbortError script m s) as [s' Hs'].
  exists s'. split; [done|]. split.
  - destruct (chat_fuel_requests _ _ _ _ _ _ _ _ Hs') as [Hle Hcount].
    rewrite Hd in Hle. unfold MAX_RECURSION_DEPTH in *. lia.
  - intros Hrounds. unfold Chat.chat, enough in Hs'. rewrite Hd in Hs'.
    change (S (Z.to_nat (MAX_RECURSION_DEPTH - 0))) with (10 + 1)%nat in Hs'.
    change (Z.to_nat MAX_RECURSION_DEPTH) with 10%nat in *.
    rewrite chain_run in Hs' by (done || (rewrite Hd; done)).
    destruct (chain_fields makeToolMessages script 10 m s ltac:(lia) Hrounds)
      as (Cd & Cr & Cq & Cc & Cl).
    set (s10 := snd (chain 10 m s)) in *. clearbody s10.
    rewrite chat_fuel_ceiling in Hs' by (rewrite Cd, Hd; done).
    cbv [fmap option_fmap option_map] in Hs'. injection Hs' as <-.
    exists (trace s10), (ceilingOutcome s10).
    split; [reflexivity|]. split; [apply ceiling_error|].
    split; [done|]. split; [done|].
    destruct Cl as [|Cl]; [done|]. simpl. rewrite Cl.
    unfold carried. by rewrite Hd.
Qed.

(** C5: two tool calls, [t1] then [t2], and then an answer: the one
    completion lists the call of [t1], then the call of [t2], then the
    calls the last read result brought along already finalized. *)
Theorem tool_calls_in_request_order (m : list RequestMessage) (s : State)
    (stream1 stream2 stream3 : Stream) (rr1 rr2 rr3 : ReadResult)
    (t1 t2 : ITool) (v1 v2 : JsValue) :
  currentRecursionDepth s = 0 ->
  toolRound (script (requests s)) = Some (stream1, rr1, t1, v1) ->
  toolRound (script (requests s + 1)) = Some (stream2, rr2, t2, v2) ->
  finalRound (script (requests s + 2)) = Some (stream3, rr3) ->
  exists (s' : State) (r : ChatResponseMessage),
    chat m s = Some s'
    /\ completions (trace s') = completions (trace s) ++ [r]
    /\ toolCalls r = [newToolCall t1 v1; newToolCall t2 v2]
                       ++ default [] (rr_toolCalls rr3).
Proof.
  intros Hd H1 H2 H3. unfold Chat.chat, enough. rewrite Hd.
  change (S (Z.to_nat (MAX_RECURSION_DEPTH - 0))) with (S (S 9)).
  rewrite (chat_fuel_tool_round makeToolMessages raiseError AbortError script
             _ m s stream1 rr1 t1 v1) by (done || (rewrite Hd; done)).
  set (s1 := afterTool _ _ _ _ _ _ s).
  destruct (afterTool_fields m stream1 rr1 t1 v1 _ s s1 eq_refl)
    as (Fd1 & Fr1 & Fc1 & _ & _ & Ft1).
  clearbody s1.
  replace (requests s + 1)%nat with (requests s1) in H2 by lia.
  rewrite (chat_fuel_tool_round makeToolMessages raiseError AbortError script
             _ _ s1 stream2 rr2 t2 v2) by (done || (rewrite Fd1, Hd; done)).
  set (s2 := afterTool _ _ _ _ _ _ s1).
  destruct (afterTool_fields (m ++ makeToolMessages t1 v1) stream2 rr2 t2 v2 _ s1 s2 eq_refl)
    as (Fd2 & Fr2 & Fc2 & _ & _ & Ft2).
  clearbody s2.
  replace (requests s + 2)%nat with (requests s2) in H3 by lia.
  destruct (chat_fuel_final_round makeToolMessages raiseError AbortError script
              8 ((m ++ makeToolMessages t1 v1) ++ makeToolMessages t2 v2) s2 stream3 rr3)
    as (s3 & Hs3 & Ht3 & _); [rewrite Fd2, Fd1, Hd; done | done |].
  rewrite Hs3. clear Hs3. cbv [fmap option_fmap option_map].
  eexists _, _. split; [reflexivity|].
  change (trace (unwind (unwind s3))) with (trace s3).
  rewrite Ht3, Ft2, Ft1. split.
  - counts. rewrite !app_nil_r. reflexivity.
  - simpl. f_equal. unfold carried at 1. rewrite Fd2, Fd1, Hd. simpl.
    rewrite Fc2. unfold carried at 1. rewrite Fd1, Hd. simpl.
    rewrite Fc1. unfold carried. by rewrite Hd.
Qed.

(** C8 (as amended): every invocation returns with the depth counter at
    its entry value.  An entry at the ceiling leaves the counter alone
    (no increment, no decrement); an entry below it increments once and
    decrements once, around nested entries that are balanced themselves. *)
Theorem chat_restores_depth (m : list RequestMessage) (s : State) :
  exists (s' : State) (ops : list DepthOp),
    chat m s = Some s'
    /\ currentRecursionDepth s' = currentRecursionDepth s
    /\ depthLog s' = depthLog s ++ ops
    /\ count (isOp Incremented) ops = count (isOp Decremented) ops
    /\ if MAX_RECURSION_DEPTH <=? currentRecursionDepth s
       then ops = [Entered]
       else exists inner : list DepthOp,
           ops = [Entered; Incremented] ++ inner ++ [Decremented]
           /\ count (isOp Incremented) inner = count (isOp Decremented) inner.
Proof.
  destruct (chat_returns makeToolMessages raiseError AbortError script m s) as [s' Hs'].
  destruct (chat_fuel_depthLog _ _ _ _ _ _ _ _ Hs') as (ops & Hlog & Hbal & Hshape).
  exists s', ops. split; [done|].
  split; [by apply (chat_fuel_depth _ _ _ _ _ _ _ _ Hs')|]. done.
Qed.

(** The counters add up over the round-trips of a chain that ends in an
    answer, and are zero again once the outcome is out. *)
Lemma token_totals (n : nat) (m : list RequestMessage) (s : State)
    (stream : Stream) (rr : ReadResult) :
  currentRecursionDepth s = 0 ->
  (n < Z.to_nat MAX_RECURSION_DEPTH)%nat ->
  (forall i, (i < n)%nat -> is_Some (toolRound (script (requests s + i)))) ->
  finalRound (script (requests s + n)) = Some (stream, rr) ->
  exists (s' : State) (r : ChatResponseMessage),
    chat m s = Some s'
    /\ completions (trace s') = completions (trace s) ++ [r]
    /\ inputTokens r = svc_inputTokens s + fst (reportedBy script n (requests s))
                       + default 0 (rr_inputTokens rr)
    /\ outputTokens r = svc_outputTokens s + snd (reportedBy script n (requests s))
                        + default 0 (rr_outputTokens rr)
    /\ counters_reset s'.
Proof.
  intros Hd Hn Hr Hf. change (Z.to_nat MAX_RECURSION_DEPTH) with 10%nat in Hn.
  unfold Chat.chat, enough. rewrite Hd.
  replace (S (Z.to_nat (MAX_RECURSION_DEPTH - 0))) with (n + S (10 - n))%nat
    by (unfold MAX_RECURSION_DEPTH; lia).
  rewrite chain_run by (done || (rewrite Hd; unfold MAX_RECURSION_DEPTH; lia)).
  destruct (chain_fields makeToolMessages script n m s ltac:(lia) Hr)
    as (Cd & Cr & _ & Cc & _).
  destruct (chain_tokens makeToolMessages script n m s Hr) as (Ci & Co).
  destruct (chain_trace makeToolMessages script n m s) as (tl & Ctl).
  set (sn := snd (chain n m s)) in *. clearbody sn.
  rewrite <- Cr in Hf.
  destruct (chat_fuel_final_round makeToolMessages raiseError AbortError script
              (10 - n) (fst (chain n m s)) sn stream rr)
    as (s' & Hs' & Ht' & Hi' & Ho' & _);
    [rewrite Cd, Hd; unfold MAX_RECURSION_DEPTH; lia | done |].
  rewrite Hs'. clear Hs'. cbv [fmap option_fmap option_map].
  destruct (unwinds_fields n s') as (Ut & _ & Ui & Uo & _).
  eexists _, _. split; [reflexivity|].
  rewrite Ut, Ht'. unfold counters_reset. rewrite Ui, Uo, Hi', Ho'.
  assert (completions (trace sn) = completions (trace s)) as Hsame.
  { clear -Cc Ctl. rewrite Ctl in *. rewrite completions_app.
    rewrite count_app in Cc.
    assert (count isComplete tl = 0%nat) as Hz by lia. clear Cc.
    rewrite (completions_none tl Hz). apply app_nil_r. }
  split.
  - counts. rewrite Hsame. reflexivity.
  - simpl. rewrite Ci, Co. done.
Qed.

(** C1: the code at the failing input.  A top-level call whose first
    response is a 200 without a body invokes the error callback with "No
    reader" and returns: no completion callback at all. *)
Theorem missing_reader_emits_no_outcome (m : list RequestMessage) (s : State) :
  currentRecursionDepth s = 0 ->
  readerlessRound (script (requests s)) = true ->
  exists s' : State,
    chat m s = Some s'
    /\ trace s' = trace s ++ [EvRequest m; EvError (Error "No reader") false]
    /\ completions (trace s') = completions (trace s)
    /\ ~ completes_once s s'.
Proof.
  intros Hd Hr.
  destruct (chat_fuel_readerless makeToolMessages raiseError AbortError script
              (Z.to_nat (MAX_RECURSION_DEPTH - currentRecursionDepth s)) m s)
    as (s' & Hs' & Ht & _); [rewrite Hd; done | done |].
  exists s'. split; [done|]. split; [done|]. rewrite Ht. split.
  - counts. by rewrite app_nil_r.
  - unfold completes_once. rewrite Ht. counts. lia.
Qed.

(** The three checks of [isReady], read off the schema and the settings. *)
Lemma isReady_false (s : State) :
  isReady s = false <->
  (schema_includes "model" (apiSchema s) = true /\ missing (model (apiSettings s)) = true)
  \/ (schema_includes "base" (apiSchema s) = true /\ missing (base (apiSettings s)) = true)
  \/ (schema_includes "key" (apiSchema s) = true /\ missing (key (apiSettings s)) = true).
Proof.
  unfold isReady.
  destruct (schema_includes "model" (apiSchema s)), (missing (model (apiSettings s)));
    destruct (schema_includes "base" (apiSchema s)), (missing (base (apiSettings s)));
    destruct (schema_includes "key" (apiSchema s)), (missing (key (apiSettings s)));
    simpl; intuition congruence.
Qed.

(** C3 (as amended): when the schema requires model, base and key and one
    of them is missing, [isReady] answers [false]; [chat] does not ask it:
    below the depth ceiling its first act is the network request. *)
Theorem readiness_is_left_to_the_caller (m : list RequestMessage) (s : State) :
  schema_includes "model" (apiSchema s) = true ->
  schema_includes "base" (apiSchema s) = true ->
  schema_includes "key" (apiSchema s) = true ->
  missing (model (apiSettings s)) = true
    \/ missing (base (apiSettings s)) = true
    \/ missing (key (apiSettings s)) = true ->
  isReady s = false
  /\ (currentRecursionDepth s < MAX_RECURSION_DEPTH ->
      exists (s' : State) (tl : list Event),
        chat m s = Some s' /\ trace s' = trace s ++ EvRequest m :: tl).
Proof.
  intros Hm Hb Hk Hmiss. split.
  - apply isReady_false. rewrite Hm, Hb, Hk. tauto.
  - intros Hd.
    destruct (chat_returns makeToolMessages raiseError AbortError script m s) as [s' Hs'].
    destruct (chat_fuel_first_request _ _ _ _ _ _ _ _ Hd Hs') as (tl & Htl).
    by exists s', tl.
Qed.

(** C6: whatever value the Tool Host returns for a pending call, a failure
    report included, is no error to the orchestrator: it becomes the
    response of the recorded call, the tool messages are appended to the
    conversation, and [chat] is entered again.  The next event after the
    tool call is therefore the network request of the following
    round-trip, sent with the extended conversation: no error callback and
    no completion in between.  Only the entry after the tenth round-trip
    is met by the depth guard, as after any tool call (C2); its completion
    still lists the call with the value returned. *)
Theorem tool_result_feeds_next_round (m : list RequestMessage) (s : State)
    (stream : Stream) (rr : ReadResult) (t : ITool) (v : JsValue) :
  0 <= currentRecursionDepth s < MAX_RECURSION_DEPTH ->
  toolRound (script (requests s)) = Some (stream, rr, t, v) ->
  exists (s' : State) (next : Event) (tl : list Event),
    chat m s = Some s'
    /\ trace s' = trace s ++ EvRequest m :: map callbackEvent (events stream) ++
                    [EvCallTool (fst (ToolName.destructure (tool_name t)))
                                (snd (ToolName.destructure (tool_name t)))
                                (tool_args t);
                     next] ++ tl
    /\ if currentRecursionDepth s + 1 <? MAX_RECURSION_DEPTH
       then next = EvRequest (m ++ makeToolMessages t v)
            /\ toolCallsWithResponses s' !! length (carried s) = Some (newToolCall t v)
       else exists r : ChatResponseMessage,
           next = EvComplete r /\ tl = []
           /\ error r = Some {| code := 500;
                                message := "Maximum recursion depth (10) reached for tool calls." |}
           /\ toolCalls r = carried s ++ [newToolCall t v].
Proof.
  intros [H0 Hd] Hr.
  destruct (currentRecursionDepth s + 1 <? MAX_RECURSION_DEPTH) eqn:Hroom.
  - destruct (tool_round_continues makeToolMessages raiseError AbortError script
                m s stream rr t v) as (s' & tl & Hs' & Ht & Hc); [lia | lia | done |].
    by exists s', (EvRequest (m ++ makeToolMessages t v)), tl.
  - destruct (tool_round_at_ceiling makeToolMessages raiseError AbortError script
                m s stream rr t v) as (s' & r & Hs' & Ht & He & Hc & _); [lia | done |].
    exists s', (EvComplete r), []. split; [done|]. split; [done|]. by exists r.
Qed.

(** C9 (as amended): [abort()] reaches the request and the stream, not the
    Tool Host.  Called while the request or the stream is awaited, it ends
    the round-trip: no tool call, no further request, the error callback
    with [aborted = true], one completion with the text read so far.
    Called while the Tool Host runs, it interrupts nothing: the host is
    handed the client, the name and the arguments only, its result is used
    as ever and, below the ceiling, the next request follows. *)
Theorem abort_reaches_request_and_stream_only (m : list RequestMessage) (s : State) :
  0 <= currentRecursionDepth s ->
  currentRecursionDepth s + 1 < MAX_RECURSION_DEPTH ->
  (forall text : string,
      abortedRound (script (requests s)) = Some text ->
      exists (s' : State) (read : list ReaderEvent) (r : ChatResponseMessage),
        chat m s = Some s'
        /\ trace s' = trace s ++ EvRequest m :: map callbackEvent read
                        ++ [EvError AbortError true; EvComplete r]
        /\ reply_content r = text
        /\ requests s' = S (requests s))
  /\ (forall (stream : Stream) (rr : ReadResult) (t : ITool) (v : JsValue),
        toolRound (script (requests s)) = Some (stream, rr, t, v) ->
        abortDuringTool (toolHost (script (requests s))) = true ->
        exists (s' : State) (tl : list Event),
          chat m s = Some s'
          /\ trace s' = trace s ++ EvRequest m :: map callbackEvent (events stream) ++
                          [EvCallTool (fst (ToolName.destructure (tool_name t)))
                                      (snd (ToolName.destructure (tool_name t)))
                                      (tool_args t);
                           EvRequest (m ++ makeToolMessages t v)] ++ tl).
Proof.
  intros H0 Hd. split.
  - intros text Hr.
    destruct (chat_fuel_aborted makeToolMessages raiseError AbortError script
                (Z.to_nat (MAX_RECURSION_DEPTH - currentRecursionDepth s)) m s text)
      as (s' & read & Hs' & Ht & Hq & _); [lia | done |].
    eexists s', read, _. split; [done|]. split; [exact Ht|]. done.
  - intros stream rr t v Hr _.
    destruct (tool_round_continues makeToolMessages raiseError AbortError script
                m s stream rr t v) as (s' & tl & Hs' & Ht & _); [lia | lia | done |].
    by exists s', tl.
Qed.

End ChatProperties.

(* ===================================================================== *)
(** * The properties at the sample inputs *)
(* ===================================================================== *)

Section AtSamples.
Import Sample.

Local Abbreviation run := (chat toolMessages httpError abortError).

(** The endless tool loop runs into the ceiling. *)
Lemma chat_depth_ceiling_witness :
  currentRecursionDepth service = 0
  /\ (forall i, (i < 10)%nat -> is_Some (toolRound (loop (requests service + i))))
  /\ exists s' : State,
      run loop hello service = Some s'
      /\ exists (pre : list Event) (r : ChatResponseMessage),
          trace s' = pre ++ [EvComplete r]
          /\ error r = Some {| code := 500;
                               message := "Maximum recursion depth (10) reached for tool calls." |}
          /\ count isRequest pre = 10%nat.
Proof.
  split; [reflexivity|].
  assert (forall i, (i < 10)%nat -> is_Some (toolRound (loop (requests service + i))))
    as Hloop by (intros i _; eexists; reflexivity).
  split; [exact Hloop|].
  destruct (chat_depth_ceiling toolMessages httpError abortError loop hello service eq_refl)
    as (s' & Hs' & _ & Hchain).
  exists s'. split; [exact Hs'|].
  destruct (Hchain Hloop) as (pre & r & Ht & He & Hq & _).
  exists pre, r. split; [exact Ht|]. split; [exact He|]. exact Hq.
Defined.

(** Two tools and an answer that brings a finalized call along. *)
Lemma tool_calls_in_request_order_witness :
  (is_Some (toolRound (twoTools 0)) /\ is_Some (toolRound (twoTools 1))
   /\ is_Some (finalRound (twoTools 2)))
  /\ exists (s' : State) (r : ChatResponseMessage),
      run twoTools hello service = Some s'
      /\ completions (trace s') = [r]
      /\ toolCalls r = [newToolCall T1 (JStr "contents"); newToolCall T2 failure; T3].
Proof.
  split; [repeat split; eexists; reflexivity|].
  edestruct (tool_calls_in_request_order toolMessages httpError abortError twoTools
               hello service) as (s' & r & Hs' & Hc & Ht);
    [reflexivity | reflexivity | reflexivity | reflexivity |].
  exists s', r. split; [exact Hs'|]. split; [exact Hc|]. exact Ht.
Defined.

(** The response without a body. *)
Lemma missing_reader_emits_no_outcome_witness :
  readerlessRound (bodiless (requests service)) = true
  /\ exists s' : State,
      run bodiless hello service = Some s'
      /\ trace s' = [EvRequest hello; EvError (Error "No reader") false]
      /\ completions (trace s') = [].
Proof.
  split; [reflexivity|].
  destruct (missing_reader_emits_no_outcome toolMessages httpError abortError bodiless
              hello service eq_refl eq_refl) as (s' & Hs' & Ht & Hc & _).
  exists s'. split; [exact Hs'|]. split; [exact Ht|]. exact Hc.
Defined.

(** The service without a credential. *)
Lemma readiness_is_left_to_the_caller_witness :
  missing (key (apiSettings unready)) = true
  /\ isReady unready = false
  /\ exists (s' : State) (tl : list Event),
      run plain hello unready = Some s' /\ trace s' = EvRequest hello :: tl.
Proof.
  split; [reflexivity|].
  destruct (readiness_is_left_to_the_caller toolMessages httpError abortError plain
              hello unready eq_refl eq_refl eq_refl (or_intror (or_intror eq_refl)))
    as [Hready Hchat].
  split; [exact Hready|]. apply Hchat. reflexivity.
Defined.

(** The first failed tool call of the loop is fed back to the model. *)
Lemma tool_result_feeds_next_round_witness :
  toolSettles (toolHost (loop (requests service))) = inl failure
  /\ exists (s' : State) (tl : list Event),
      run loop hello service = Some s'
      /\ trace s' = [EvRequest hello; EvReading "calling ";
                     EvCallTool (Some "fs") (Some "read") (JStr "a.txt");
                     EvRequest (hello ++ toolMessages T1 failure)] ++ tl
      /\ toolCallsWithResponses s' !! 0%nat = Some (newToolCall T1 failure).
Proof.
  split; [reflexivity|].
  edestruct (tool_result_feeds_next_round toolMessages httpError abortError loop
               hello service) as (s' & next & tl & Hs' & Ht & Hn);
    [split; [reflexivity | reflexivity] | reflexivity |].
  destruct Hn as [-> Hc].
  exists s', tl. split; [exact Hs'|]. split; [exact Ht|]. exact Hc.
Defined.

(** An abort during the request, and an abort during the tool call. *)
Lemma abort_reaches_request_and_stream_only_witness :
  abortedRound (abortedFetch (requests service)) = Some ""
  /\ abortDuringTool (toolHost (abortedTool (requests service))) = true
  /\ (exists (s' : State) (read : list ReaderEvent) (r : ChatResponseMessage),
      run abortedFetch hello service = Some s'
      /\ trace s' = EvRequest hello :: map callbackEvent read
                      ++ [EvError abortError true; EvComplete r]
      /\ reply_content r = "")
  /\ (exists (s' : State) (tl : list Event),
        run abortedTool hello service = Some s'
        /\ trace s' = [EvRequest hello; EvReading "calling ";
                       EvCallTool (Some "fs") (Some "read") (JStr "a.txt");
                       EvRequest (hello ++ toolMessages T1 (JStr "contents"))] ++ tl).
Proof.
  split; [reflexivity|]. split; [reflexivity|]. split.
  - destruct (abort_reaches_request_and_stream_only toolMessages httpError abortError
                abortedFetch hello service) as [Hcut _];
      [discriminate | reflexivity |].
    destruct (Hcut "" eq_refl) as (s' & read & r & Hs' & Ht & Hr & _).
    exists s', read, r. split; [exact Hs'|]. split; [exact Ht|]. exact Hr.
  - destruct (abort_reaches_request_and_stream_only toolMessages httpError abortError
                abortedTool hello service) as [_ Htool];
      [discriminate | reflexivity |].
    edestruct Htool as (s' & tl & Hs' & Ht); [reflexivity | reflexivity |].
    exists s', tl. split; [exact Hs'|]. exact Ht.
Defined.

(** C3, as stated, fails: the credential is missing, [isReady] says so,
    and [chat] sends the request all the same. *)
Lemma unready_service_sends_request :
  isReady unready = false
  /\ exists s' : State,
      run plain hello unready = Some s' /\ ~ fails_fast unready s'.
Proof.
  split; [reflexivity|].
  eexists. split; [vm_compute; reflexivity|].
  unfold fails_fast. intros H. specialize (H eq_refl). vm_compute in H. discriminate.
Qed.

(** C8, as stated, fails: in the chain that runs into the ceiling there are
    eleven entries and ten decrements. *)
Lemma ceiling_entry_is_not_decremented :
  exists s' : State,
    run loop hello service = Some s'
    /\ count (isOp Entered) (depthLog s') = 11%nat
    /\ count (isOp Decremented) (depthLog s') = 10%nat
    /\ ~ decremented_once_per_entry service s'.
Proof.
  eexists. split; [vm_compute; reflexivity|].
  split; [reflexivity|]. split; [reflexivity|].
  unfold decremented_once_per_entry. vm_compute. discriminate.
Qed.

(** C9, as stated, fails: [abort()] is called while the Tool Host runs;
    the controller of the round is aborted, the call is not: its result
    goes into a second request and the chain completes without any error. *)
Lemma abort_during_tool_call_goes_unnoticed :
  exists (s' : State) (r : ChatResponseMessage),
    run abortedTool hello service = Some s'
    /\ controllers s' !! 1%nat = Some true
    /\ trace s' = [EvRequest hello; EvReading "calling ";
                   EvCallTool (Some "fs") (Some "read") (JStr "a.txt");
                   EvRequest (hello ++ toolMessages T1 (JStr "contents"));
                   EvReading "done"; EvComplete r]
    /\ error r = None
    /\ ~ cancellation_honoured service s'.
Proof.
  eexists. eexists.
  split; [vm_compute; reflexivity|].
  split; [reflexivity|]. split; [vm_compute; reflexivity|]. split; [reflexivity|].
  unfold cancellation_honoured. intros H.
  destruct (H eq_refl) as [Hq _]. vm_compute in Hq. discriminate.
Qed.

(** C4: the code at the failing input.  Ten tool rounds run into the
    ceiling; the completion reports the ten input tokens counted so far,
    and the counters keep them.  The next top-level call, whose only
    round-trip reports five, completes with fifteen. *)
Theorem ceiling_keeps_token_counters :
  exists (s1 s2 : State) (r1 r2 : ChatResponseMessage),
    run loopThenAnswer hello service = Some s1
    /\ completions (trace s1) = [r1]
    /\ error r1 = Some {| code := 500;
                          message := "Maximum recursion depth (10) reached for tool calls." |}
    /\ inputTokens r1 = 10 /\ outputTokens r1 = 20
    /\ svc_inputTokens s1 = 10 /\ svc_outputTokens s1 = 20
    /\ ~ counters_reset s1
    /\ currentRecursionDepth s1 = 0
    /\ run loopThenAnswer hello s1 = Some s2
    /\ completions (trace s2) = [r1; r2]
    /\ error r2 = None
    /\ inputTokens r2 = 15 /\ outputTokens r2 = 23.
Proof.
  eexists. eexists. eexists. eexists.
  split; [vm_compute; reflexivity|].
  split; [vm_compute; reflexivity|].
  do 5 (split; [reflexivity|]).
  split; [unfold counters_reset; vm_compute; intros [? _]; discriminate|].
  split; [reflexivity|].
  split; [vm_compute; reflexivity|].
  split; [vm_compute; reflexivity|].
  repeat split; reflexivity.
Qed.

(** C7: the code at the failing input.  For [fs--read--file] the first
    separator parts [fs] from [read--file]; the destructured split hands
    the Tool Host the name [read]. *)
Theorem tool_name_cut_at_second_separator :
  tool_name T4 = ToolName.qualify "fs" "read--file"
  /\ ToolName.split_first "--" (tool_name T4) = Some ("fs", "read--file")
  /\ ToolName.destructure (tool_name T4) = (Some "fs", Some "read")
  /\ exists (s' : State) (tl : list Event),
      run dashed hello service = Some s'
      /\ trace s' = [EvRequest hello; EvReading "calling ";
                     EvCallTool (Some "fs") (Some "read") (JStr "a.txt")] ++ tl.
Proof.
  split; [reflexivity|]. split; [reflexivity|]. split; [reflexivity|].
  eexists. eexists. split; [vm_compute; reflexivity|]. vm_compute. reflexivity.
Qed.

End AtSamples.

(* ===================================================================== *)
(** * The chat store: [toolCalls] is always an array *)
(* ===================================================================== *)

Section StoreProperties.
Import Store.

Variable JSON_parse : string -> option JsValue.
Variable JSON_stringify : JsValue -> string.
Variable tempChatId : string.
Variable isBlank : JsValue -> bool.
Variable isNotBlank : JsValue -> bool.

Local Abbreviation processMessage := (processMessage JSON_parse).
Local Abbreviation createMessage := (createMessage JSON_parse JSON_stringify).
Local Abbreviation updateMessage :=
  (updateMessage JSON_parse JSON_stringify isBlank isNotBlank).
Local Abbreviation fetchMessages := (fetchMessages JSON_parse tempChatId).

Lemma get_insert (k : string) (v : JsValue) (m : Row) : get k (<[k := v]> m) = v.
Proof. unfold get. by rewrite lookup_insert_eq. Qed.

Lemma normalized_array (v : JsValue) : isArray (normalized JSON_parse v) = true.
Proof. unfold normalized. by repeat case_match. Qed.

(** [processMessage] on an object: the field is normalised the way the
    specification words it, everything else is kept. *)
Lemma processMessage_normalizes (m : Row) :
  processMessage (Some m) = <["toolCalls" := normalized JSON_parse (get "toolCalls" m)]> m.
Proof.
  unfold Store.processMessage, normalized. f_equal.
  destruct (get "toolCalls" m) as [| | | |str|items|]; simpl; try done.
  destruct (JSON_parse str) as [[]|]; done.
Qed.

Lemma processMessage_array (message : option Row) :
  isArray (get "toolCalls" (processMessage message)) = true.
Proof.
  destruct message as [m|].
  - by rewrite processMessage_normalizes, get_insert, normalized_array.
  - reflexivity.
Qed.

Lemma createMessage_array (msgId : string) (createdAt : Z) (inserted : bool)
    (message : Row) (st : StoreState) :
  match snd (createMessage msgId createdAt inserted message st) with
  | Some created =>
      isArray (get "toolCalls" created) = true
      /\ messages (fst (createMessage msgId createdAt inserted message st))
         = messages st ++ [created]
  | None => fst (createMessage msgId createdAt inserted message st) = st
  end.
Proof.
  unfold Store.createMessage.
  destruct inserted; cbn [fst snd messages]; [|done].
  split; [apply processMessage_array | done].
Qed.

Lemma updateMessage_array (message : Row) (result : bool) (st : StoreState) :
  fst (updateMessage message result st) = st
  \/ exists (index : nat) (updated : Row),
      messages (fst (updateMessage message result st)) = <[index := updated]> (messages st)
      /\ isArray (get "toolCalls" updated) = true.
Proof.
  unfold Store.updateMessage.
  repeat case_match; cbn [fst snd messages]; eauto using processMessage_array.
Qed.

Lemma fetchMessages_array (chatId : string) (rows : option (list Row)) (st : StoreState) :
  Forall (fun m => isArray (get "toolCalls" m) = true)
         (snd (fetchMessages chatId rows st))
  /\ (fst (fetchMessages chatId rows st) = st
      \/ messages (fst (fetchMessages chatId rows st))
         = snd (fetchMessages chatId rows st)).
Proof.
  unfold Store.fetchMessages.
  destruct (String.eqb chatId tempChatId); cbn [fst snd messages]; [by eauto|].
  destruct rows as [rows|]; cbn [fst snd messages]; [|by eauto].
  split; [|by right].
  apply Forall_map, Forall_forall. intros m _. cbn beta.
  destruct (truthy (get "toolCalls" m)).
  - apply processMessage_array.
  - by rewrite get_insert.
Qed.

(** The stored list keeps the property from one operation to the next. *)
Lemma store_keeps_arrays (st : StoreState) :
  Forall (fun m => isArray (get "toolCalls" m) = true) (messages st) ->
  (forall msgId createdAt inserted message,
      Forall (fun m => isArray (get "toolCalls" m) = true)
             (messages (fst (createMessage msgId createdAt inserted message st))))
  /\ (forall message result,
        Forall (fun m => isArray (get "toolCalls" m) = true)
               (messages (fst (updateMessage message result st))))
  /\ (forall chatId rows,
        Forall (fun m => isArray (get "toolCalls" m) = true)
               (messages (fst (fetchMessages chatId rows st)))).
Proof.
  intros Hst. split; [|split].
  - intros msgId createdAt inserted message.
    pose proof (createMessage_array msgId createdAt inserted message st) as Hc.
    destruct (snd _) as [created|]; [|by rewrite Hc].
    destruct Hc as [Ha ->]. apply Forall_app. split; [done|]. by constructor.
  - intros message result.
    destruct (updateMessage_array message result st) as [->|(index & updated & -> & Ha)];
      [done|].
    by apply Forall_insert.
  - intros chatId rows.
    destruct (fetchMessages_array chatId rows st) as [Ha [->| ->]]; done.
Qed.

End StoreProperties.

(** A row as the database returns it, with the column still text. *)
Example stored_text_becomes_array :
  Store.get "toolCalls" (Store.processMessage Sample.parse (Some Sample.row)) = JArr []
  /\ Store.get "id" (Store.processMessage Sample.parse (Some Sample.row)) = JStr "msg_1".
Proof. split; reflexivity. Qed.

(* ===================================================================== *)
(** * More of [chat]: the other ways a round can end *)
(* ===================================================================== *)

Section ChatFailures.

Variable makeToolMessages : ITool -> JsValue -> list RequestMessage.
Variable raiseError : Z -> option JsValue -> option string -> JsError.
Variable AbortError : JsError.
Variable script : nat -> Round.

Local Abbreviation chat_fuel := (chat_fuel makeToolMessages raiseError AbortError script).
Local Abbreviation chat := (chat makeToolMessages raiseError AbortError script).

Local Ltac along :=
  repeat match goal with
         | H : _ = _ |- _ => rewrite H; simpl
         end.

(** Run the entry of [chat] at depth zero along the equations at hand. *)
Local Ltac top_level Hd :=
  unfold Chat.chat, enough; rewrite Hd;
  generalize (Z.to_nat (MAX_RECURSION_DEPTH - 0)); intros fuel;
  cbn [Chat.chat_fuel]; unfold chatBody, MAX_RECURSION_DEPTH; simpl; rewrite Hd; simpl;
  unfold tryBlock, makeRequest, callTool, await; simpl; along;
  try (rewrite drain_eq; simpl; along).

Lemma lookup_fresh_controller (cs : list bool) : (cs ++ [false]) !! length cs = Some false.
Proof. by apply list_lookup_middle. Qed.

(** A first round-trip without a pending tool call is the whole chain: one
    request, the reader's callbacks, one completion with the text read, the
    calls the read result brought along finalized, the counters so far plus
    this round's, the parser's error if any.  No Tool Host call, and the
    counters are zero afterwards. *)
Theorem answer_short_circuits (m : list RequestMessage) (s : State)
    (stream : Stream) (rr : ReadResult) :
  currentRecursionDepth s = 0 ->
  finalRound (script (requests s)) = Some (stream, rr) ->
  exists s' : State,
    chat m s = Some s'
    /\ trace s' = trace s ++ EvRequest m :: map callbackEvent (events stream) ++
          [EvComplete {| reply_content := textOf stream;
                         toolCalls := default [] (rr_toolCalls rr);
                         inputTokens := svc_inputTokens s + default 0 (rr_inputTokens rr);
                         outputTokens := svc_outputTokens s + default 0 (rr_outputTokens rr);
                         error := rr_error rr |}]
    /\ requests s' = S (requests s)
    /\ toolCallsWithResponses s' = []
    /\ counters_reset s'
    /\ currentRecursionDepth s' = 0.
Proof.
  intros Hd Hr.
  destruct (chat_fuel_final_round makeToolMessages raiseError AbortError script
              (Z.to_nat (MAX_RECURSION_DEPTH - currentRecursionDepth s)) m s stream rr)
    as (s' & Hs' & Ht & Hi & Ho & Hq & Hc); [rewrite Hd; done | done |].
  pose proof (chat_fuel_depth _ _ _ _ _ _ _ _ Hs') as Hdepth.
  exists s'. split; [exact Hs'|]. clear Hs'.
  unfold carried in Ht, Hc. rewrite Hd in Ht, Hc, Hdepth. simpl in Ht, Hc.
  split; [exact Ht|]. split; [exact Hq|]. split; [exact Hc|]. done.
Qed.

(** A response that is not a 200 never reaches the reader: its body is
    decoded by content type, [raiseError] gets the status and the decoded
    body, and what it throws goes to the error callback (not aborted) and,
    as code and message, into the one completion, which has no text. *)
Theorem http_error_is_reported (m : list RequestMessage) (s : State)
    (resp : Response) (j : option JsValue) (msg : option string) :
  currentRecursionDepth s = 0 ->
  request (script (requests s)) = Resolves resp ->
  status resp <> 200 ->
  errorBody resp = Resolves (j, msg) ->
  exists s' : State,
    chat m s = Some s'
    /\ trace s' = trace s ++
          [EvRequest m;
           EvError (raiseError (status resp) j msg) false;
           EvComplete {| reply_content := "";
                         toolCalls := [];
                         inputTokens := svc_inputTokens s;
                         outputTokens := svc_outputTokens s;
                         error := Some (errorInfo (raiseError (status resp) j msg)) |}]
    /\ requests s' = S (requests s)
    /\ counters_reset s'.
Proof.
  intros Hd Hreq Hst Hbody.
  assert ((status resp =? 200) = false) as Hne by lia.
  unfold errorBody in Hbody.
  destruct (match contentType resp with
            | Some ct => includes "application/json" ct
            | None => false
            end) eqn:Hct.
  - destruct (json resp) as [jv| |] eqn:Hj; simplify_eq.
    top_level Hd. eexists. split; [reflexivity|]. simpl.
    unfold signal_aborted, counters_reset, catchOutcome; simpl. rewrite lookup_fresh_controller. simpl.
    by rewrite <- !app_assoc.
  - destruct (text resp) as [tv| |] eqn:Htx; simplify_eq.
    top_level Hd. eexists. split; [reflexivity|]. simpl.
    unfold signal_aborted, counters_reset, catchOutcome; simpl. rewrite lookup_fresh_controller. simpl.
    by rewrite <- !app_assoc.
Qed.

(** A Tool Host that rejects ends the chain in the handler: the error
    callback (flagged aborted exactly when [abort()] was called while the
    host ran), then one completion with the round's text and counters; the
    call that failed this way is not recorded. *)
Theorem tool_rejection_ends_chain (m : list RequestMessage) (s : State)
    (resp : Response) (stream : Stream) (rr : ReadResult) (t : ITool) (e : JsError) :
  currentRecursionDepth s = 0 ->
  request (script (requests s)) = Resolves resp ->
  status resp = 200 ->
  body resp = Some stream ->
  finish stream = Resolves rr ->
  rr_tool rr = Some t ->
  toolSettles (toolHost (script (requests s))) = inr e ->
  exists s' : State,
    chat m s = Some s'
    /\ trace s' = trace s ++ EvRequest m :: map callbackEvent (events stream) ++
          [EvCallTool (fst (ToolName.destructure (tool_name t)))
                      (snd (ToolName.destructure (tool_name t)))
                      (tool_args t);
           EvError e (abortDuringTool (toolHost (script (requests s))));
           EvComplete {| reply_content := textOf stream;
                         toolCalls := [];
                         inputTokens := svc_inputTokens s + default 0 (rr_inputTokens rr);
                         outputTokens := svc_outputTokens s + default 0 (rr_outputTokens rr);
                         error := Some (errorInfo e) |}]
    /\ requests s' = S (requests s)
    /\ toolCallsWithResponses s' = []
    /\ counters_reset s'.
Proof.
  intros Hd Hreq Hst Hb Hf Ht He.
  assert ((status resp =? 200) = true) as Hok by lia.
  top_level Hd. unfold ToolName.destructure. simpl.
  destruct (abortDuringTool (toolHost (script (requests s)))) eqn:Ha; simpl.
  - eexists. split; [reflexivity|]. simpl.
    unfold signal_aborted, counters_reset, textOf, catchOutcome; simpl.
    rewrite lookup_new_controller, !tokens_added. simpl.
    by rewrite <- !app_assoc.
  - eexists. split; [reflexivity|]. simpl.
    unfold signal_aborted, counters_reset, textOf, catchOutcome; simpl.
    rewrite lookup_fresh_controller, !tokens_added. simpl.
    by rewrite <- !app_assoc.
Qed.

(** A stream that breaks while it is read keeps what was read: the error
    callback (not aborted), one completion with the text so far and the
    error's code and message.  The counters of the broken round are never
    seen, so the payload has the counters as they were. *)
Theorem broken_stream_keeps_partial_text (m : list RequestMessage) (s : State)
    (resp : Response) (stream : Stream) (e : JsError) :
  currentRecursionDepth s = 0 ->
  request (script (requests s)) = Resolves resp ->
  status resp = 200 ->
  body resp = Some stream ->
  finish stream = Rejects e ->
  exists s' : State,
    chat m s = Some s'
    /\ trace s' = trace s ++ EvRequest m :: map callbackEvent (events stream) ++
          [EvError e false;
           EvComplete {| reply_content := textOf stream;
                         toolCalls := [];
                         inputTokens := svc_inputTokens s;
                         outputTokens := svc_outputTokens s;
                         error := Some (errorInfo e) |}]
    /\ requests s' = S (requests s)
    /\ counters_reset s'.
Proof.
  intros Hd Hreq Hst Hb Hf.
  assert ((status resp =? 200) = true) as Hok by lia.
  top_level Hd. eexists. split; [reflexivity|]. simpl.
  unfold signal_aborted, counters_reset, textOf, catchOutcome; simpl.
  rewrite lookup_fresh_controller. simpl.
  by rewrite <- !app_assoc.
Qed.

(** What an earlier call left in the accumulated list never shows: a
    top-level call starts by emptying it. *)
Theorem stale_tool_calls_are_dropped (m : list RequestMessage) (s : State)
    (stale : list IToolCall) :
  currentRecursionDepth s = 0 ->
  chat m (set_toolCalls stale s) = chat m s.
Proof.
  intros Hd. unfold Chat.chat, enough. simpl. rewrite Hd.
  generalize (Z.to_nat (MAX_RECURSION_DEPTH - 0)). intros fuel.
  cbn [Chat.chat_fuel]. unfold chatBody. simpl. rewrite Hd. reflexivity.
Qed.

(** [abort()] while the request or the stream of a top-level call's first
    round-trip is awaited.  Cut during the request, the call ends with the
    error callback, told [aborted = true], and one completion with empty
    text.  Cut during the stream, every callback the reader has made until
    then has reached the observers, in order, and the one completion
    carries the text of the chunks read.  Either way the completion has no
    tool calls and the counters as they were, no Tool Host call and no
    further request is made, and the counters are zero afterwards. *)
Theorem abort_completes_with_partial_text (m : list RequestMessage) (s : State) :
  currentRecursionDepth s = 0 ->
  (request (script (requests s)) = Aborted ->
   exists s' : State,
     chat m s = Some s'
     /\ trace s' = trace s ++
           [EvRequest m; EvError AbortError true;
            EvComplete {| reply_content := "";
                          toolCalls := [];
                          inputTokens := svc_inputTokens s;
                          outputTokens := svc_outputTokens s;
                          error := Some (errorInfo AbortError) |}]
     /\ completes_once s s'
     /\ requests s' = S (requests s)
     /\ counters_reset s')
  /\ (forall (resp : Response) (stream : Stream),
        request (script (requests s)) = Resolves resp ->
        status resp = 200 ->
        body resp = Some stream ->
        finish stream = Aborted ->
        exists s' : State,
          chat m s = Some s'
          /\ trace s' = trace s ++ EvRequest m :: map callbackEvent (events stream) ++
                [EvError AbortError true;
                 EvComplete {| reply_content := textOf stream;
                               toolCalls := [];
                               inputTokens := svc_inputTokens s;
                               outputTokens := svc_outputTokens s;
                               error := Some (errorInfo AbortError) |}]
          /\ completes_once s s'
          /\ requests s' = S (requests s)
          /\ counters_reset s').
Proof.
  intros Hd. split.
  - intros Hreq. top_level Hd. eexists. split; [reflexivity|]. simpl.
    unfold signal_aborted, counters_reset, completes_once, catchOutcome; simpl.
    rewrite lookup_new_controller. simpl.
    split; [by rewrite <- !app_assoc|]. split; [|done]. counts. lia.
  - intros resp stream Hreq Hst Hb Hf.
    assert ((status resp =? 200) = true) as Hok by lia.
    top_level Hd. eexists. split; [reflexivity|]. simpl.
    unfold signal_aborted, counters_reset, completes_once, textOf, catchOutcome; simpl.
    rewrite lookup_new_controller. simpl.
    split; [by rewrite <- !app_assoc|]. split; [|done]. counts. lia.
Qed.

End ChatFailures.

(* ===================================================================== *)
(** * What the Tool Host is given as client and name *)
(* ===================================================================== *)

Section ToolHostArguments.

Lemma append_cons (c : ascii) (a b : string) : String c a +:+ b = String c (a +:+ b).
Proof. reflexivity. Qed.

Lemma prefix_append (p : string) : forall x y : string,
  String.prefix p x = true -> String.prefix p (x +:+ y) = true.
Proof.
  induction p as [|c p IH]; intros x y H; [by destruct (x +:+ y)|].
  destruct x as [|d x]; [done|]. rewrite append_cons. simpl in *.
  destruct (ascii_dec c d); [by apply IH | done].
Qed.

Lemma split_first_cons (sep : string) (c : ascii) (s : string) :
  ToolName.split_first sep (String c s) =
  if String.prefix sep (String c s)
  then Some ("", drop_chars (String.length sep) (String c s))
  else match ToolName.split_first sep s with
       | Some (before, after) => Some (String c before, after)
       | None => None
       end.
Proof. reflexivity. Qed.

(** The cut at the first separator takes the string apart. *)
Lemma split_first_parts (sep : string) : forall s a b : string,
  ToolName.split_first sep s = Some (a, b) -> s = a +:+ sep +:+ b.
Proof.
  induction s as [|c s IH]; intros a b H.
  - simpl in H. destruct sep; simplify_eq/=. reflexivity.
  - rewrite split_first_cons in H.
    destruct (String.prefix sep (String c s)) eqn:Hp.
    + simplify_eq. clear IH. revert c s Hp.
      induction sep as [|d sep IHsep]; intros c s Hp; [done|].
      simpl in Hp. destruct (ascii_dec d c) as [->|]; [|done].
      change ("" +:+ String c sep +:+ drop_chars (String.length (String c sep)) (String c s))
        with (String c (sep +:+ drop_chars (String.length sep) s)).
      f_equal. destruct sep as [|d' sep'].
      * by destruct s.
      * destruct s as [|c' s']; [done|]. by apply (IHsep c' s').
    + destruct (ToolName.split_first sep s) as [[a' b']|] eqn:Hs; simplify_eq.
      rewrite append_cons. f_equal. by apply IH.
Qed.

(** What comes before the first separator holds no separator. *)
Lemma split_first_before (sep : string) :
  sep <> "" ->
  forall s a b : string,
    ToolName.split_first sep s = Some (a, b) -> ToolName.split_first sep a = None.
Proof.
  intros Hsep. induction s as [|c s IH]; intros a b H.
  - simpl in H. destruct sep; simplify_eq/=.
  - rewrite split_first_cons in H.
    destruct (String.prefix sep (String c s)) eqn:Hp.
    + simplify_eq. by destruct sep.
    + destruct (ToolName.split_first sep s) as [[a' b']|] eqn:Hs; simplify_eq.
      rewrite split_first_cons. destruct (String.prefix sep (String c a')) eqn:Hpa.
      * apply (prefix_append _ _ (sep +:+ b)) in Hpa.
        rewrite append_cons, <- (split_first_parts _ _ _ _ Hs) in Hpa. congruence.
      * by rewrite (IH a' b).
Qed.

(** For every qualified name: without a separator the Tool Host gets the
    whole name as client and no tool name.  Otherwise the client is the text
    before the first separator and the tool name the text between the first
    separator and the next one (the whole rest when there is no next one);
    neither of them ever contains the separator. *)
Theorem tool_host_arguments (qualified : string) :
  match ToolName.split_first "--" qualified with
  | None => ToolName.destructure qualified = (Some qualified, None)
  | Some (client, rest) =>
      exists name : string,
        ToolName.destructure qualified = (Some client, Some name)
        /\ qualified = client +:+ "--" +:+ rest
        /\ ToolName.split_first "--" client = None
        /\ ToolName.split_first "--" name = None
        /\ (name = rest \/ exists more : string, rest = name +:+ "--" +:+ more)
  end.
Proof.
  rewrite destructure_first.
  destruct (ToolName.split_first "--" qualified) as [[client rest]|] eqn:Hq; [|done].
  pose proof (split_first_parts _ _ _ _ Hq) as Hparts.
  pose proof (split_first_before "--" ltac:(done) _ _ _ Hq) as Hclient.
  destruct (ToolName.split_first "--" rest) as [[name more]|] eqn:Hrest.
  - exists name. split; [done|]. split; [done|]. split; [done|].
    split; [by apply (split_first_before "--" ltac:(done) _ _ _ Hrest)|].
    right. exists more. by apply split_first_parts.
  - exists rest. repeat split; try done. by left.
Qed.

End ToolHostArguments.

(* ===================================================================== *)
(** * The other ways a round can end, at the sample inputs *)
(* ===================================================================== *)

Section AtMoreSamples.
Import Sample.

Local Abbreviation run := (chat toolMessages httpError abortError).

(** Plain answers: one completion. *)
Lemma chat_completes_once_witness :
  (forall n, readerlessRound (plain n) = false)
  /\ exists s' : State, run plain hello service = Some s' /\ completes_once service s'.
Proof.
  split; [intros n; reflexivity|].
  apply (chat_completes_once toolMessages httpError abortError plain hello service).
  intros n. reflexivity.
Defined.

(** Two tool rounds reporting 4 and 6 input tokens, then an answer
    reporting 1. *)
Lemma token_totals_witness :
  currentRecursionDepth service = 0
  /\ (forall i, (i < 2)%nat -> is_Some (toolRound (twoTools (requests service + i))))
  /\ is_Some (finalRound (twoTools (requests service + 2)))
  /\ exists (s' : State) (r : ChatResponseMessage),
      run twoTools hello service = Some s'
      /\ completions (trace s') = [r]
      /\ inputTokens r = 11
      /\ outputTokens r = 7
      /\ counters_reset s'.
Proof.
  split; [reflexivity|].
  assert (forall i, (i < 2)%nat -> is_Some (toolRound (twoTools (requests service + i))))
    as Hr.
  { intros i Hi. destruct i as [|[|i]]; [eexists; reflexivity | eexists; reflexivity | lia]. }
  split; [exact Hr|]. split; [eexists; reflexivity|].
  edestruct (token_totals toolMessages httpError abortError twoTools 2 hello service)
    as (s' & r & Hs' & Hc & Hi & Ho & Hz);
    [reflexivity | vm_compute; lia | exact Hr | reflexivity |].
  exists s', r. split; [exact Hs'|]. split; [exact Hc|].
  split; [exact Hi|]. split; [exact Ho|]. exact Hz.
Defined.

(** The request is cut before it resolves; the stream is cut after the
    chunk "par". *)
Lemma abort_completes_with_partial_text_witness :
  currentRecursionDepth service = 0
  /\ request (abortedFetch (requests service)) = Aborted
  /\ (exists (resp : Response) (stream : Stream),
        request (abortedStream (requests service)) = Resolves resp
        /\ status resp = 200
        /\ body resp = Some stream
        /\ events stream = [OnProgress "par"]
        /\ finish stream = Aborted)
  /\ (exists s' : State,
        run abortedFetch hello service = Some s'
        /\ trace s' = [EvRequest hello; EvError abortError true;
                       EvComplete {| reply_content := ""; toolCalls := [];
                                     inputTokens := 0; outputTokens := 0;
                                     error := Some (errorInfo abortError) |}])
  /\ (exists s' : State,
        run abortedStream hello service = Some s'
        /\ trace s' = [EvRequest hello; EvReading "par"; EvError abortError true;
                       EvComplete {| reply_content := "par"; toolCalls := [];
                                     inputTokens := 0; outputTokens := 0;
                                     error := Some (errorInfo abortError) |}]
        /\ completes_once service s').
Proof.
  split; [reflexivity|]. split; [reflexivity|].
  split; [eexists _, _; repeat split; reflexivity|]. split.
  - destruct (abort_completes_with_partial_text toolMessages httpError abortError
                abortedFetch hello service eq_refl) as [Hcut _].
    destruct (Hcut eq_refl) as (s' & Hs' & Ht & _).
    exists s'. split; [exact Hs'|]. exact Ht.
  - destruct (abort_completes_with_partial_text toolMessages httpError abortError
                abortedStream hello service eq_refl) as [_ Hcut].
    edestruct Hcut as (s' & Hs' & Ht & Hc & _);
      [reflexivity | reflexivity | reflexivity | reflexivity |].
    exists s'. split; [exact Hs'|]. split; [exact Ht|]. exact Hc.
Defined.

(** A plain answer. *)
Lemma answer_short_circuits_witness :
  currentRecursionDepth service = 0
  /\ is_Some (finalRound (plain (requests service)))
  /\ exists s' : State,
      run plain hello service = Some s'
      /\ trace s' = [EvRequest hello; EvReading "done";
                     EvComplete {| reply_content := "done"; toolCalls := [];
                                   inputTokens := 1; outputTokens := 3; error := None |}]
      /\ requests s' = 1%nat
      /\ counters_reset s'.
Proof.
  split; [reflexivity|]. split; [eexists; reflexivity|].
  edestruct (answer_short_circuits toolMessages httpError abortError plain hello service)
    as (s' & Hs' & Ht & Hq & _ & Hz & _); [reflexivity | reflexivity |].
  exists s'. split; [exact Hs'|]. split; [exact Ht|]. split; [exact Hq|]. exact Hz.
Defined.

(** The provider answers 401 with a JSON body. *)
Lemma http_error_is_reported_witness :
  currentRecursionDepth service = 0
  /\ (exists resp : Response,
        request (refused (requests service)) = Resolves resp /\ status resp <> 200)
  /\ exists s' : State,
      run refused hello service = Some s'
      /\ completions (trace s')
         = [{| reply_content := ""; toolCalls := []; inputTokens := 0; outputTokens := 0;
               error := Some {| code := 401; message := "Error" |} |}].
Proof.
  split; [reflexivity|]. split; [eexists; split; [reflexivity | simpl; lia]|].
  edestruct (http_error_is_reported toolMessages httpError abortError refused hello service)
    as (s' & Hs' & Ht & _);
    [reflexivity | reflexivity | simpl; lia | reflexivity |].
  exists s'. split; [exact Hs'|]. rewrite Ht. reflexivity.
Defined.

(** The Tool Host is down. *)
Lemma tool_rejection_ends_chain_witness :
  currentRecursionDepth service = 0
  /\ toolSettles (toolHost (hostDown (requests service))) = inr (Error "host down")
  /\ exists s' : State,
      run hostDown hello service = Some s'
      /\ trace s' = [EvRequest hello; EvReading "calling ";
                     EvCallTool (Some "fs") (Some "read") (JStr "a.txt");
                     EvError (Error "host down") false;
                     EvComplete {| reply_content := "calling "; toolCalls := [];
                                   inputTokens := 1; outputTokens := 2;
                                   error := Some (errorInfo (Error "host down")) |}]
      /\ toolCallsWithResponses s' = [].
Proof.
  split; [reflexivity|]. split; [reflexivity|].
  edestruct (tool_rejection_ends_chain toolMessages httpError abortError hostDown
               hello service) as (s' & Hs' & Ht & _ & Hc & _);
    [reflexivity | reflexivity | reflexivity | reflexivity | reflexivity | reflexivity
     | reflexivity |].
  exists s'. split; [exact Hs'|]. split; [exact Ht|]. exact Hc.
Defined.

(** The stream breaks after one chunk. *)
Lemma broken_stream_keeps_partial_text_witness :
  currentRecursionDepth service = 0
  /\ (exists (resp : Response) (stream : Stream),
        request (brokenStream (requests service)) = Resolves resp
        /\ body resp = Some stream
        /\ finish stream = Rejects (Error "network error"))
  /\ exists s' : State,
      run brokenStream hello service = Some s'
      /\ trace s' = [EvRequest hello; EvReading "par";
                     EvError (Error "network error") false;
                     EvComplete {| reply_content := "par"; toolCalls := [];
                                   inputTokens := 0; outputTokens := 0;
                                   error := Some (errorInfo (Error "network error")) |}].
Proof.
  split; [reflexivity|].
  split; [eexists _, _; split; [reflexivity|]; split; reflexivity|].
  edestruct (broken_stream_keeps_partial_text toolMessages httpError abortError brokenStream
               hello service) as (s' & Hs' & Ht & _);
    [reflexivity | reflexivity | reflexivity | reflexivity | reflexivity |].
  exists s'. split; [exact Hs'|]. exact Ht.
Defined.

(** A list left behind by an earlier call. *)
Lemma stale_tool_calls_are_dropped_witness :
  currentRecursionDepth service = 0
  /\ run plain hello (set_toolCalls [T3] service) = run plain hello service.
Proof.
  split; [reflexivity|].
  apply (stale_tool_calls_are_dropped toolMessages httpError abortError plain hello service).
  reflexivity.
Defined.

End AtMoreSamples.

(* ===================================================================== *)
(** * The chat store: the other operations *)
(* ===================================================================== *)

Section StoreOperations.
Import Store.

Variable JSON_parse : string -> option JsValue.
Variable JSON_stringify : JsValue -> string.
Variable isBlank : JsValue -> bool.
Variable isNotBlank : JsValue -> bool.
Variable toText : JsValue -> string.
Variable trim : string -> string.

Local Abbreviation processMessage := (processMessage JSON_parse).
Local Abbreviation createMessage := (createMessage JSON_parse JSON_stringify).
Local Abbreviation updateMessage :=
  (updateMessage JSON_parse JSON_stringify isBlank isNotBlank).
Local Abbreviation updateFields := (updateFields JSON_stringify isBlank isNotBlank).
Local Abbreviation appendReply := (appendReply toText).
Local Abbreviation fetchQuery := (fetchQuery trim).
Local Abbreviation sameId message := (fun m : Row => strictEq (get "id" m) (get "id" message)).

(** ** Identifiers and positions *)

Lemma strictEq_eq (a b : JsValue) : strictEq a b = true -> a = b.
Proof.
  destruct a, b; simpl; try done; intros H; f_equal.
  - by apply Bool.eqb_prop.
  - by apply Z.eqb_eq.
  - by apply String.eqb_eq.
Qed.

Lemma get_insert_ne (k k' : string) (v : JsValue) (m : Row) :
  k <> k' -> get k (<[k' := v]> m) = get k m.
Proof. intros Hk. unfold get. by rewrite lookup_insert_ne. Qed.

Lemma get_union_l (k : string) (v : JsValue) (m1 m2 : Row) :
  m1 !! k = Some v -> get k (m1 ∪ m2) = v.
Proof. intros H. unfold get. by rewrite (lookup_union_Some_l m1 m2 k v H). Qed.

Lemma get_processMessage (k : string) (m : Row) :
  k <> "toolCalls" -> get k (processMessage (Some m)) = get k m.
Proof. intros Hk. by rewrite processMessage_normalizes, get_insert_ne. Qed.

Lemma findIndex_Some {A : Type} (p : A -> bool) (l : list A) : forall i : nat,
  findIndex p l = Some i ->
  exists x : A, l !! i = Some x /\ p x = true /\ Forall (fun y => p y = false) (take i l).
Proof.
  induction l as [|x l IH]; intros i; simpl; [done|].
  destruct (p x) eqn:Hp.
  - intros [= <-]. exists x. repeat split; [done|]. constructor.
  - destruct (findIndex p l) as [j|] eqn:Hj; simpl; [|done]. intros [= <-].
    destruct (IH j eq_refl) as (y & Hy & Hpy & Hbefore).
    exists y. repeat split; [done | done |]. simpl. by constructor.
Qed.

Lemma findIndex_None {A : Type} (p : A -> bool) (l : list A) :
  findIndex p l = None -> Forall (fun y => p y = false) l.
Proof.
  induction l as [|x l IH]; simpl; [constructor|].
  destruct (p x) eqn:Hp; [done|].
  destruct (findIndex p l); simpl; [done|]. intros _. constructor; [done|]. by apply IH.
Qed.

Lemma findIndex_fresh {A : Type} (p : A -> bool) (l : list A) (x : A) :
  Forall (fun y => p y = false) l -> p x = true ->
  findIndex p (l ++ [x]) = Some (length l).
Proof.
  intros Hl Hx. induction Hl as [|y l Hy Hl IH]; simpl; [by rewrite Hx|].
  by rewrite Hy, IH.
Qed.

Lemma findIndex_absent {A : Type} (p : A -> bool) (l : list A) :
  Forall (fun y => p y = false) l -> findIndex p l = None.
Proof.
  intros Hl. induction Hl as [|y l Hy Hl IH]; simpl; [done|]. by rewrite Hy, IH.
Qed.

Lemma find_findIndex {A : Type} (p : A -> bool) (l : list A) :
  List.find p l = match findIndex p l with
                  | Some i => l !! i
                  | None => None
                  end.
Proof.
  induction l as [|x l IH]; simpl; [done|].
  destruct (p x); [done|]. rewrite IH. by destruct (findIndex p l).
Qed.

Lemma findIndex_insert {A : Type} (p : A -> bool) (l : list A) (x y : A) : forall i : nat,
  l !! i = Some x -> p y = p x -> findIndex p (<[i := y]> l) = findIndex p l.
Proof.
  induction l as [|z l IH]; intros i Hi Hp; [done|].
  destruct i as [|i]; simpl in *.
  - simplify_eq. by rewrite Hp.
  - by rewrite (IH i Hi Hp).
Qed.

(** ** [appendReply] *)

(** Chunks accumulate: for an id the store does not hold, [appendReply]
    changes nothing and returns the empty string; otherwise it returns the
    reply so far followed by the chunk, and two calls in a row leave the
    store as one call with both chunks would, all other messages as they
    were. *)
Theorem appendReply_accumulates (msgId c1 c2 : string) (st : StoreState) :
  match findIndex (hasId msgId) (messages st) with
  | None => appendReply msgId c1 st = (st, "")
  | Some i =>
      exists message : Row,
        messages st !! i = Some message
        /\ hasId msgId message = true
        /\ snd (appendReply msgId c1 st)
           = (if truthy (get "reply" message) then template toText (get "reply" message)
              else "") +:+ c1
        /\ snd (appendReply msgId c2 (fst (appendReply msgId c1 st)))
           = snd (appendReply msgId c1 st) +:+ c2
        /\ fst (appendReply msgId c2 (fst (appendReply msgId c1 st)))
           = fst (appendReply msgId (c1 +:+ c2) st)
        /\ messages (fst (appendReply msgId c1 st))
           = <[i := <["reply" := JStr (snd (appendReply msgId c1 st))]> message]> (messages st)
  end.
Proof.
  destruct (findIndex (hasId msgId) (messages st)) as [i|] eqn:Hi.
  - destruct (findIndex_Some _ _ _ Hi) as (message & Hm & Hid & _).
    exists message. split; [done|]. split; [done|].
    assert (forall r, hasId msgId (<["reply" := JStr r]> message) = hasId msgId message
                        /\ get "reply" (<["reply" := JStr r]> message) = JStr r) as Hkeep.
    { intros r. unfold hasId. by rewrite get_insert_ne, get_insert. }
    unfold Store.appendReply at 1 3 4 6 7. rewrite Hi, Hm. cbn [fst snd messages].
    split; [by destruct (truthy (get "reply" message))|].
    set (r1 := if truthy (get "reply" message)
               then template toText (get "reply" message) +:+ c1 else c1).
    unfold Store.appendReply. cbn [messages].
    rewrite (findIndex_insert _ _ message _ i Hm) by apply (Hkeep r1).
    rewrite Hi, Hm, list_lookup_insert_eq by (by apply lookup_lt_Some in Hm).
    cbn [fst snd messages].
    destruct (Hkeep r1) as [_ ->]. simpl.
    rewrite list_insert_insert_eq, insert_insert_eq.
    assert ((if negb (r1 =? "")%string then r1 +:+ c2 else c2) = r1 +:+ c2) as ->.
    { generalize r1. intros r. by destruct (String.eqb_spec r ""); [subst|]. }
    split; [done|]. split; [|done].
    subst r1. destruct (truthy (get "reply" message)); [by rewrite append_assoc|done].
  - unfold Store.appendReply. by rewrite Hi.
Qed.

(** ** [updateMessage] *)

Lemma updateMessage_unfold (message : Row) (result : bool) (st : StoreState) :
  updateMessage message result st
  = let '(msg, stats) := updateFields message (List.find (sameId message) (messages st)) in
    if truthy (get "id" message) && negb (Nat.eqb (length stats) 0) then
      if result then
        match findIndex (sameId msg) (messages st) with
        | Some index =>
            match messages st !! index with
            | Some currentMessage =>
                ({| messages := <[index := processMessage (Some (msg ∪ currentMessage))]>
                                  (messages st) |}, result)
            | None => (st, result)
            end
        | None => (st, result)
        end
      else (st, result)
    else (st, false).
Proof. reflexivity. Qed.

Lemma assign_lookup_ne (cond : bool) (k k' : string) (v : JsValue)
    (acc : Row * list string) :
  k' <> k -> fst (assign cond k' v acc) !! k = fst acc !! k.
Proof. intros Hk. unfold assign. destruct cond; [|done]. simpl. by rewrite lookup_insert_ne. Qed.

Lemma assign_lookup_eq (k : string) (v : JsValue) (acc : Row * list string) :
  fst (assign true k v acc) !! k = Some v.
Proof. simpl. by rewrite lookup_insert_eq. Qed.

Lemma assign_first (k : string) (v : JsValue) (acc : Row * list string) :
  snd (assign true k v acc) <> [].
Proof. simpl. by destruct (snd acc). Qed.

Lemma assign_grows (cond : bool) (k : string) (v : JsValue) (acc : Row * list string) :
  snd acc <> [] -> snd (assign cond k v acc) <> [].
Proof. intros H. destruct cond; [apply assign_first | done]. Qed.

Local Ltac columns :=
  try unfold Store.updateFields; cbv zeta; simpl negb;
  repeat first [rewrite assign_lookup_ne by done | rewrite !assign_lookup_eq].

(** The identifier of the row is the message's. *)
Lemma updateFields_id (message : Row) (cur : option Row) :
  fst (updateFields message cur) !! "id" = Some (get "id" message).
Proof. columns. simpl. by rewrite lookup_singleton_eq. Qed.

Lemma updateFields_sameId (message : Row) (cur : option Row) :
  sameId (fst (updateFields message cur)) = sameId message.
Proof.
  assert (get "id" (fst (updateFields message cur)) = get "id" message) as Hid.
  { unfold get at 1. by rewrite updateFields_id. }
  by rewrite Hid.
Qed.

(** The message found in the state and the columns to write: the entry is
    replaced by the merge, normalised. *)
Lemma updateMessage_found (message : Row) (st : StoreState) (i : nat) (cur : Row) :
  truthy (get "id" message) = true ->
  snd (updateFields message (Some cur)) <> [] ->
  findIndex (sameId message) (messages st) = Some i ->
  messages st !! i = Some cur ->
  updateMessage message true st
  = ({| messages := <[i := processMessage (Some (fst (updateFields message (Some cur)) ∪ cur))]>
                      (messages st) |}, true).
Proof.
  intros Hid Hstats Hi Hm.
  rewrite updateMessage_unfold, find_findIndex, Hi, Hm.
  pose proof (updateFields_sameId message (Some cur)) as Hsame.
  destruct (updateFields message (Some cur)) as [msg stats]. simpl in *.
  rewrite Hsame, Hid, Hi, Hm.
  by destruct stats.
Qed.

(** The reply that streaming has put into the state wins over the reply
    handed to [updateMessage]; the given reply is stored only where the
    state has none. *)
Theorem updateMessage_keeps_streamed_reply (message : Row) (st : StoreState)
    (i : nat) (cur : Row) :
  truthy (get "id" message) = true ->
  isNil (get "reply" message) = false ->
  findIndex (sameId message) (messages st) = Some i ->
  messages st !! i = Some cur ->
  exists updated : Row,
    updateMessage message true st
    = ({| messages := <[i := updated]> (messages st) |}, true)
    /\ get "reply" updated = or_else (get "reply" cur) (get "reply" message)
    /\ get "id" updated = get "id" cur.
Proof.
  intros Hid Hreply Hi Hm.
  eexists. split.
  - apply updateMessage_found; try done.
    unfold Store.updateFields. cbv zeta. rewrite Hreply.
    do 10 apply assign_grows. apply assign_first.
  - destruct (findIndex_Some _ _ _ Hi) as (cur' & Hm' & Hsame & _). simplify_eq.
    rewrite !get_processMessage by done. split.
    + apply get_union_l. columns. by rewrite Hreply.
    + rewrite (get_union_l _ _ _ _ (updateFields_id message (Some cur))).
      symmetry. by apply strictEq_eq.
Qed.

(** A message with tool calls is never deactivated: when the update
    carries [isActive] (whatever its value) and the tool calls of the
    update, or failing those the tool calls in the state, are a non-empty
    array, the flag is stored as 1. *)
Theorem updateMessage_stays_active (message : Row) (st : StoreState)
    (i : nat) (cur : Row) (call : JsValue) (calls : list JsValue) :
  truthy (get "id" message) = true ->
  isNil (get "isActive" message) = false ->
  or_else (get "toolCalls" message) (get "toolCalls" cur) = JArr (call :: calls) ->
  findIndex (sameId message) (messages st) = Some i ->
  messages st !! i = Some cur ->
  exists updated : Row,
    updateMessage message true st
    = ({| messages := <[i := updated]> (messages st) |}, true)
    /\ get "isActive" updated = JNum 1.
Proof.
  intros Hid Hactive Hcalls Hi Hm.
  assert (or_else (get "toolCalls" message) (or_else (get "toolCalls" cur) (JArr []))
          = JArr (call :: calls)) as Hchain.
  { unfold or_else in *. destruct (truthy (get "toolCalls" message)); [done|].
    rewrite Hcalls. reflexivity. }
  eexists. split.
  - apply updateMessage_found; try done.
    unfold Store.updateFields. cbv zeta. rewrite Hactive.
    do 2 apply assign_grows. apply assign_first.
  - rewrite get_processMessage by done.
    apply get_union_l. unfold Store.updateFields. cbv zeta. rewrite Hactive, Hchain.
    by columns.
Qed.

(** [updateMessage] touches one entry at most: the identifiers in the
    state stay as they are, in their order; messages with another
    identifier are not changed; nothing changes when the UPDATE fails, and
    the call reports success only for an identified message whose UPDATE
    went through. *)
Theorem updateMessage_touches_one_entry (message : Row) (result : bool) (st : StoreState) :
  map (get "id") (messages (fst (updateMessage message result st)))
  = map (get "id") (messages st)
  /\ (forall (j : nat) (m : Row),
        messages st !! j = Some m -> sameId message m = false ->
        messages (fst (updateMessage message result st)) !! j = Some m)
  /\ (snd (updateMessage message result st) = true ->
      result = true /\ truthy (get "id" message) = true)
  /\ (result = false -> fst (updateMessage message result st) = st).
Proof.
  rewrite updateMessage_unfold.
  pose proof (updateFields_sameId message (List.find (sameId message) (messages st)))
    as Hsame.
  pose proof (updateFields_id message (List.find (sameId message) (messages st))) as Hid.
  destruct (updateFields message (List.find (sameId message) (messages st)))
    as [msg stats]. simpl in Hsame, Hid. rewrite Hsame.
  destruct (truthy (get "id" message)); cbn [andb]; [|done].
  destruct (negb (length stats =? 0)%nat); [|done].
  destruct result; [|done].
  destruct (findIndex (sameId message) (messages st)) as [i|] eqn:Hi; [|done].
  destruct (findIndex_Some _ _ _ Hi) as (cur & Hm & Hcur & _).
  rewrite Hm. cbn [fst snd messages].
  split; [|split; [|done]].
  - rewrite list_fmap_insert, get_processMessage by done.
    rewrite (get_union_l _ _ _ _ Hid).
    apply list_insert_id. rewrite list_lookup_fmap, Hm. simpl.
    f_equal. apply strictEq_eq. exact Hcur.
  - intros j m Hj Hother. destruct (decide (i = j)) as [->|Hne].
    + simplify_eq. congruence.
    + by rewrite list_lookup_insert_ne.
Qed.

(** ** [createMessage] and [deleteMessage] *)

Lemma lookup_get (k : string) (v : JsValue) (m : Row) :
  get k m = v -> v <> JUndefined -> m !! k = Some v.
Proof. unfold get. destruct (m !! k); simpl; congruence. Qed.

(** Tool calls survive the encoding for the database: where parsing undoes
    [JSON.stringify] on the given array, the message the store exposes is
    the given one with the fresh identifier and the timestamp, and it is
    appended to the messages. *)
Theorem createMessage_round_trip (msgId : string) (createdAt : Z) (message : Row)
    (st : StoreState) (calls : list JsValue) :
  get "toolCalls" message = JArr calls ->
  JSON_parse (JSON_stringify (JArr calls)) = Some (JArr calls) ->
  createMessage msgId createdAt true message st
  = ({| messages := messages st
                    ++ [<["createdAt" := JNum createdAt]> (<["id" := JStr msgId]> message)] |},
     Some (<["createdAt" := JNum createdAt]> (<["id" := JStr msgId]> message))).
Proof.
  intros Hcalls Hparse. unfold Store.createMessage.
  rewrite Hcalls. simpl truthy. cbv zeta. cbv iota.
  assert (processMessage
            (Some (<["createdAt" := JNum createdAt]>
                     (<["toolCalls" := JStr (JSON_stringify (JArr calls))]>
                        (<["id" := JStr msgId]> message))))
          = <["createdAt" := JNum createdAt]> (<["id" := JStr msgId]> message)) as ->; [|done].
  rewrite processMessage_normalizes.
  rewrite get_insert_ne, get_insert by done. simpl. rewrite Hparse.
  apply lookup_get in Hcalls; [|done].
  apply map_eq. intros k.
  destruct (decide (k = "toolCalls")) as [->|Hk].
  - rewrite lookup_insert_eq, !lookup_insert_ne by done. by rewrite Hcalls.
  - rewrite (lookup_insert_ne _ "toolCalls") by done.
    destruct (decide (k = "createdAt")) as [->|Hc].
    + by rewrite !lookup_insert_eq.
    + rewrite !(lookup_insert_ne _ "createdAt") by done.
      by rewrite (lookup_insert_ne _ "toolCalls") by done.
Qed.

Lemma delete_appended {A : Type} (l : list A) (x : A) : delete (length l) (l ++ [x]) = l.
Proof. induction l as [|y l IH]; simpl; [done|]. by rewrite IH. Qed.

(** Creating a message and deleting it again leaves the messages as they
    were, given that the fresh identifier is not in use. *)
Theorem createMessage_then_deleteMessage (msgId : string) (createdAt : Z) (message : Row)
    (st : StoreState) :
  Forall (fun m => hasId msgId m = false) (messages st) ->
  deleteMessage msgId true (fst (createMessage msgId createdAt true message st))
  = Some (st, true).
Proof.
  intros Hfresh. unfold Store.createMessage, deleteMessage. cbn [fst snd messages negb].
  rewrite findIndex_fresh; [| done |].
  - rewrite delete_appended.
    by destruct st.
  - unfold hasId. rewrite get_processMessage by done.
    rewrite !get_insert_ne, get_insert by done. simpl. by apply String.eqb_refl.
Qed.

(** Deleting needs the database: when the DELETE fails the call throws and
    the state is not looked at; when it succeeds, an identifier the state
    does not hold changes nothing, and otherwise exactly the first message
    with that identifier goes. *)
Theorem deleteMessage_removes_first (id : string) (st : StoreState) :
  deleteMessage id false st = None
  /\ exists st' : StoreState,
      deleteMessage id true st = Some (st', true)
      /\ match findIndex (hasId id) (messages st) with
         | None => st' = st
         | Some i =>
             messages st' = take i (messages st) ++ drop (S i) (messages st)
             /\ Forall (fun m => hasId id m = false) (take i (messages st))
             /\ (length (messages st) = S (length (messages st')))%nat
         end.
Proof.
  split; [done|]. unfold deleteMessage. simpl.
  destruct (findIndex (hasId id) (messages st)) as [i|] eqn:Hi; [|by eexists].
  destruct (findIndex_Some _ _ _ Hi) as (m & Hm & _ & Hbefore).
  eexists. split; [done|]. cbn [messages].
  split; [by rewrite delete_take_drop|]. split; [done|].
  rewrite length_delete by (by eexists). apply lookup_lt_Some in Hm. lia.
Qed.

(** Streaming a reply and deleting a message keep what the store
    promises about [toolCalls]: every message still holds an array. *)
Theorem replies_and_deletions_keep_arrays (st : StoreState) :
  Forall (fun m => isArray (get "toolCalls" m) = true) (messages st) ->
  (forall msgId chunk : string,
      Forall (fun m => isArray (get "toolCalls" m) = true)
             (messages (fst (appendReply msgId chunk st))))
  /\ (forall (id : string) (ok : bool) (st' : StoreState) (deleted : bool),
        deleteMessage id ok st = Some (st', deleted) ->
        Forall (fun m => isArray (get "toolCalls" m) = true) (messages st')).
Proof.
  intros Harr. split.
  - intros msgId chunk. unfold Store.appendReply.
    destruct (findIndex (hasId msgId) (messages st)) as [i|]; [|done].
    destruct (messages st !! i) as [message|] eqn:Hm; [|done]. cbn [fst messages].
    apply Forall_insert; [done|]. rewrite get_insert_ne by done.
    by apply (Forall_lookup_1 _ _ _ _ Harr Hm).
  - intros id ok st' fin. unfold deleteMessage.
    destruct ok; [|done]. simpl.
    destruct (findIndex (hasId id) (messages st)) as [i|]; intros [= <- <-]; [|done].
    cbn [messages]. rewrite delete_take_drop. apply Forall_app. split.
    + by apply Forall_take.
    + by apply Forall_drop.
Qed.

(** ** The query of [fetchMessages] *)

(** The statement is one of two fixed texts, whatever the chat, the keyword
    and the numbers are; every value travels as a parameter, one per
    placeholder; the limit handed over lies between 1 and 1000 (100 stands
    in for 0) and the offset is not negative. *)
Theorem fetchQuery_is_parameterized (chatId : string) (limit offset : Z) (keyword : string) :
  exists (sql : string) (patterns : list JsValue) (l o : Z),
    fetchQuery chatId limit offset keyword
    = (sql, JStr chatId :: patterns ++ [JNum l; JNum o])
    /\ placeholders sql = length (JStr chatId :: patterns ++ [JNum l; JNum o])
    /\ (sql = selectMessages +:+ orderClause /\ patterns = []
        \/ sql = (selectMessages +:+ keywordClause) +:+ orderClause
           /\ patterns = [JStr ("%" +:+ trim keyword +:+ "%");
                          JStr ("%" +:+ trim keyword +:+ "%")]
           /\ trim keyword <> "")
    /\ 1 <= l <= 1000
    /\ 0 <= o
    /\ (1 <= limit <= 1000 -> l = limit)
    /\ (limit = 0 -> l = 100)
    /\ (0 <= offset -> o = offset).
Proof.
  unfold Store.fetchQuery.
  assert (1 <= sanitizedLimit limit <= 1000
          /\ (1 <= limit <= 1000 -> sanitizedLimit limit = limit)
          /\ (limit = 0 -> sanitizedLimit limit = 100)) as (Hl & Hlid & Hl0).
  { unfold sanitizedLimit. destruct (Z.eqb_spec limit 0); lia. }
  assert (0 <= sanitizedOffset offset
          /\ (0 <= offset -> sanitizedOffset offset = offset)) as (Ho & Hoid).
  { unfold sanitizedOffset. destruct (Z.eqb_spec offset 0); lia. }
  destruct (negb (keyword =? "")%string && negb (trim keyword =? "")%string) eqn:Hk.
  - exists ((selectMessages +:+ keywordClause) +:+ orderClause),
      [JStr ("%" +:+ trim keyword +:+ "%"); JStr ("%" +:+ trim keyword +:+ "%")],
      (sanitizedLimit limit), (sanitizedOffset offset).
    split; [done|]. split; [reflexivity|]. split; [|done].
    right. split; [done|]. split; [done|].
    apply andb_true_iff in Hk as [_ Hk]. intros Heq. rewrite Heq in Hk. done.
  - exists (selectMessages +:+ orderClause), [],
      (sanitizedLimit limit), (sanitizedOffset offset).
    split; [done|]. split; [reflexivity|]. split; [by left|done].
Qed.

End StoreOperations.

Section SlotProperties.
Import Store.

Variable toText : JsValue -> string.

Local Abbreviation getCurState := (getCurState toText).
Local Abbreviation chatKey := (chatKey toText).

(** The per-chat slots: what [updateStates] writes for the chat in hand is
    what [getCurState] reads, merged over what was there; two updates merge
    into one; a keyword set is the keyword got; and no other chat's slot is
    touched. *)
Theorem slots_are_per_chat (s : Session) (chatId other keyword : string)
    (update later : Row) :
  getCurState (updateStates (chatKey (chat s)) update s) = update ∪ getCurState s
  /\ updateStates chatId later (updateStates chatId update s)
     = updateStates chatId (later ∪ update) s
  /\ getKeyword chatId (setKeyword chatId keyword s) = keyword
  /\ (other <> chatId ->
      states (updateStates chatId update s) !! other = states s !! other
      /\ getKeyword other (setKeyword chatId keyword s) = getKeyword other s).
Proof.
  split; [|split; [|split]].
  - unfold Store.getCurState, updateStates. simpl. by rewrite lookup_insert_eq.
  - unfold updateStates. simpl. f_equal.
    rewrite lookup_insert_eq, insert_insert_eq. simpl. by rewrite (assoc_L (∪)).
  - unfold getKeyword, setKeyword. simpl. rewrite lookup_insert_eq.
    by destruct (String.eqb_spec keyword ""); [subst|].
  - intros Hne. unfold getKeyword, setKeyword, updateStates. simpl.
    by rewrite !lookup_insert_ne.
Qed.

End SlotProperties.

(* ===================================================================== *)
(** * The store operations at the sample inputs *)
(* ===================================================================== *)

Section StoreAtSamples.
Import Store.
Import Sample.

Local Abbreviation update := (Store.updateMessage parse stringify blank notBlank).
Local Abbreviation create := (Store.createMessage parse stringify).

(** The closing update arrives after "Hel" was streamed: "Hel" stays. *)
Lemma updateMessage_keeps_streamed_reply_witness :
  truthy (get "id" closing) = true
  /\ isNil (get "reply" closing) = false
  /\ messages stored !! 0%nat = Some streaming
  /\ exists updated : Row,
      update closing true stored = ({| messages := [updated] |}, true)
      /\ get "reply" updated = JStr "Hel".
Proof.
  split; [reflexivity|]. split; [reflexivity|]. split; [reflexivity|].
  destruct (updateMessage_keeps_streamed_reply parse stringify blank notBlank
              closing stored 0 streaming) as (updated & Hu & Hr & _);
    [reflexivity | reflexivity | reflexivity | reflexivity |].
  exists updated. split; [exact Hu | exact Hr].
Defined.

(** The closing update asks for [isActive = 0]; the message has a tool
    call, so it stays active. *)
Lemma updateMessage_stays_active_witness :
  get "isActive" closing = JNum 0
  /\ or_else (get "toolCalls" closing) (get "toolCalls" streaming)
     = JArr [JObj [("name", JStr "fs--read")]]
  /\ exists updated : Row,
      update closing true stored = ({| messages := [updated] |}, true)
      /\ get "isActive" updated = JNum 1.
Proof.
  split; [reflexivity|]. split; [reflexivity|].
  destruct (updateMessage_stays_active parse stringify blank notBlank
              closing stored 0 streaming (JObj [("name", JStr "fs--read")]) [])
    as (updated & Hu & Ha);
    [reflexivity | reflexivity | reflexivity | reflexivity | reflexivity |].
  exists updated. split; [exact Hu | exact Ha].
Defined.

(** A message that comes with one tool call: the call is written to the
    database as text and read back as the array it was. *)
Lemma createMessage_round_trip_witness :
  get "toolCalls" called = JArr [Completion.toolCallObject T3]
  /\ encode (JArr [Completion.toolCallObject T3]) = "[db--query]"
  /\ decode "[db--query]" = Some (JArr [Completion.toolCallObject T3])
  /\ (exists created : Row,
        snd (Store.createMessage decode encode "msg_2" 1700000000 true called stored)
        = Some created
        /\ get "id" created = JStr "msg_2"
        /\ get "prompt" created = JStr "count the rows"
        /\ get "toolCalls" created = JArr [Completion.toolCallObject T3]).
Proof.
  split; [reflexivity|]. split; [reflexivity|]. split; [reflexivity|].
  rewrite (createMessage_round_trip decode encode "msg_2" 1700000000 called stored
             [Completion.toolCallObject T3]); [| reflexivity | reflexivity].
  eexists. split; [reflexivity|]. repeat split; reflexivity.
Defined.

(** The draft is created and deleted again. *)
Lemma createMessage_then_deleteMessage_witness :
  Forall (fun m => hasId "msg_2" m = false) (messages stored)
  /\ deleteMessage "msg_2" true (fst (create "msg_2" 1700000000 true draft stored))
     = Some (stored, true).
Proof.
  assert (Forall (fun m => hasId "msg_2" m = false) (messages stored)) as Hfresh
    by (repeat constructor).
  split; [exact Hfresh|].
  apply (createMessage_then_deleteMessage parse stringify "msg_2" 1700000000 draft stored
           Hfresh).
Defined.

(** The store with the streamed message. *)
Lemma replies_and_deletions_keep_arrays_witness :
  Forall (fun m => isArray (get "toolCalls" m) = true) (messages stored)
  /\ Forall (fun m => isArray (get "toolCalls" m) = true)
            (messages (fst (appendReply (fun _ => "") "msg_1" "lo" stored))).
Proof.
  assert (Forall (fun m => isArray (get "toolCalls" m) = true) (messages stored)) as Harr
    by (repeat constructor).
  split; [exact Harr|].
  apply (replies_and_deletions_keep_arrays (fun _ => "") stored Harr).
Defined.

End StoreAtSamples.

(* ===================================================================== *)
(** * The chat store: what it exposes in [toolCalls] *)
(* ===================================================================== *)

Section StoreExposes.
Import Store.

Variable JSON_parse : string -> option JsValue.
Variable JSON_stringify : JsValue -> string.
Variable tempChatId : string.
Variable isBlank : JsValue -> bool.
Variable isNotBlank : JsValue -> bool.

Local Abbreviation processMessage := (processMessage JSON_parse).
Local Abbreviation createMessage := (createMessage JSON_parse JSON_stringify).
Local Abbreviation updateMessage :=
  (updateMessage JSON_parse JSON_stringify isBlank isNotBlank).
Local Abbreviation updateFields := (updateFields JSON_stringify isBlank isNotBlank).
Local Abbreviation fetchMessages := (fetchMessages JSON_parse tempChatId).
Local Abbreviation normalized := (normalized JSON_parse).
Local Abbreviation sameId message := (fun m : Row => strictEq (get "id" m) (get "id" message)).
Local Abbreviation arrays := (Forall (fun m : Row => isArray (get "toolCalls" m) = true)).

(** What [updateMessage] writes into the [toolCalls] column: nothing for
    null and undefined, the text of an array, any other value as it is. *)
Lemma updateFields_toolCalls (message : Row) (cur : option Row) :
  fst (updateFields message cur) !! "toolCalls"
  = if isNil (get "toolCalls" message) then None
    else Some (if isArray (get "toolCalls" message)
               then JStr (JSON_stringify (get "toolCalls" message))
               else get "toolCalls" message).
Proof.
  unfold Store.updateFields. cbv zeta.
  repeat rewrite assign_lookup_ne by done.
  destruct (isNil (get "toolCalls" message)); simpl negb.
  - unfold assign at 1. cbv iota.
    repeat rewrite assign_lookup_ne by done. simpl. by rewrite lookup_singleton_ne.
  - by rewrite assign_lookup_eq.
Qed.

Lemma get_union_toolCalls (message cur : Row) (c : option Row) :
  get "toolCalls" (fst (updateFields message c) ∪ cur)
  = if isNil (get "toolCalls" message) then get "toolCalls" cur
    else if isArray (get "toolCalls" message)
         then JStr (JSON_stringify (get "toolCalls" message))
         else get "toolCalls" message.
Proof.
  pose proof (updateFields_toolCalls message c) as Hcol.
  destruct (isNil (get "toolCalls" message)).
  - unfold get. by rewrite lookup_union_r.
  - by apply get_union_l.
Qed.

(** C10: the [toolCalls] of every message the store exposes is the stored
    value normalised by the rule of [processMessage]: an array is kept,
    text is parsed and kept when it parses to an array, and anything else
    (null, undefined, text that does not parse, a parsed value that is no
    array) gives the empty array.
    - [createMessage] returns, and appends to the state, the given message
      with the fresh id, the timestamp and the normalised text it has
      written to the database; it exposes nothing when the INSERT fails.
    - [updateMessage] replaces the entry by the merge of the columns it
      has written over the entry, with the normalised [toolCalls] of the
      merge (the text of the given array, or what the entry had); it
      leaves the state alone in every other case.
    - [fetchMessages] returns, and puts into the state, every row with its
      [toolCalls] normalised (a falsy value gives the empty array at once).
    In each case the value exposed is an array, and a state that holds
    arrays only keeps doing so. *)
Theorem store_exposes_toolCalls_as_arrays :
  (forall v : JsValue,
      normalized v
      = match v with
        | JArr items => JArr items
        | JStr str => match JSON_parse str with
                      | Some (JArr items) => JArr items
                      | _ => JArr []
                      end
        | _ => JArr []
        end
      /\ isArray (normalized v) = true)
  /\ (forall m : Row,
        processMessage (Some m) = <["toolCalls" := normalized (get "toolCalls" m)]> m)
  /\ isArray (get "toolCalls" (processMessage None)) = true
  /\ (forall (msgId : string) (createdAt : Z) (message : Row) (st : StoreState),
        let stored := JStr (if truthy (get "toolCalls" message)
                            then JSON_stringify (get "toolCalls" message)
                            else "[]") in
        let created := <["toolCalls" := normalized stored]>
                         (<["createdAt" := JNum createdAt]>
                            (<["id" := JStr msgId]> message)) in
        createMessage msgId createdAt true message st
        = ({| messages := messages st ++ [created] |}, Some created)
        /\ isArray (get "toolCalls" created) = true
        /\ createMessage msgId createdAt false message st = (st, None))
  /\ (forall (message : Row) (result : bool) (st : StoreState),
        let columns := updateFields message (List.find (sameId message) (messages st)) in
        let given := get "toolCalls" message in
        updateMessage message result st
        = (if truthy (get "id" message) && negb (Nat.eqb (length (snd columns)) 0) && result
           then match findIndex (sameId message) (messages st) with
                | Some index =>
                    match messages st !! index with
                    | Some current =>
                        ({| messages :=
                              <[index :=
                                  <["toolCalls" :=
                                      normalized (if isNil given
                                                  then get "toolCalls" current
                                                  else if isArray given
                                                       then JStr (JSON_stringify given)
                                                       else given)]>
                                    (fst columns ∪ current)]> (messages st) |}, true)
                    | None => (st, true)
                    end
                | None => (st, true)
                end
           else (st, false))
        /\ (arrays (messages st) ->
            arrays (messages (fst (updateMessage message result st)))))
  /\ (forall (chatId : string) (rows : option (list Row)) (st : StoreState),
        fetchMessages chatId rows st
        = (if String.eqb chatId tempChatId then ({| messages := [] |}, [])
           else match rows with
                | Some found =>
                    let exposed :=
                      map (fun row =>
                             <["toolCalls" := if truthy (get "toolCalls" row)
                                              then normalized (get "toolCalls" row)
                                              else JArr []]> row) found in
                    ({| messages := exposed |}, exposed)
                | None => (st, [])
                end)
        /\ arrays (snd (fetchMessages chatId rows st))
        /\ (arrays (messages st) -> arrays (messages (fst (fetchMessages chatId rows st)))))
  /\ (JSON_parse "" = None ->
      forall v : JsValue,
        (if truthy v then normalized v else JArr []) = normalized v).
Proof.
  split; [intros v; split; [done | apply normalized_array]|].
  split; [apply processMessage_normalizes|].
  split; [done|].
  split; [|split; [|split]].
  - intros msgId createdAt message st stored created.
    assert (processMessage
              (Some (<["createdAt" := JNum createdAt]>
                       (<["toolCalls" := stored]> (<["id" := JStr msgId]> message))))
            = created) as Hcreated.
    { rewrite processMessage_normalizes, get_insert_ne, get_insert by done.
      subst created. apply map_eq. intros k.
      destruct (decide (k = "toolCalls")) as [->|Hk].
      - by rewrite !lookup_insert_eq.
      - rewrite !(lookup_insert_ne _ "toolCalls") by done.
        destruct (decide (k = "createdAt")) as [->|Hc].
        + by rewrite !lookup_insert_eq.
        + rewrite !(lookup_insert_ne _ "createdAt") by done.
          by rewrite (lookup_insert_ne _ "toolCalls") by done. }
    split; [|split; [|done]].
    + unfold Store.createMessage. fold stored. cbv zeta. cbv iota. by rewrite Hcreated.
    + subst created. rewrite get_insert. apply normalized_array.
  - intros message result st columns given. split.
    + rewrite updateMessage_unfold. fold columns.
      pose proof (updateFields_sameId JSON_stringify isBlank isNotBlank message
                    (List.find (sameId message) (messages st))) as Hsame.
      pose proof (get_union_toolCalls message) as Hcol.
      fold columns in Hsame. fold given in Hcol.
      specialize (fun cur => Hcol cur (List.find (sameId message) (messages st))).
      fold columns in Hcol. clearbody columns.
      destruct columns as [msg stats]. cbn [fst snd] in *. rewrite Hsame.
      destruct (truthy (get "id" message) && negb (length stats =? 0)%nat);
        cbn [andb]; [|done].
      destruct result; [|done].
      destruct (findIndex (sameId message) (messages st)) as [index|]; [|done].
      destruct (messages st !! index) as [current|]; [|done].
      by rewrite processMessage_normalizes, Hcol.
    + intros Harr.
      destruct (updateMessage_array JSON_parse JSON_stringify isBlank isNotBlank
                  message result st) as [->|(index & updated & -> & Ha)]; [done|].
      by apply Forall_insert.
  - intros chatId rows st.
    pose proof (fetchMessages_array JSON_parse tempChatId chatId rows st) as [Ha Hst].
    split; [|split; [done|]].
    + unfold Store.fetchMessages.
      destruct (String.eqb chatId tempChatId); [done|].
      destruct rows as [found|]; [|done]. cbv zeta.
      assert (map (fun msg => if truthy (get "toolCalls" msg)
                              then processMessage (Some msg)
                              else <["toolCalls" := JArr []]> msg) found
              = map (fun row => <["toolCalls" := if truthy (get "toolCalls" row)
                                                 then normalized (get "toolCalls" row)
                                                 else JArr []]> row) found) as ->; [|done].
      apply map_ext. intros row. destruct (truthy (get "toolCalls" row)); [|done].
      apply processMessage_normalizes.
    + intros Harr. destruct Hst as [-> | ->]; done.
  - intros Hempty v. destruct v as [| |b|n|str|items|fields]; simpl; try done.
    + by destruct b.
    + by destruct (n =? 0).
    + destruct (String.eqb_spec str "") as [->|]; simpl; [|done].
      unfold Store.normalized. by rewrite Hempty.
Qed.

End StoreExposes.

(* ===================================================================== *)
(** * From the completion to the page *)
(* ===================================================================== *)

Section CompletionToPage.
Import Store.
Import Completion.
Import Display.

Variable JSON_parse : string -> option JsValue.
Variable JSON_stringify : JsValue -> string.
Variable isBlank : JsValue -> bool.
Variable isNotBlank : JsValue -> bool.
Variable trim : string -> string.

Local Abbreviation processMessage := (processMessage JSON_parse).
Local Abbreviation updateMessage :=
  (updateMessage JSON_parse JSON_stringify isBlank isNotBlank).
Local Abbreviation toolCallPanel := (toolCallPanel JSON_parse trim).
Local Abbreviation isValidCall := (isValidCall trim).

Local Ltac fields :=
  unfold get;
  repeat first [rewrite lookup_insert_eq | rewrite lookup_insert_ne by done
               | rewrite lookup_singleton_eq | rewrite lookup_singleton_ne by done];
  simpl default.

Lemma assign_lookup_cond (cond : bool) (k : string) (v : JsValue)
    (acc : Row * list string) :
  cond = true -> fst (assign cond k v acc) !! k = Some v.
Proof. intros ->. apply assign_lookup_eq. Qed.

Local Ltac column :=
  unfold Store.updateFields; cbv zeta;
  repeat rewrite assign_lookup_ne by done.

(** Where the context's [updateMessage] is the store's: the default
    completion callback brings the tool calls of the completion into the
    state as an array (given that parsing undoes [JSON.stringify] on it),
    marks the message active exactly when there is a tool call, stores both
    token counts, and leaves a reply already streamed as it is. *)
Theorem completion_reaches_the_store (messageId : string) (r : ChatResponseMessage)
    (st : StoreState) (i : nat) (cur : Row) :
  messageId <> "" ->
  findIndex (hasId messageId) (messages st) = Some i ->
  messages st !! i = Some cur ->
  JSON_parse (JSON_stringify (JArr (map toolCallObject (toolCalls r))))
  = Some (JArr (map toolCallObject (toolCalls r))) ->
  exists message updated : Row,
    completedMessage messageId r = Some message
    /\ updateMessage message true st
       = ({| messages := <[i := updated]> (messages st) |}, true)
    /\ get "toolCalls" updated = JArr (map toolCallObject (toolCalls r))
    /\ get "isActive" updated = JNum (if (0 <? length (toolCalls r))%nat then 1 else 0)
    /\ get "inputTokens" updated = JNum (inputTokens r)
    /\ get "outputTokens" updated = JNum (outputTokens r)
    /\ get "reply" updated = or_else (get "reply" cur) (JStr (reply_content r)).
Proof.
  intros Hid Hi Hm Hparse. unfold completedMessage.
  destruct (String.eqb_spec messageId "") as [|_]; [done|].
  set (message := ({[ "id" := JStr messageId;
                      "reply" := JStr (reply_content r);
                      "toolCalls" := JArr (map toolCallObject (toolCalls r));
                      "inputTokens" := JNum (inputTokens r);
                      "outputTokens" := JNum (outputTokens r);
                      "isActive" := JNum (if (0 <? length (toolCalls r))%nat then 1 else 0) ]}
                   : Row)).
  assert (get "id" message = JStr messageId) as Gid by (subst message; by fields).
  assert (get "reply" message = JStr (reply_content r)) as Greply
    by (subst message; by fields).
  assert (get "toolCalls" message = JArr (map toolCallObject (toolCalls r))) as Gcalls
    by (subst message; by fields).
  assert (get "inputTokens" message = JNum (inputTokens r)) as Gin
    by (subst message; by fields).
  assert (get "outputTokens" message = JNum (outputTokens r)) as Gout
    by (subst message; by fields).
  assert (get "isActive" message
          = JNum (if (0 <? length (toolCalls r))%nat then 1 else 0)) as Gactive
    by (subst message; by fields).
  clearbody message.
  assert (truthy (get "id" message) = true) as Htruthy.
  { rewrite Gid. simpl. by destruct (String.eqb_spec messageId ""). }
  exists message. eexists. split; [done|]. split.
  - apply updateMessage_found; try done.
    + unfold Store.updateFields. cbv zeta. rewrite Greply. simpl negb.
      do 10 apply assign_grows. apply assign_first.
    + rewrite Gid. exact Hi.
  - rewrite processMessage_normalizes, get_insert.
    rewrite !get_insert_ne by done.
    assert (forall k v, fst (updateFields JSON_stringify isBlank isNotBlank message (Some cur))
                          !! k = Some v ->
                        get k (fst (updateFields JSON_stringify isBlank isNotBlank message
                                      (Some cur)) ∪ cur) = v) as Hfrom
      by (intros k v; apply get_union_l).
    repeat split.
    + rewrite (Hfrom "toolCalls" (JStr (JSON_stringify
                                          (JArr (map toolCallObject (toolCalls r)))))).
      * unfold normalized. by rewrite Hparse.
      * column. rewrite Gcalls. by apply assign_lookup_cond.
    + apply Hfrom. column. rewrite Gactive, Gcalls.
      rewrite assign_lookup_cond by done.
      by destruct (toolCalls r).
    + apply Hfrom. column. rewrite Gin. by apply assign_lookup_cond.
    + apply Hfrom. column. rewrite Gout. by apply assign_lookup_cond.
    + apply Hfrom. column. rewrite Greply. by apply assign_lookup_cond.
Qed.

Lemma filter_map {A B : Type} (p : B -> bool) (f : A -> B) (l : list A) :
  List.filter p (map f l) = map f (List.filter (fun x => p (f x)) l).
Proof.
  induction l as [|x l IH]; simpl; [done|]. destruct (p (f x)); simpl; by rewrite IH.
Qed.




End CompletionToPage.

(* ===================================================================== *)
(** * From the completion to the page, at the sample inputs *)
(* ===================================================================== *)

Section PageAtSamples.
Import Store.
Import Completion.
Import Display.
Import Sample.

(** The completion that ran [T3] reaches the streamed message. *)
Lemma completion_reaches_the_store_witness :
  findIndex (hasId "msg_1") (messages stored) = Some 0%nat
  /\ decode (encode (JArr (map toolCallObject (toolCalls completion))))
     = Some (JArr (map toolCallObject (toolCalls completion)))
  /\ exists message updated : Row,
      completedMessage "msg_1" completion = Some message
      /\ updateMessage decode encode blank notBlank message true stored
         = ({| messages := [updated] |}, true)
      /\ get "toolCalls" updated = JArr [toolCallObject T3]
      /\ get "isActive" updated = JNum 1
      /\ get "reply" updated = JStr "Hel".
Proof.
  split; [reflexivity|]. split; [reflexivity|].
  destruct (completion_reaches_the_store decode encode blank notBlank
              "msg_1" completion stored 0 streaming)
    as (message & updated & Hc & Hu & Ht & Ha & _ & _ & Hr);
    [discriminate | reflexivity | reflexivity | reflexivity |].
  exists message, updated. split; [exact Hc|]. split; [exact Hu|].
  split; [exact Ht|]. split; [exact Ha|]. exact Hr.
Defined.



End PageAtSamples.

(* ===================================================================== *)
(** * Loading a document: what the returned text looks like *)
(* ===================================================================== *)

Section LoadedText.
Import Loader.

Local Abbreviation sep := [CR; LF; CR; LF].
Local Abbreviation kept := (fun i : Text => match trim i with [] => false | _ :: _ => true end).

(** ** Squeezing runs *)

Lemma squeeze_tidy (p : N -> bool) : p SP = true ->
  forall (s : Text) (inRun : bool), tidy p inRun (squeeze p inRun s) = true.
Proof.
  intros Hsp. induction s as [|c s IH]; intros inRun; simpl; [done|].
  destruct (p c) eqn:Hc.
  - destruct inRun; [apply IH|]. simpl. rewrite Hsp. simpl. apply IH.
  - simpl. rewrite Hc. apply IH.
Qed.

Lemma squeeze_id (p : N -> bool) : forall (s : Text) (inRun : bool),
  tidy p inRun s = true -> squeeze p inRun s = s.
Proof.
  induction s as [|c s IH]; intros inRun; simpl; [done|].
  destruct (p c) eqn:Hc.
  - destruct inRun; simpl; [done|]. intros H.
    apply andb_true_iff in H as [Hc' Hs]. apply N.eqb_eq in Hc'. subst c.
    by rewrite (IH true Hs).
  - intros Hs. by rewrite (IH false Hs).
Qed.

Lemma squeeze_visible (p : N -> bool) :
  (forall c, p c = true -> isWhiteSpace c = true) ->
  forall (s : Text) (inRun : bool), visible (squeeze p inRun s) = visible s.
Proof.
  intros Hp. induction s as [|c s IH]; intros inRun; simpl; [done|].
  destruct (p c) eqn:Hc.
  - unfold visible. simpl. rewrite (Hp c Hc). simpl.
    destruct inRun; [apply IH|]. simpl. apply IH.
  - unfold visible. simpl. destruct (isWhiteSpace c); simpl; [apply IH|].
    f_equal. apply IH.
Qed.

Lemma squeeze_app_stop (p : N -> bool) (c : N) (s2 : Text) : p c = false ->
  forall (s1 : Text) (inRun : bool),
    squeeze p inRun (s1 ++ c :: s2) = squeeze p inRun s1 ++ c :: squeeze p false s2.
Proof.
  intros Hc. induction s1 as [|d s1 IH]; intros inRun; simpl.
  - by rewrite Hc.
  - destruct (p d); [destruct inRun|]; simpl; by rewrite IH.
Qed.

Lemma tidy_spaces : forall (s : Text) (prev prev' : bool),
  (prev' = true -> prev = true) ->
  tidy isWhiteSpace prev s = true -> tidy isSpace prev' s = true.
Proof.
  induction s as [|c s IH]; intros prev prev' Hprev; simpl; [done|].
  destruct (isSpace c) eqn:Hsp.
  - apply N.eqb_eq in Hsp. subst c. simpl.
    destruct prev; simpl; [done|]. intros Hs.
    destruct prev'; [by discriminate (Hprev eq_refl)|]. simpl.
    by apply (IH true true).
  - destruct (isWhiteSpace c).
    + intros H. apply andb_true_iff in H as [H _]. apply andb_true_iff in H as [_ H].
      unfold isSpace in Hsp. congruence.
    + by apply IH.
Qed.

Lemma tidy_no_newline : forall (s : Text) (prev : bool),
  tidy isWhiteSpace prev s = true -> Forall (fun c => c <> CR /\ c <> LF) s.
Proof.
  induction s as [|c s IH]; intros prev; simpl; [constructor|].
  destruct (isWhiteSpace c) eqn:Hc.
  - intros H. apply andb_true_iff in H as [H Hs]. apply andb_true_iff in H as [_ H].
    apply N.eqb_eq in H. subst c. constructor; [done|]. by apply (IH true).
  - intros Hs. constructor; [|by apply (IH false)].
    split; intros ->; done.
Qed.

(** ** Splitting at the blank lines *)

Lemma starts_prefix : forall pattern s : Text,
  starts pattern s = true -> s = pattern ++ drop (length pattern) s.
Proof.
  induction pattern as [|a pattern IH]; intros s; simpl; [done|].
  destruct s as [|c s]; [done|]. intros H. apply andb_true_iff in H as [Ha Hs].
  apply N.eqb_eq in Ha. subst c. simpl. f_equal. by apply IH.
Qed.

Lemma separator_blank (s : Text) (n : nat) :
  separator s = Some n ->
  (0 < n)%nat /\ forallb isWhiteSpace (take n s) = true.
Proof.
  unfold separator.
  repeat match goal with
         | |- context [starts ?pat s] =>
             let H := fresh "H" in
             destruct (starts pat s) eqn:H;
             [apply starts_prefix in H; intros [= <-]; rewrite H; split; [lia | done] |]
         end.
  done.
Qed.

Lemma separator_none (c : N) (s : Text) : c <> CR -> c <> LF -> separator (c :: s) = None.
Proof.
  intros Hcr Hlf. unfold separator. cbn [starts].
  apply not_eq_sym in Hcr, Hlf. apply N.eqb_neq in Hcr, Hlf. by rewrite Hcr, Hlf.
Qed.

Lemma split_at_nonempty : forall (s : Text) (skip : nat), split_at skip s <> [].
Proof.
  induction s as [|c s IH]; intros skip; simpl; [done|].
  destruct skip; [|apply IH].
  destruct (separator (c :: s)); [done|]. by destruct (split_at 0 s).
Qed.

Lemma split_at_visible : forall (s : Text) (skip : nat),
  forallb isWhiteSpace (take skip s) = true ->
  concat (map visible (split_at skip s)) = visible s.
Proof.
  induction s as [|c s IH]; intros skip; [by destruct skip|].
  destruct skip as [|k].
  - intros _. cbn [split_at].
    destruct (separator (c :: s)) as [n|] eqn:Hsep.
    + destruct (separator_blank _ _ Hsep) as [Hn Hblank].
      destruct n as [|n]; [lia|]. simpl in Hblank.
      apply andb_true_iff in Hblank as [Hc Hrest].
      simpl. rewrite Nat.sub_0_r, (IH n Hrest). unfold visible. simpl. by rewrite Hc.
    + pose proof (IH 0%nat eq_refl) as IH0.
      destruct (split_at 0 s) as [|p ps] eqn:Hs; [by destruct (split_at_nonempty s 0)|].
      simpl in *. unfold visible in *. simpl.
      destruct (isWhiteSpace c); simpl; by rewrite <- IH0.
  - simpl. intros H. apply andb_true_iff in H as [Hc Hrest].
    rewrite (IH k Hrest). unfold visible. simpl. by rewrite Hc.
Qed.

Lemma split_at_plain : forall p : Text,
  Forall (fun c => c <> CR /\ c <> LF) p -> split_at 0 p = [p].
Proof.
  induction p as [|c p IH]; intros Hp; [done|].
  inversion Hp as [|? ? [Hcr Hlf] Hp']; subst.
  cbn [split_at]. by rewrite separator_none, (IH Hp').
Qed.

Lemma split_at_paragraph (rest : Text) : forall p : Text,
  Forall (fun c => c <> CR /\ c <> LF) p ->
  split_at 0 (p ++ sep ++ rest) = p :: split_at 0 rest.
Proof.
  induction p as [|c p IH]; intros Hp.
  - reflexivity.
  - inversion Hp as [|? ? [Hcr Hlf] Hp']; subst.
    change ((c :: p) ++ sep ++ rest) with (c :: (p ++ sep ++ rest)).
    cbn [split_at]. by rewrite separator_none, (IH Hp').
Qed.

Lemma split_at_join : forall ps : list Text,
  ps <> [] ->
  Forall (Forall (fun c => c <> CR /\ c <> LF)) ps ->
  split_at 0 (join sep ps) = ps.
Proof.
  induction ps as [|p ps IH]; intros Hne Hps; [done|].
  inversion Hps as [|? ? Hp Hps']; subst.
  destruct ps as [|q ps].
  - simpl. by apply split_at_plain.
  - change (join sep (p :: q :: ps)) with (p ++ sep ++ join sep (q :: ps)).
    rewrite split_at_paragraph by done. f_equal. by apply IH.
Qed.

(** ** Blank paragraphs *)

Lemma trimStart_blank : forall s : Text,
  forallb isWhiteSpace s = true -> trimStart s = [].
Proof.
  induction s as [|c s IH]; simpl; [done|].
  destruct (isWhiteSpace c); [apply IH | done].
Qed.

Lemma trimStart_nil : forall s : Text,
  trimStart s = [] -> forallb isWhiteSpace s = true.
Proof.
  induction s as [|c s IH]; simpl; [done|].
  destruct (isWhiteSpace c); [apply IH | done].
Qed.

Lemma trim_nil (s : Text) : trim s = [] <-> forallb isWhiteSpace s = true.
Proof.
  unfold trim. split.
  - intros H. apply trimStart_nil.
    assert (trimStart (rev (trimStart s)) = []) as H1.
    { destruct (trimStart (rev (trimStart s))) as [|x l]; [done|].
      simpl in H. by destruct (rev l). }
    apply trimStart_nil in H1. rewrite forallb_forall in H1.
    destruct (trimStart s) as [|c r] eqn:Hr; [done|].
    assert (isWhiteSpace c = true) as Hc by (apply H1, in_rev; rewrite rev_involutive; by left).
    destruct s as [|d s]; [done|]. clear -Hr Hc.
    exfalso. revert d Hr. induction s as [|e s IH]; intros d; simpl.
    + destruct (isWhiteSpace d) eqn:Hd; [done|]. intros [= <- <-]. congruence.
    + destruct (isWhiteSpace d) eqn:Hd; [apply IH|]. intros [= <- <-]. congruence.
  - intros H. by rewrite (trimStart_blank s H).
Qed.

Lemma blank_invisible (s : Text) : forallb isWhiteSpace s = true -> visible s = [].
Proof.
  induction s as [|c s IH]; simpl; [done|]. intros H.
  apply andb_true_iff in H as [Hc Hs]. unfold visible. simpl. rewrite Hc. by apply IH.
Qed.

Lemma kept_visible (l : list Text) :
  concat (map visible (List.filter kept l)) = concat (map visible l).
Proof.
  induction l as [|p l IH]; simpl; [done|].
  destruct (trim p) as [|c r] eqn:Hp; simpl; [|by rewrite IH].
  apply trim_nil in Hp. by rewrite (blank_invisible p Hp), IH.
Qed.

Lemma join_visible : forall ps : list Text,
  visible (join sep ps) = concat (map visible ps).
Proof.
  induction ps as [|p ps IH]; [done|].
  destruct ps as [|q ps].
  - simpl. by rewrite app_nil_r.
  - change (join sep (p :: q :: ps)) with (p ++ sep ++ join sep (q :: ps)).
    unfold visible in *. rewrite !List.filter_app, IH. reflexivity.
Qed.

(** ** The paragraphs *)

Lemma paragraphs_tidy (result : Text) :
  Forall (fun p => tidy isWhiteSpace false p = true /\ kept p = true) (paragraphs result).
Proof.
  unfold paragraphs. apply Forall_forall. intros p Hin.
  apply list_elem_of_In, filter_In in Hin as [Hin Hkept]. split; [|done].
  apply in_map_iff in Hin as (q & <- & _). by apply squeeze_tidy.
Qed.

Lemma squeeze_join : forall ps : list Text,
  Forall (fun p => tidy isWhiteSpace false p = true) ps ->
  squeeze isSpace false (join sep ps) = join sep ps.
Proof.
  induction ps as [|p ps IH]; intros Hps; [done|].
  inversion Hps as [|? ? Hp Hps']; subst.
  assert (squeeze isSpace false p = p) as Hfix
    by (apply squeeze_id; by apply (tidy_spaces p false false)).
  destruct ps as [|q ps]; [done|].
  change (join sep (p :: q :: ps)) with (p ++ CR :: ([LF; CR; LF] ++ join sep (q :: ps))).
  rewrite squeeze_app_stop by done. rewrite Hfix.
  change (squeeze isSpace false ([LF; CR; LF] ++ join sep (q :: ps)))
    with (LF :: CR :: LF :: squeeze isSpace false (join sep (q :: ps))).
  by rewrite (IH Hps').
Qed.

Lemma paragraphs_join (ps : list Text) :
  Forall (fun p => tidy isWhiteSpace false p = true /\ kept p = true) ps ->
  paragraphs (join sep ps) = ps.
Proof.
  intros Hps. unfold paragraphs.
  rewrite squeeze_join by (eapply Forall_impl; [exact Hps | by intros p [H _]]).
  destruct ps as [|p ps]; [done|].
  rewrite split_at_join; [| done |].
  - assert (map (squeeze isWhiteSpace false) (p :: ps) = p :: ps) as ->.
    { clear -Hps. induction Hps as [|q qs [Hq _] _ IH]; [done|].
      simpl. rewrite (squeeze_id _ _ _ Hq). by f_equal. }
    clear -Hps. induction Hps as [|q qs [_ Hq] _ IH]; [done|].
    simpl. rewrite Hq. by f_equal.
  - eapply Forall_impl; [exact Hps|]. intros q [Hq _]. by apply (tidy_no_newline q false).
Qed.

(** The text [loadDocument] returns is a list of paragraphs joined by
    CR LF CR LF, in which every paragraph shows something, holds no white
    space but single spaces, and so no line break of its own. *)
Theorem loaded_text_is_tidy (load : LoaderKind -> string -> Text + JsError)
    (filePath fileType : string) (text : Text) :
  loadDocument load filePath fileType = inl text ->
  exists ps : list Text,
    text = join sep ps
    /\ Forall (fun p => tidy isWhiteSpace false p = true
                        /\ visible p <> []
                        /\ Forall (fun c => c <> CR /\ c <> LF) p) ps.
Proof.
  unfold loadDocument. destruct (loaderFor fileType) as [k|]; [|done].
  destruct (load k filePath) as [result|e]; [|done]. intros [= <-].
  exists (paragraphs result). split; [done|].
  eapply Forall_impl; [apply paragraphs_tidy|]. intros p [Ht Hk]. split; [done|]. split.
  - intros Hv. destruct (trim p) as [|c r] eqn:Hp; [done|].
    assert (forallb isWhiteSpace p = true) as Hb.
    { clear -Hv. induction p as [|c p IH]; [done|]. unfold visible in *. simpl in *.
      destruct (isWhiteSpace c); [by apply IH | done]. }
    apply trim_nil in Hb. congruence.
  - by apply (tidy_no_newline p false).
Qed.

(** Loading loses nothing one can see: with the white space taken out, the
    returned text is the text the loader has read. *)
Theorem normalize_keeps_what_shows (result : Text) :
  visible (normalize result) = visible result.
Proof.
  unfold normalize, paragraphs.
  rewrite join_visible, kept_visible.
  rewrite <- (squeeze_visible isSpace) with (s := result) (inRun := false)
    by (intros c Hc; apply N.eqb_eq in Hc; by subst).
  rewrite <- (split_at_visible (squeeze isSpace false result) 0) by done.
  rewrite map_map. f_equal. apply map_ext. intros p.
  by apply squeeze_visible.
Qed.

(** What [loadDocument] returns is in its final form: splitting it at the
    blank lines gives the paragraphs back, and normalising it again changes
    nothing. *)
Theorem normalize_is_idempotent (result : Text) :
  paragraphs (normalize result) = paragraphs result
  /\ normalize (normalize result) = normalize result.
Proof.
  assert (paragraphs (normalize result) = paragraphs result) as H
    by apply paragraphs_join, paragraphs_tidy.
  split; [done|]. unfold normalize at 1. by rewrite H.
Qed.

(** Only the seven file types have a loader: any other type, also one of
    these in capitals, throws before a file is read, and an error of the
    loader is passed on as it is. *)
Theorem loadDocument_needs_a_loader (load : LoaderKind -> string -> Text + JsError)
    (filePath fileType : string) :
  match loadDocument load filePath fileType with
  | inl text =>
      In fileType ["txt"; "md"; "csv"; "pdf"; "docx"; "pptx"; "xlsx"]
      /\ exists (Loader : LoaderKind) (result : Text),
          load Loader filePath = inl result /\ text = normalize result
  | inr e =>
      (~ In fileType ["txt"; "md"; "csv"; "pdf"; "docx"; "pptx"; "xlsx"]
       /\ e = Error ("Miss Loader for: " +:+ fileType))
      \/ (In fileType ["txt"; "md"; "csv"; "pdf"; "docx"; "pptx"; "xlsx"]
          /\ exists Loader : LoaderKind, load Loader filePath = inr e)
  end.
Proof.
  unfold loadDocument, loaderFor.
  repeat match goal with
         | |- context [String.eqb fileType ?t] =>
             destruct (String.eqb_spec fileType t) as [->|?]
         end;
    try (match goal with
         | |- context [load ?k filePath] =>
             destruct (load k filePath) as [result|e] eqn:Hl;
             [split; [simpl; tauto | by exists k, result]
             | right; split; [simpl; tauto | by exists k]]
         end).
  left. split; [|done]. simpl. intuition congruence.
Qed.

End LoadedText.

(* ===================================================================== *)
(** * An abort that came too early *)
(* ===================================================================== *)

Section EarlierAbort.

Variable makeToolMessages : ITool -> JsValue -> list RequestMessage.
Variable raiseError : Z -> option JsValue -> option string -> JsError.
Variable AbortError : JsError.
Variable script : nat -> Round.

Local Abbreviation await := (@await AbortError).
Local Abbreviation makeRequest := (makeRequest AbortError script).
Local Abbreviation tryBlock := (tryBlock makeToolMessages raiseError AbortError script).
Local Abbreviation chatBody := (chatBody makeToolMessages raiseError AbortError script).
Local Abbreviation chat_fuel := (chat_fuel makeToolMessages raiseError AbortError script).
Local Abbreviation chat := (chat makeToolMessages raiseError AbortError script).

(** The number of controllers made so far. *)
Local Abbreviation made s := (length (controllers s)).

Lemma marked_new (k : nat) (s : State) :
  (k < made s)%nat -> newAbortController (marked k s) = marked k (newAbortController s).
Proof.
  intros Hk. unfold newAbortController, marked, set_controllers. simpl.
  by rewrite length_insert, insert_app_l.
Qed.

Lemma marked_abort (k : nat) (s : State) : abort (marked k s) = marked k (abort s).
Proof.
  unfold abort, marked, set_controllers. simpl. f_equal.
  destruct (decide (abortController s = k)) as [->|Hne]; [done|].
  by apply list_insert_insert_ne.
Qed.

Lemma marked_await {A : Type} (op : Await A) (k : nat) (s : State) :
  await op (marked k s) = (marked k (fst (await op s)), snd (await op s))
  /\ made (fst (await op s)) = made s.
Proof.
  destruct op; simpl; [done | done |]. rewrite marked_abort. split; [done|].
  by rewrite length_insert.
Qed.

Lemma marked_callTool (client name : option string) (args : JsValue) (host : ToolAwait)
    (k : nat) (s : State) :
  callTool client name args host (marked k s)
  = (marked k (fst (callTool client name args host s)),
     snd (callTool client name args host s))
  /\ made (fst (callTool client name args host s)) = made s.
Proof.
  unfold callTool. destruct (abortDuringTool host); simpl; [|done].
  split; [|by rewrite length_insert].
  f_equal. apply (marked_abort k (emit (EvCallTool client name args) s)).
Qed.

Lemma marked_signal (ref k : nat) (s : State) :
  ref <> k -> signal_aborted ref (marked k s) = signal_aborted ref s.
Proof.
  intros Hne. unfold signal_aborted, marked. simpl.
  by rewrite list_lookup_insert_ne.
Qed.

(** The [try] block does not look at a controller made before it. *)
Lemma tryBlock_marked (self : list RequestMessage -> State -> option State) (k : nat) :
  (forall m s, (k < made s)%nat -> self m (marked k s) = marked k <$> self m s) ->
  forall (m : list RequestMessage) (s : State),
    (k < made s)%nat ->
    tryBlock self m (marked k s)
    = match tryBlock self m s with
      | Some (s', reply, exit) => Some (marked k s', reply, exit)
      | None => None
      end.
Proof.
  intros Hself m s Hk.
  unfold Chat.tryBlock, Chat.makeRequest.
  change (issue m (marked k s)) with (marked k (issue m s)).
  change (requests (marked k s)) with (requests s).
  destruct (marked_await (request (script (requests s))) k (issue m s)) as [-> Hw1].
  destruct (await (request (script (requests s))) (issue m s)) as [s1 [resp|e]];
    cbn [fst snd] in *; [|done].
  change (made (issue m s)) with (made s) in Hw1.
  destruct (negb (status resp =? 200)).
  { destruct (match contentType resp with
              | Some ct => includes "application/json" ct
              | None => false
              end).
    - destruct (marked_await (json resp) k s1) as [-> _].
      by destruct (await (json resp) s1) as [s2 [j|e]].
    - destruct (marked_await (text resp) k s1) as [-> _].
      by destruct (await (text resp) s1) as [s2 [j|e]]. }
  destruct (body resp) as [stream|]; [|done].
  rewrite !drain_eq.
  change (emits (map callbackEvent (events stream)) (marked k s1))
    with (marked k (emits (map callbackEvent (events stream)) s1)).
  set (s2 := emits (map callbackEvent (events stream)) s1).
  assert (made s2 = made s1) as Hw2 by done. clearbody s2.
  destruct (marked_await (finish stream) k s2) as [-> Hw3].
  destruct (await (finish stream) s2) as [s3 [rr|e]]; cbn [fst snd] in *; [|done].
  change (addTokens rr (marked k s3)) with (marked k (addTokens rr s3)).
  set (s4 := addTokens rr s3).
  assert (made s4 = made s3) as Hw4 by done. clearbody s4.
  destruct (rr_tool rr) as [tool|]; [|done].
  destruct (ToolName.destructure (tool_name tool)) as [client name].
  destruct (marked_callTool client name (tool_args tool)
              (toolHost (script (requests s))) k s4) as [-> Hw5].
  destruct (callTool client name (tool_args tool) (toolHost (script (requests s))) s4)
    as [s5 [v|e]]; cbn [fst snd] in *; [|done].
  change (toolCallsWithResponses (marked k s5)) with (toolCallsWithResponses s5).
  match goal with
  | |- context [self ?m' (set_toolCalls ?l (marked k s5))] =>
      change (set_toolCalls l (marked k s5)) with (marked k (set_toolCalls l s5));
      rewrite (Hself m' (set_toolCalls l s5)) by (simpl; lia);
      by destruct (self m' (set_toolCalls l s5))
  end.
Qed.

Lemma chatBody_marked (self : list RequestMessage -> State -> option State) (k : nat) :
  (forall m s, (k < made s)%nat -> self m (marked k s) = marked k <$> self m s) ->
  forall (m : list RequestMessage) (s : State),
    (k < made s)%nat -> chatBody self m (marked k s) = marked k <$> chatBody self m s.
Proof.
  intros Hself m s Hk. unfold Chat.chatBody.
  change (set_depth Entered (currentRecursionDepth (marked k s)) (marked k s))
    with (marked k (set_depth Entered (currentRecursionDepth s) s)).
  set (s1 := set_depth Entered (currentRecursionDepth s) s).
  assert (made s1 = made s) as Hw1 by done. clearbody s1.
  change (currentRecursionDepth (marked k s1)) with (currentRecursionDepth s1).
  set (s2 := if currentRecursionDepth s1 =? 0 then set_toolCalls [] s1 else s1).
  assert ((if currentRecursionDepth s1 =? 0 then set_toolCalls [] (marked k s1)
           else marked k s1) = marked k s2) as ->
    by (subst s2; by destruct (currentRecursionDepth s1 =? 0)).
  assert (made s2 = made s1) as Hw2
    by (subst s2; by destruct (currentRecursionDepth s1 =? 0)).
  clearbody s2.
  change (currentRecursionDepth (marked k s2)) with (currentRecursionDepth s2).
  destruct (MAX_RECURSION_DEPTH <=? currentRecursionDepth s2); [done|].
  change (set_depth Incremented (currentRecursionDepth s2 + 1) (marked k s2))
    with (marked k (set_depth Incremented (currentRecursionDepth s2 + 1) s2)).
  set (s3 := set_depth Incremented (currentRecursionDepth s2 + 1) s2).
  assert (made s3 = made s2) as Hw3 by done. clearbody s3.
  rewrite marked_new by lia.
  assert (abortController (newAbortController s3) <> k) as Hsignal by (simpl; lia).
  assert (k < made (newAbortController s3))%nat as Hw4
    by (simpl; rewrite length_app; simpl; lia).
  change (abortController (marked k (newAbortController s3)))
    with (abortController (newAbortController s3)).
  set (signal := abortController (newAbortController s3)) in *.
  set (s4 := newAbortController s3) in *. clearbody signal s4.
  rewrite (tryBlock_marked self k Hself m s4 Hw4).
  destruct (tryBlock self m s4) as [[[s5 reply] exit]|]; [|done].
  destruct exit as [| |e]; cbn [fmap option_fmap option_map]; try done.
  change (emit (EvError e (signal_aborted signal (marked k s5))) (marked k s5))
    with (marked k (emit (EvError e (signal_aborted signal (marked k s5))) s5)).
  by rewrite marked_signal.
Qed.

Lemma chat_fuel_marked (k : nat) (fuel : nat) :
  forall (m : list RequestMessage) (s : State),
    (k < made s)%nat -> chat_fuel fuel m (marked k s) = marked k <$> chat_fuel fuel m s.
Proof.
  induction fuel as [|fuel IH]; intros m s Hk; [done|].
  cbn [Chat.chat_fuel]. by apply chatBody_marked.
Qed.

(** An [abort()] that comes before [chat] is called does not reach the
    call: every round-trip works on a controller of its own, made after the
    abort, so the call runs as it would have run without it, the trace,
    the requests and the counters included; only the old controller
    stays aborted. *)
Theorem earlier_abort_is_not_seen (m : list RequestMessage) (s : State) :
  (abortController s < length (controllers s))%nat ->
  exists s' : State,
    chat m s = Some s'
    /\ chat m (abort s) = Some (marked (abortController s) s')
    /\ trace (marked (abortController s) s') = trace s'
    /\ requests (marked (abortController s) s') = requests s'
    /\ toolCallsWithResponses (marked (abortController s) s') = toolCallsWithResponses s'.
Proof.
  intros Hk.
  destruct (chat_returns makeToolMessages raiseError AbortError script m s) as [s' Hs'].
  exists s'. split; [done|]. split; [|done].
  unfold Chat.chat in *. change (enough (abort s)) with (enough s).
  change (abort s) with (marked (abortController s) s).
  by rewrite chat_fuel_marked, Hs'.
Qed.

End EarlierAbort.

Section LoaderAtSamples.
Import Loader.
Import Sample.

(** The sample file: the doubled space is squeezed, the blank paragraph is
    gone, both blank lines have become CR LF CR LF. *)
Lemma loaded_text_is_tidy_witness :
  loadDocument reader "notes.md" "md" = inl [72; 105; 32; 13; 10; 13; 10; 111; 107]%N
  /\ exists ps : list Text,
      [72; 105; 32; 13; 10; 13; 10; 111; 107]%N = join [CR; LF; CR; LF] ps
      /\ Forall (fun p => tidy isWhiteSpace false p = true
                          /\ visible p <> []
                          /\ Forall (fun c => c <> CR /\ c <> LF) p) ps.
Proof.
  split; [reflexivity|].
  apply (loaded_text_is_tidy reader "notes.md" "md"). reflexivity.
Defined.

End LoaderAtSamples.

Section AbortAtSamples.
Import Sample.

Local Abbreviation run := (chat toolMessages httpError abortError).

(** [abort()] on the fresh service, then a plain answer. *)
Lemma earlier_abort_is_not_seen_witness :
  (abortController service < length (controllers service))%nat
  /\ exists s' : State,
      run plain hello service = Some s'
      /\ run plain hello (abort service) = Some (marked 0 s')
      /\ trace (marked 0 s') = trace s'.
Proof.
  split; [simpl; lia|].
  destruct (earlier_abort_is_not_seen toolMessages httpError abortError plain hello service)
    as (s' & Hs' & Ha & Ht & _); [simpl; lia|].
  exists s'. split; [exact Hs'|]. split; [exact Ha|]. exact Ht.
Defined.

End AbortAtSamples.
